(** * Configuration validation, activation and persistence (src/main/fc/config.c)

    A shallow embedding of [config.c]: the parameter-group store is a record of
    records, the module's globals ([currentPidProfile], [configIsDirty],
    [rebootRequired]) are fields of a [world], every C function is a function on
    that state, and calls into other subsystems are recorded in an event trace.

    Conventions.
    - Integer fields are [Z]; array indices and counts are [nat].
    - The C [float] computations of [validateAndFixGyroConfig] are carried out
      in exact rational arithmetic ([Q]); the decimal literals are the exact
      decimals.  Conversions to integer are written out ([float_to_int],
      [lrintf]).
    - A pointer into a parameter-group array ([currentPidProfile]) is the index
      of the slot it points to.
    - Preprocessor conditionals are read from a [target] record, so that one
      definition covers every build.
    - Functions, tables and types that live in other modules are the fields of
      [externalTypes] and [collaborators]. *)

From Stdlib Require Import ZArith QArith Qround Lia Lqa.
From stdpp Require Import base decidable countable gmap list.

Open Scope Z_scope.

(* set_solver clears hypotheses it has already consumed *)
#[global] Set Warnings "-clear-no-such-hyp".

(** ** Enumerations

    Only the enumerators that [config.c] names are listed; where the C enum has
    further members they are carried by a catch-all constructor. *)

Inductive mixerMode_e :=
| MIXER_CUSTOM | MIXER_CUSTOM_AIRPLANE | MIXER_CUSTOM_TRI
| MIXER_FIXED (id : nat).

Inductive gpsProvider_e := GPS_MSP | GPS_PROVIDER_OTHER (id : nat).

(** Declaration order of drivers/motor.h; [PWM_TYPE_index] is the enumerator's
    integer value, used by the one ordered comparison in the source. *)
Inductive motorPwmProtocolTypes_e :=
| PWM_TYPE_STANDARD | PWM_TYPE_ONESHOT125 | PWM_TYPE_ONESHOT42 | PWM_TYPE_MULTISHOT
| PWM_TYPE_BRUSHED | PWM_TYPE_DSHOT150 | PWM_TYPE_DSHOT300 | PWM_TYPE_DSHOT600
| PWM_TYPE_PROSHOT1000.

Definition PWM_TYPE_index (p : motorPwmProtocolTypes_e) : Z :=
  match p with
  | PWM_TYPE_STANDARD => 0 | PWM_TYPE_ONESHOT125 => 1 | PWM_TYPE_ONESHOT42 => 2
  | PWM_TYPE_MULTISHOT => 3 | PWM_TYPE_BRUSHED => 4 | PWM_TYPE_DSHOT150 => 5
  | PWM_TYPE_DSHOT300 => 6 | PWM_TYPE_DSHOT600 => 7 | PWM_TYPE_PROSHOT1000 => 8
  end.

Inductive dshotBitbangMode_e := DSHOT_BITBANG_OFF | DSHOT_BITBANG_ON | DSHOT_BITBANG_AUTO.

Inductive gyroHardwareLpf_e :=
| GYRO_HARDWARE_LPF_1KHZ_SAMPLE | GYRO_HARDWARE_LPF_OTHER (id : nat).

Inductive mpuSensor_e := ICM_20649_SPI | BMI_160_SPI | MPU_SENSOR_OTHER (id : nat).

Inductive schedulerOptimizeRate_e :=
| SCHEDULER_OPTIMIZE_RATE_OFF | SCHEDULER_OPTIMIZE_RATE_ON | SCHEDULER_OPTIMIZE_RATE_AUTO.

Inductive configurationState_e :=
| CONFIGURATION_STATE_DEFAULTS_BARE | CONFIGURATION_STATE_CONFIGURED.

Inductive voltageMeterSource_e := VOLTAGE_METER_NONE | VOLTAGE_METER_OTHER (id : nat).

Inductive currentMeterSource_e :=
| CURRENT_METER_NONE | CURRENT_METER_ADC | CURRENT_METER_OTHER (id : nat).

Inductive rcInterpolationChannels_e :=
| INTERPOLATION_CHANNELS_RP | INTERPOLATION_CHANNELS_RPY | INTERPOLATION_CHANNELS_RPYT
| INTERPOLATION_CHANNELS_T | INTERPOLATION_CHANNELS_RPT.

Inductive failsafeProcedure_e :=
| FAILSAFE_PROCEDURE_DROP_IT | FAILSAFE_PROCEDURE_GPS_RESCUE
| FAILSAFE_PROCEDURE_OTHER (id : nat).

Inductive serialPortFunction_e := FUNCTION_GPS | FUNCTION_ESC_SENSOR.

Inductive armingDisableFlags_e :=
| ARMING_DISABLED_REBOOT_REQUIRED | ARMING_DISABLED_OTHER (id : nat).

#[global] Instance mixerMode_eq_dec : EqDecision mixerMode_e.
Proof. solve_decision. Defined.
#[global] Instance gpsProvider_eq_dec : EqDecision gpsProvider_e.
Proof. solve_decision. Defined.
#[global] Instance motorPwmProtocol_eq_dec : EqDecision motorPwmProtocolTypes_e.
Proof. solve_decision. Defined.
#[global] Instance dshotBitbangMode_eq_dec : EqDecision dshotBitbangMode_e.
Proof. solve_decision. Defined.
#[global] Instance gyroHardwareLpf_eq_dec : EqDecision gyroHardwareLpf_e.
Proof. solve_decision. Defined.
#[global] Instance mpuSensor_eq_dec : EqDecision mpuSensor_e.
Proof. solve_decision. Defined.
#[global] Instance schedulerOptimizeRate_eq_dec : EqDecision schedulerOptimizeRate_e.
Proof. solve_decision. Defined.
#[global] Instance configurationState_eq_dec : EqDecision configurationState_e.
Proof. solve_decision. Defined.
#[global] Instance currentMeterSource_eq_dec : EqDecision currentMeterSource_e.
Proof. solve_decision. Defined.
#[global] Instance rcInterpolationChannels_eq_dec : EqDecision rcInterpolationChannels_e.
Proof. solve_decision. Defined.
#[global] Instance failsafeProcedure_eq_dec : EqDecision failsafeProcedure_e.
Proof. solve_decision. Defined.
#[global] Instance armingDisableFlags_eq_dec : EqDecision armingDisableFlags_e.
Proof. solve_decision. Defined.

#[global] Instance armingDisableFlags_countable : Countable armingDisableFlags_e.
Proof.
  refine (inj_countable'
    (λ f, match f with ARMING_DISABLED_REBOOT_REQUIRED => 0%nat
                     | ARMING_DISABLED_OTHER n => S n end)
    (λ n, match n with O => ARMING_DISABLED_REBOOT_REQUIRED
                     | S n => ARMING_DISABLED_OTHER n end) _).
  by intros [].
Defined.

(** ** Feature flags

    config/feature.h is not part of the sources at hand.  Each [FEATURE_x] is a
    distinct bit of a 32-bit mask, so a mask is a finite set of flags and the C
    expression [A | B] is the set [{[A; B]}]. *)

Inductive feature :=
| FEATURE_RX_PPM | FEATURE_RX_SERIAL | FEATURE_SERVO_TILT | FEATURE_SOFTSERIAL
| FEATURE_GPS | FEATURE_RANGEFINDER | FEATURE_TELEMETRY | FEATURE_3D
| FEATURE_RX_PARALLEL_PWM | FEATURE_RX_MSP | FEATURE_RSSI_ADC | FEATURE_LED_STRIP
| FEATURE_DASHBOARD | FEATURE_OSD | FEATURE_CHANNEL_FORWARDING | FEATURE_TRANSPONDER
| FEATURE_RX_SPI | FEATURE_SOFTSPI | FEATURE_ESC_SENSOR | FEATURE_DYNAMIC_FILTER
| FEATURE_OTHER (bit : nat).

#[global] Instance feature_eq_dec : EqDecision feature.
Proof. solve_decision. Defined.

Definition feature_code (f : feature) : nat :=
  match f with
  | FEATURE_RX_PPM => 0 | FEATURE_RX_SERIAL => 1 | FEATURE_SERVO_TILT => 2
  | FEATURE_SOFTSERIAL => 3 | FEATURE_GPS => 4 | FEATURE_RANGEFINDER => 5
  | FEATURE_TELEMETRY => 6 | FEATURE_3D => 7 | FEATURE_RX_PARALLEL_PWM => 8
  | FEATURE_RX_MSP => 9 | FEATURE_RSSI_ADC => 10 | FEATURE_LED_STRIP => 11
  | FEATURE_DASHBOARD => 12 | FEATURE_OSD => 13 | FEATURE_CHANNEL_FORWARDING => 14
  | FEATURE_TRANSPONDER => 15 | FEATURE_RX_SPI => 16 | FEATURE_SOFTSPI => 17
  | FEATURE_ESC_SENSOR => 18 | FEATURE_DYNAMIC_FILTER => 19
  | FEATURE_OTHER b => 20 + b
  end%nat.

Definition feature_of_code (n : nat) : feature :=
  match n with
  | 0 => FEATURE_RX_PPM | 1 => FEATURE_RX_SERIAL | 2 => FEATURE_SERVO_TILT
  | 3 => FEATURE_SOFTSERIAL | 4 => FEATURE_GPS | 5 => FEATURE_RANGEFINDER
  | 6 => FEATURE_TELEMETRY | 7 => FEATURE_3D | 8 => FEATURE_RX_PARALLEL_PWM
  | 9 => FEATURE_RX_MSP | 10 => FEATURE_RSSI_ADC | 11 => FEATURE_LED_STRIP
  | 12 => FEATURE_DASHBOARD | 13 => FEATURE_OSD | 14 => FEATURE_CHANNEL_FORWARDING
  | 15 => FEATURE_TRANSPONDER | 16 => FEATURE_RX_SPI | 17 => FEATURE_SOFTSPI
  | 18 => FEATURE_ESC_SENSOR | 19 => FEATURE_DYNAMIC_FILTER
  | n => FEATURE_OTHER (n - 20)
  end%nat.

#[global] Instance feature_countable : Countable feature.
Proof.
  refine (inj_countable' feature_code feature_of_code _).
  intros [| | | | | | | | | | | | | | | | | | | |b]; try reflexivity.
  cbn [feature_code]. change (20 + b)%nat with (S (S (S (S (S (S (S (S (S (S
    (S (S (S (S (S (S (S (S (S (S b)))))))))))))))))))).
  cbn [feature_of_code]. f_equal. lia.
Defined.

Abbreviation featureMask := (gset feature).

(** The five receiver-input features. *)
Definition RX_FEATURES : gset feature :=
  {[ FEATURE_RX_PPM; FEATURE_RX_PARALLEL_PWM; FEATURE_RX_SERIAL; FEATURE_RX_MSP;
     FEATURE_RX_SPI ]}.

(** Enumerators of other headers that index arrays in [config.c]. *)
Definition PID_ROLL : nat := 0.
Definition PID_PITCH : nat := 1.
Definition PID_YAW : nat := 2.
Definition FD_YAW : nat := 2.

(** ** Build configuration

    The preprocessor symbols tested by [config.c] and the constants it takes
    from other headers. *)
Record target := {
  (* conditional compilation *)
  USE_TARGET_CONFIG : bool; USE_CUSTOM_DEFAULTS : bool; TARGET_VALIDATECONFIG : bool;
  USE_ACC : bool; USE_LED_STRIP_STATUS_MODE : bool; USE_QUAD_MIXER_ONLY : bool;
  USE_SERVOS : bool; USE_GPS : bool; USE_GPS_RESCUE : bool; USE_DYN_LPF : bool;
  USE_RX_SPI : bool; USE_SOFTSPI : bool; STM32F10X : bool; STM32F1 : bool;
  USE_ADC : bool; USE_PWM : bool; USE_PPM : bool; USE_THROTTLE_BOOST : bool;
  USE_ESC_SENSOR : bool; USE_DSHOT : bool; USE_DSHOT_TELEMETRY : bool;
  USE_DSHOT_BITBANG : bool; USE_SERIAL_RX : bool; USE_SOFTSERIAL1 : bool;
  USE_SOFTSERIAL2 : bool; USE_RANGEFINDER : bool; USE_TELEMETRY : bool;
  USE_RX_MSP : bool; USE_LED_STRIP : bool; USE_DASHBOARD : bool; USE_OSD : bool;
  USE_TRANSPONDER : bool; USE_GYRO_DATA_ANALYSE : bool; USE_BEEPER : bool;
  USE_TIMER : bool; USE_VTX_COMMON : bool; USE_VTX_TABLE : bool;
  USE_BLACKBOX : bool; USE_FLASHFS : bool; USE_SDCARD : bool; USE_MULTI_GYRO : bool;
  (* constants *)
  PID_PROFILE_COUNT : nat;
  CONTROL_RATE_PROFILE_COUNT : nat;
  MAX_MODE_ACTIVATION_CONDITION_COUNT : nat;
  OSD_TIMER_COUNT : nat;
  FILTER_FREQUENCY_MAX : Z;
  MAX_PID_PROCESS_DENOM : Z;
  BRUSHLESS_MOTORS_PWM_RATE : Z;
  MAX_AUTO_DETECT_CELL_COUNT : Z;
  AUTO_PROFILE_CELL_COUNT_STAY : Z;
  AUTO_PROFILE_CELL_COUNT_CHANGE : Z;
  DEFAULT_RX_FEATURE : feature;
  BEEPER_ALLOWED_MODES : Z;
  DSHOT_BEACON_ALLOWED_MODES : Z;
  DSHOT_CMD_BEACON1 : Z;
  DSHOT_CMD_BEACON5 : Z;
  OSD_TIMER_SRC_COUNT : Z;
  OSD_TIMER_PREC_COUNT : Z;
  BOXARM : Z;
  BOXGPSRESCUE : Z;
  BLACKBOX_DEVICE_NONE : Z;
  (* what the target's float-to-int conversion yields for +infinity, which C
     leaves undefined; reached only with gyro_sync_denom = 0 *)
  FLOAT_TO_INT_OVERFLOW : Z
}.

(** ** Parameter groups

    One record per parameter group, with the fields [config.c] reads or
    writes, and a setter for each field it writes. *)

Record mixerConfig_t := {
  mixerMode : mixerMode_e
}.

Definition set_mixerMode (v : mixerMode_e) (r : mixerConfig_t) : mixerConfig_t :=
  {| mixerMode := v |}.

Record gpsConfig_t := {
  provider : gpsProvider_e
}.


Record featureConfig_t := {
  enabledFeatures : gset feature
}.

Definition set_enabledFeatures (v : gset feature) (r : featureConfig_t) : featureConfig_t :=
  {| enabledFeatures := v |}.

Record pidf_t := {
  D : Z;
  F : Z
}.

Definition set_F (v : Z) (r : pidf_t) : pidf_t :=
  {| D := D r; F := v |}.

Record pidProfile_t := {
  pid : list pidf_t;
  dterm_lowpass_hz : Z;
  dterm_lowpass2_hz : Z;
  dterm_notch_hz : Z;
  dterm_notch_cutoff : Z;
  dyn_lpf_dterm_min_hz : Z;
  dyn_lpf_dterm_max_hz : Z;
  motor_output_limit : Z;
  auto_profile_cell_count : Z;
  d_min : list Z;
  throttle_boost : Z
}.

Definition set_pid (v : list pidf_t) (r : pidProfile_t) : pidProfile_t :=
  {| pid := v; dterm_lowpass_hz := dterm_lowpass_hz r;
     dterm_lowpass2_hz := dterm_lowpass2_hz r; dterm_notch_hz := dterm_notch_hz r;
     dterm_notch_cutoff := dterm_notch_cutoff r;
     dyn_lpf_dterm_min_hz := dyn_lpf_dterm_min_hz r;
     dyn_lpf_dterm_max_hz := dyn_lpf_dterm_max_hz r;
     motor_output_limit := motor_output_limit r;
     auto_profile_cell_count := auto_profile_cell_count r; d_min := d_min r;
     throttle_boost := throttle_boost r |}.
Definition set_dterm_lowpass_hz (v : Z) (r : pidProfile_t) : pidProfile_t :=
  {| pid := pid r; dterm_lowpass_hz := v; dterm_lowpass2_hz := dterm_lowpass2_hz r;
     dterm_notch_hz := dterm_notch_hz r; dterm_notch_cutoff := dterm_notch_cutoff r;
     dyn_lpf_dterm_min_hz := dyn_lpf_dterm_min_hz r;
     dyn_lpf_dterm_max_hz := dyn_lpf_dterm_max_hz r;
     motor_output_limit := motor_output_limit r;
     auto_profile_cell_count := auto_profile_cell_count r; d_min := d_min r;
     throttle_boost := throttle_boost r |}.
Definition set_dterm_lowpass2_hz (v : Z) (r : pidProfile_t) : pidProfile_t :=
  {| pid := pid r; dterm_lowpass_hz := dterm_lowpass_hz r; dterm_lowpass2_hz := v;
     dterm_notch_hz := dterm_notch_hz r; dterm_notch_cutoff := dterm_notch_cutoff r;
     dyn_lpf_dterm_min_hz := dyn_lpf_dterm_min_hz r;
     dyn_lpf_dterm_max_hz := dyn_lpf_dterm_max_hz r;
     motor_output_limit := motor_output_limit r;
     auto_profile_cell_count := auto_profile_cell_count r; d_min := d_min r;
     throttle_boost := throttle_boost r |}.
Definition set_dterm_notch_hz (v : Z) (r : pidProfile_t) : pidProfile_t :=
  {| pid := pid r; dterm_lowpass_hz := dterm_lowpass_hz r;
     dterm_lowpass2_hz := dterm_lowpass2_hz r; dterm_notch_hz := v;
     dterm_notch_cutoff := dterm_notch_cutoff r;
     dyn_lpf_dterm_min_hz := dyn_lpf_dterm_min_hz r;
     dyn_lpf_dterm_max_hz := dyn_lpf_dterm_max_hz r;
     motor_output_limit := motor_output_limit r;
     auto_profile_cell_count := auto_profile_cell_count r; d_min := d_min r;
     throttle_boost := throttle_boost r |}.
Definition set_dterm_notch_cutoff (v : Z) (r : pidProfile_t) : pidProfile_t :=
  {| pid := pid r; dterm_lowpass_hz := dterm_lowpass_hz r;
     dterm_lowpass2_hz := dterm_lowpass2_hz r; dterm_notch_hz := dterm_notch_hz r;
     dterm_notch_cutoff := v; dyn_lpf_dterm_min_hz := dyn_lpf_dterm_min_hz r;
     dyn_lpf_dterm_max_hz := dyn_lpf_dterm_max_hz r;
     motor_output_limit := motor_output_limit r;
     auto_profile_cell_count := auto_profile_cell_count r; d_min := d_min r;
     throttle_boost := throttle_boost r |}.
Definition set_dyn_lpf_dterm_min_hz (v : Z) (r : pidProfile_t) : pidProfile_t :=
  {| pid := pid r; dterm_lowpass_hz := dterm_lowpass_hz r;
     dterm_lowpass2_hz := dterm_lowpass2_hz r; dterm_notch_hz := dterm_notch_hz r;
     dterm_notch_cutoff := dterm_notch_cutoff r; dyn_lpf_dterm_min_hz := v;
     dyn_lpf_dterm_max_hz := dyn_lpf_dterm_max_hz r;
     motor_output_limit := motor_output_limit r;
     auto_profile_cell_count := auto_profile_cell_count r; d_min := d_min r;
     throttle_boost := throttle_boost r |}.
Definition set_motor_output_limit (v : Z) (r : pidProfile_t) : pidProfile_t :=
  {| pid := pid r; dterm_lowpass_hz := dterm_lowpass_hz r;
     dterm_lowpass2_hz := dterm_lowpass2_hz r; dterm_notch_hz := dterm_notch_hz r;
     dterm_notch_cutoff := dterm_notch_cutoff r;
     dyn_lpf_dterm_min_hz := dyn_lpf_dterm_min_hz r;
     dyn_lpf_dterm_max_hz := dyn_lpf_dterm_max_hz r; motor_output_limit := v;
     auto_profile_cell_count := auto_profile_cell_count r; d_min := d_min r;
     throttle_boost := throttle_boost r |}.
Definition set_auto_profile_cell_count (v : Z) (r : pidProfile_t) : pidProfile_t :=
  {| pid := pid r; dterm_lowpass_hz := dterm_lowpass_hz r;
     dterm_lowpass2_hz := dterm_lowpass2_hz r; dterm_notch_hz := dterm_notch_hz r;
     dterm_notch_cutoff := dterm_notch_cutoff r;
     dyn_lpf_dterm_min_hz := dyn_lpf_dterm_min_hz r;
     dyn_lpf_dterm_max_hz := dyn_lpf_dterm_max_hz r;
     motor_output_limit := motor_output_limit r; auto_profile_cell_count := v;
     d_min := d_min r; throttle_boost := throttle_boost r |}.
Definition set_d_min (v : list Z) (r : pidProfile_t) : pidProfile_t :=
  {| pid := pid r; dterm_lowpass_hz := dterm_lowpass_hz r;
     dterm_lowpass2_hz := dterm_lowpass2_hz r; dterm_notch_hz := dterm_notch_hz r;
     dterm_notch_cutoff := dterm_notch_cutoff r;
     dyn_lpf_dterm_min_hz := dyn_lpf_dterm_min_hz r;
     dyn_lpf_dterm_max_hz := dyn_lpf_dterm_max_hz r;
     motor_output_limit := motor_output_limit r;
     auto_profile_cell_count := auto_profile_cell_count r; d_min := v;
     throttle_boost := throttle_boost r |}.
Definition set_throttle_boost (v : Z) (r : pidProfile_t) : pidProfile_t :=
  {| pid := pid r; dterm_lowpass_hz := dterm_lowpass_hz r;
     dterm_lowpass2_hz := dterm_lowpass2_hz r; dterm_notch_hz := dterm_notch_hz r;
     dterm_notch_cutoff := dterm_notch_cutoff r;
     dyn_lpf_dterm_min_hz := dyn_lpf_dterm_min_hz r;
     dyn_lpf_dterm_max_hz := dyn_lpf_dterm_max_hz r;
     motor_output_limit := motor_output_limit r;
     auto_profile_cell_count := auto_profile_cell_count r; d_min := d_min r;
     throttle_boost := v |}.

Record motorDevConfig_t := {
  motorPwmRate : Z;
  motorPwmProtocol : motorPwmProtocolTypes_e;
  useUnsyncedPwm : bool;
  useBurstDshot : bool;
  useDshotTelemetry : bool;
  useDshotBitbang : dshotBitbangMode_e
}.

Definition set_motorPwmRate (v : Z) (r : motorDevConfig_t) : motorDevConfig_t :=
  {| motorPwmRate := v; motorPwmProtocol := motorPwmProtocol r;
     useUnsyncedPwm := useUnsyncedPwm r; useBurstDshot := useBurstDshot r;
     useDshotTelemetry := useDshotTelemetry r; useDshotBitbang := useDshotBitbang r |}.
Definition set_useUnsyncedPwm (v : bool) (r : motorDevConfig_t) : motorDevConfig_t :=
  {| motorPwmRate := motorPwmRate r; motorPwmProtocol := motorPwmProtocol r;
     useUnsyncedPwm := v; useBurstDshot := useBurstDshot r;
     useDshotTelemetry := useDshotTelemetry r; useDshotBitbang := useDshotBitbang r |}.
Definition set_useDshotTelemetry (v : bool) (r : motorDevConfig_t) : motorDevConfig_t :=
  {| motorPwmRate := motorPwmRate r; motorPwmProtocol := motorPwmProtocol r;
     useUnsyncedPwm := useUnsyncedPwm r; useBurstDshot := useBurstDshot r;
     useDshotTelemetry := v; useDshotBitbang := useDshotBitbang r |}.
Definition set_useDshotBitbang (v : dshotBitbangMode_e) (r : motorDevConfig_t) : motorDevConfig_t :=
  {| motorPwmRate := motorPwmRate r; motorPwmProtocol := motorPwmProtocol r;
     useUnsyncedPwm := useUnsyncedPwm r; useBurstDshot := useBurstDshot r;
     useDshotTelemetry := useDshotTelemetry r; useDshotBitbang := v |}.

Record motorConfig_t := {
  dev : motorDevConfig_t;
  minthrottle : Z;
  mincommand : Z
}.

Definition with_dev (f : motorDevConfig_t -> motorDevConfig_t) (r : motorConfig_t) : motorConfig_t :=
  {| dev := f (dev r); minthrottle := minthrottle r; mincommand := mincommand r |}.
Definition set_mincommand (v : Z) (r : motorConfig_t) : motorConfig_t :=
  {| dev := dev r; minthrottle := minthrottle r; mincommand := v |}.

Record gyroConfig_t := {
  gyro_sync_denom : Z;
  gyro_hardware_lpf : gyroHardwareLpf_e;
  gyro_lowpass_hz : Z;
  gyro_lowpass2_hz : Z;
  gyro_soft_notch_hz_1 : Z;
  gyro_soft_notch_cutoff_1 : Z;
  gyro_soft_notch_hz_2 : Z;
  gyro_soft_notch_cutoff_2 : Z;
  dyn_lpf_gyro_min_hz : Z;
  dyn_lpf_gyro_max_hz : Z
}.

Definition set_gyro_sync_denom (v : Z) (r : gyroConfig_t) : gyroConfig_t :=
  {| gyro_sync_denom := v; gyro_hardware_lpf := gyro_hardware_lpf r;
     gyro_lowpass_hz := gyro_lowpass_hz r; gyro_lowpass2_hz := gyro_lowpass2_hz r;
     gyro_soft_notch_hz_1 := gyro_soft_notch_hz_1 r;
     gyro_soft_notch_cutoff_1 := gyro_soft_notch_cutoff_1 r;
     gyro_soft_notch_hz_2 := gyro_soft_notch_hz_2 r;
     gyro_soft_notch_cutoff_2 := gyro_soft_notch_cutoff_2 r;
     dyn_lpf_gyro_min_hz := dyn_lpf_gyro_min_hz r;
     dyn_lpf_gyro_max_hz := dyn_lpf_gyro_max_hz r |}.
Definition set_gyro_lowpass_hz (v : Z) (r : gyroConfig_t) : gyroConfig_t :=
  {| gyro_sync_denom := gyro_sync_denom r; gyro_hardware_lpf := gyro_hardware_lpf r;
     gyro_lowpass_hz := v; gyro_lowpass2_hz := gyro_lowpass2_hz r;
     gyro_soft_notch_hz_1 := gyro_soft_notch_hz_1 r;
     gyro_soft_notch_cutoff_1 := gyro_soft_notch_cutoff_1 r;
     gyro_soft_notch_hz_2 := gyro_soft_notch_hz_2 r;
     gyro_soft_notch_cutoff_2 := gyro_soft_notch_cutoff_2 r;
     dyn_lpf_gyro_min_hz := dyn_lpf_gyro_min_hz r;
     dyn_lpf_gyro_max_hz := dyn_lpf_gyro_max_hz r |}.
Definition set_gyro_lowpass2_hz (v : Z) (r : gyroConfig_t) : gyroConfig_t :=
  {| gyro_sync_denom := gyro_sync_denom r; gyro_hardware_lpf := gyro_hardware_lpf r;
     gyro_lowpass_hz := gyro_lowpass_hz r; gyro_lowpass2_hz := v;
     gyro_soft_notch_hz_1 := gyro_soft_notch_hz_1 r;
     gyro_soft_notch_cutoff_1 := gyro_soft_notch_cutoff_1 r;
     gyro_soft_notch_hz_2 := gyro_soft_notch_hz_2 r;
     gyro_soft_notch_cutoff_2 := gyro_soft_notch_cutoff_2 r;
     dyn_lpf_gyro_min_hz := dyn_lpf_gyro_min_hz r;
     dyn_lpf_gyro_max_hz := dyn_lpf_gyro_max_hz r |}.
Definition set_gyro_soft_notch_hz_1 (v : Z) (r : gyroConfig_t) : gyroConfig_t :=
  {| gyro_sync_denom := gyro_sync_denom r; gyro_hardware_lpf := gyro_hardware_lpf r;
     gyro_lowpass_hz := gyro_lowpass_hz r; gyro_lowpass2_hz := gyro_lowpass2_hz r;
     gyro_soft_notch_hz_1 := v; gyro_soft_notch_cutoff_1 := gyro_soft_notch_cutoff_1 r;
     gyro_soft_notch_hz_2 := gyro_soft_notch_hz_2 r;
     gyro_soft_notch_cutoff_2 := gyro_soft_notch_cutoff_2 r;
     dyn_lpf_gyro_min_hz := dyn_lpf_gyro_min_hz r;
     dyn_lpf_gyro_max_hz := dyn_lpf_gyro_max_hz r |}.
Definition set_gyro_soft_notch_cutoff_1 (v : Z) (r : gyroConfig_t) : gyroConfig_t :=
  {| gyro_sync_denom := gyro_sync_denom r; gyro_hardware_lpf := gyro_hardware_lpf r;
     gyro_lowpass_hz := gyro_lowpass_hz r; gyro_lowpass2_hz := gyro_lowpass2_hz r;
     gyro_soft_notch_hz_1 := gyro_soft_notch_hz_1 r; gyro_soft_notch_cutoff_1 := v;
     gyro_soft_notch_hz_2 := gyro_soft_notch_hz_2 r;
     gyro_soft_notch_cutoff_2 := gyro_soft_notch_cutoff_2 r;
     dyn_lpf_gyro_min_hz := dyn_lpf_gyro_min_hz r;
     dyn_lpf_gyro_max_hz := dyn_lpf_gyro_max_hz r |}.
Definition set_gyro_soft_notch_hz_2 (v : Z) (r : gyroConfig_t) : gyroConfig_t :=
  {| gyro_sync_denom := gyro_sync_denom r; gyro_hardware_lpf := gyro_hardware_lpf r;
     gyro_lowpass_hz := gyro_lowpass_hz r; gyro_lowpass2_hz := gyro_lowpass2_hz r;
     gyro_soft_notch_hz_1 := gyro_soft_notch_hz_1 r;
     gyro_soft_notch_cutoff_1 := gyro_soft_notch_cutoff_1 r; gyro_soft_notch_hz_2 := v;
     gyro_soft_notch_cutoff_2 := gyro_soft_notch_cutoff_2 r;
     dyn_lpf_gyro_min_hz := dyn_lpf_gyro_min_hz r;
     dyn_lpf_gyro_max_hz := dyn_lpf_gyro_max_hz r |}.
Definition set_gyro_soft_notch_cutoff_2 (v : Z) (r : gyroConfig_t) : gyroConfig_t :=
  {| gyro_sync_denom := gyro_sync_denom r; gyro_hardware_lpf := gyro_hardware_lpf r;
     gyro_lowpass_hz := gyro_lowpass_hz r; gyro_lowpass2_hz := gyro_lowpass2_hz r;
     gyro_soft_notch_hz_1 := gyro_soft_notch_hz_1 r;
     gyro_soft_notch_cutoff_1 := gyro_soft_notch_cutoff_1 r;
     gyro_soft_notch_hz_2 := gyro_soft_notch_hz_2 r; gyro_soft_notch_cutoff_2 := v;
     dyn_lpf_gyro_min_hz := dyn_lpf_gyro_min_hz r;
     dyn_lpf_gyro_max_hz := dyn_lpf_gyro_max_hz r |}.
Definition set_dyn_lpf_gyro_min_hz (v : Z) (r : gyroConfig_t) : gyroConfig_t :=
  {| gyro_sync_denom := gyro_sync_denom r; gyro_hardware_lpf := gyro_hardware_lpf r;
     gyro_lowpass_hz := gyro_lowpass_hz r; gyro_lowpass2_hz := gyro_lowpass2_hz r;
     gyro_soft_notch_hz_1 := gyro_soft_notch_hz_1 r;
     gyro_soft_notch_cutoff_1 := gyro_soft_notch_cutoff_1 r;
     gyro_soft_notch_hz_2 := gyro_soft_notch_hz_2 r;
     gyro_soft_notch_cutoff_2 := gyro_soft_notch_cutoff_2 r; dyn_lpf_gyro_min_hz := v;
     dyn_lpf_gyro_max_hz := dyn_lpf_gyro_max_hz r |}.

Record pidConfig_t := {
  pid_process_denom : Z
}.

Definition set_pid_process_denom (v : Z) (r : pidConfig_t) : pidConfig_t :=
  {| pid_process_denom := v |}.

Record blackboxConfig_t := {
  device : Z
}.

Definition set_device (v : Z) (r : blackboxConfig_t) : blackboxConfig_t :=
  {| device := v |}.

Record systemConfig_t := {
  pidProfileIndex : nat;
  activeRateProfile : nat;
  schedulerOptimizeRate : schedulerOptimizeRate_e;
  configurationState : configurationState_e
}.

Definition set_pidProfileIndex (v : nat) (r : systemConfig_t) : systemConfig_t :=
  {| pidProfileIndex := v; activeRateProfile := activeRateProfile r;
     schedulerOptimizeRate := schedulerOptimizeRate r;
     configurationState := configurationState r |}.
Definition set_activeRateProfile (v : nat) (r : systemConfig_t) : systemConfig_t :=
  {| pidProfileIndex := pidProfileIndex r; activeRateProfile := v;
     schedulerOptimizeRate := schedulerOptimizeRate r;
     configurationState := configurationState r |}.
Definition set_configurationState (v : configurationState_e) (r : systemConfig_t) : systemConfig_t :=
  {| pidProfileIndex := pidProfileIndex r; activeRateProfile := activeRateProfile r;
     schedulerOptimizeRate := schedulerOptimizeRate r; configurationState := v |}.

Record batteryConfig_t := {
  voltageMeterSource : voltageMeterSource_e;
  currentMeterSource : currentMeterSource_e
}.

Definition set_voltageMeterSource (v : voltageMeterSource_e) (r : batteryConfig_t) : batteryConfig_t :=
  {| voltageMeterSource := v; currentMeterSource := currentMeterSource r |}.
Definition set_currentMeterSource (v : currentMeterSource_e) (r : batteryConfig_t) : batteryConfig_t :=
  {| voltageMeterSource := voltageMeterSource r; currentMeterSource := v |}.

Record rxConfig_t := {
  rssi_channel : Z;
  rssi_src_frame_errors : bool;
  rcInterpolationChannels : rcInterpolationChannels_e;
  rcInterpolation : Z;
  rc_smoothing_type : Z
}.

Definition set_rssi_channel (v : Z) (r : rxConfig_t) : rxConfig_t :=
  {| rssi_channel := v; rssi_src_frame_errors := rssi_src_frame_errors r;
     rcInterpolationChannels := rcInterpolationChannels r;
     rcInterpolation := rcInterpolation r; rc_smoothing_type := rc_smoothing_type r |}.
Definition set_rssi_src_frame_errors (v : bool) (r : rxConfig_t) : rxConfig_t :=
  {| rssi_channel := rssi_channel r; rssi_src_frame_errors := v;
     rcInterpolationChannels := rcInterpolationChannels r;
     rcInterpolation := rcInterpolation r; rc_smoothing_type := rc_smoothing_type r |}.

Record failsafeConfig_t := {
  failsafe_procedure : failsafeProcedure_e
}.

Definition set_failsafe_procedure (v : failsafeProcedure_e) (r : failsafeConfig_t) : failsafeConfig_t :=
  {| failsafe_procedure := v |}.

Record modeActivationCondition_t := {
  modeId : Z;
  linkedTo : Z
}.


Record beeperDevConfig_t := {
  ioTag : Z;
  frequency : Z
}.

Definition set_frequency (v : Z) (r : beeperDevConfig_t) : beeperDevConfig_t :=
  {| ioTag := ioTag r; frequency := v |}.

Record beeperConfig_t := {
  beeper_off_flags : Z;
  dshotBeaconOffFlags : Z;
  dshotBeaconTone : Z
}.

Definition set_beeper_off_flags (v : Z) (r : beeperConfig_t) : beeperConfig_t :=
  {| beeper_off_flags := v; dshotBeaconOffFlags := dshotBeaconOffFlags r;
     dshotBeaconTone := dshotBeaconTone r |}.
Definition set_dshotBeaconOffFlags (v : Z) (r : beeperConfig_t) : beeperConfig_t :=
  {| beeper_off_flags := beeper_off_flags r; dshotBeaconOffFlags := v;
     dshotBeaconTone := dshotBeaconTone r |}.
Definition set_dshotBeaconTone (v : Z) (r : beeperConfig_t) : beeperConfig_t :=
  {| beeper_off_flags := beeper_off_flags r;
     dshotBeaconOffFlags := dshotBeaconOffFlags r; dshotBeaconTone := v |}.

Record osdConfig_t := {
  timers : list Z
}.

Definition set_timers (v : list Z) (r : osdConfig_t) : osdConfig_t :=
  {| timers := v |}.

Record vtxSettingsConfig_t := {
  band : Z;
  channel : Z;
  power : Z;
  freq : Z
}.

Definition set_band (v : Z) (r : vtxSettingsConfig_t) : vtxSettingsConfig_t :=
  {| band := v; channel := channel r; power := power r; freq := freq r |}.
Definition set_channel (v : Z) (r : vtxSettingsConfig_t) : vtxSettingsConfig_t :=
  {| band := band r; channel := v; power := power r; freq := freq r |}.
Definition set_power (v : Z) (r : vtxSettingsConfig_t) : vtxSettingsConfig_t :=
  {| band := band r; channel := channel r; power := v; freq := freq r |}.
Definition set_freq (v : Z) (r : vtxSettingsConfig_t) : vtxSettingsConfig_t :=
  {| band := band r; channel := channel r; power := power r; freq := v |}.

Record vtxTableConfig_t := {
  bands : Z;
  channels : Z;
  powerLevels : Z
}.


Record throttleCorrectionConfig_t := {
  throttle_correction_angle : Z;
  throttle_correction_value : Z
}.


(** ** Types and operations owned by other modules *)

(** Types whose layout [config.c] never inspects. *)
Record externalTypes := {
  serialConfig_t : Type;          (* io/serial.h *)
  serialPortIdentifier_e : Type;
  sensor_align_e : Type;          (* common/sensor_alignment.h *)
  sensorAlignment_t : Type;
  storage_t : Type                (* the non-volatile configuration image *)
}.

Set Implicit Arguments.

Section Config.

Variable E : externalTypes.

Record compassConfig_t := {
  mag_alignment : sensor_align_e E;
  mag_customAlignment : sensorAlignment_t E
}.

Definition set_mag_customAlignment (v : sensorAlignment_t E) (r : compassConfig_t) : compassConfig_t :=
  {| mag_alignment := mag_alignment r; mag_customAlignment := v |}.

Record gyroDeviceConfig_t := {
  alignment : sensor_align_e E;
  customAlignment : sensorAlignment_t E
}.

Definition set_customAlignment (v : sensorAlignment_t E) (r : gyroDeviceConfig_t) : gyroDeviceConfig_t :=
  {| alignment := alignment r; customAlignment := v |}.

Record pgStore := {
  mixerConfig : mixerConfig_t;
  serialConfig : serialConfig_t E;
  gpsConfig : gpsConfig_t;
  featureConfig : featureConfig_t;
  pidProfiles : list pidProfile_t;
  motorConfig : motorConfig_t;
  gyroConfig : gyroConfig_t;
  pidConfig : pidConfig_t;
  blackboxConfig : blackboxConfig_t;
  systemConfig : systemConfig_t;
  compassConfig : compassConfig_t;
  gyroDeviceConfig : list gyroDeviceConfig_t;
  batteryConfig : batteryConfig_t;
  rxConfig : rxConfig_t;
  failsafeConfig : failsafeConfig_t;
  modeActivationConditions : list modeActivationCondition_t;
  beeperDevConfig : beeperDevConfig_t;
  beeperConfig : beeperConfig_t;
  osdConfig : osdConfig_t;
  vtxSettingsConfig : vtxSettingsConfig_t;
  vtxTableConfig : vtxTableConfig_t;
  throttleCorrectionConfig : throttleCorrectionConfig_t
}.

Definition mixerConfigMutable (f : mixerConfig_t -> mixerConfig_t) (r : pgStore) : pgStore :=
  {| mixerConfig := f (mixerConfig r); serialConfig := serialConfig r;
     gpsConfig := gpsConfig r; featureConfig := featureConfig r;
     pidProfiles := pidProfiles r; motorConfig := motorConfig r;
     gyroConfig := gyroConfig r; pidConfig := pidConfig r;
     blackboxConfig := blackboxConfig r; systemConfig := systemConfig r;
     compassConfig := compassConfig r; gyroDeviceConfig := gyroDeviceConfig r;
     batteryConfig := batteryConfig r; rxConfig := rxConfig r;
     failsafeConfig := failsafeConfig r;
     modeActivationConditions := modeActivationConditions r;
     beeperDevConfig := beeperDevConfig r; beeperConfig := beeperConfig r;
     osdConfig := osdConfig r; vtxSettingsConfig := vtxSettingsConfig r;
     vtxTableConfig := vtxTableConfig r;
     throttleCorrectionConfig := throttleCorrectionConfig r |}.

Definition serialConfigMutable (f : serialConfig_t E -> serialConfig_t E) (r : pgStore) : pgStore :=
  {| mixerConfig := mixerConfig r; serialConfig := f (serialConfig r);
     gpsConfig := gpsConfig r; featureConfig := featureConfig r;
     pidProfiles := pidProfiles r; motorConfig := motorConfig r;
     gyroConfig := gyroConfig r; pidConfig := pidConfig r;
     blackboxConfig := blackboxConfig r; systemConfig := systemConfig r;
     compassConfig := compassConfig r; gyroDeviceConfig := gyroDeviceConfig r;
     batteryConfig := batteryConfig r; rxConfig := rxConfig r;
     failsafeConfig := failsafeConfig r;
     modeActivationConditions := modeActivationConditions r;
     beeperDevConfig := beeperDevConfig r; beeperConfig := beeperConfig r;
     osdConfig := osdConfig r; vtxSettingsConfig := vtxSettingsConfig r;
     vtxTableConfig := vtxTableConfig r;
     throttleCorrectionConfig := throttleCorrectionConfig r |}.

Definition featureConfigMutable (f : featureConfig_t -> featureConfig_t) (r : pgStore) : pgStore :=
  {| mixerConfig := mixerConfig r; serialConfig := serialConfig r;
     gpsConfig := gpsConfig r; featureConfig := f (featureConfig r);
     pidProfiles := pidProfiles r; motorConfig := motorConfig r;
     gyroConfig := gyroConfig r; pidConfig := pidConfig r;
     blackboxConfig := blackboxConfig r; systemConfig := systemConfig r;
     compassConfig := compassConfig r; gyroDeviceConfig := gyroDeviceConfig r;
     batteryConfig := batteryConfig r; rxConfig := rxConfig r;
     failsafeConfig := failsafeConfig r;
     modeActivationConditions := modeActivationConditions r;
     beeperDevConfig := beeperDevConfig r; beeperConfig := beeperConfig r;
     osdConfig := osdConfig r; vtxSettingsConfig := vtxSettingsConfig r;
     vtxTableConfig := vtxTableConfig r;
     throttleCorrectionConfig := throttleCorrectionConfig r |}.

Definition with_pidProfiles (f : list pidProfile_t -> list pidProfile_t) (r : pgStore) : pgStore :=
  {| mixerConfig := mixerConfig r; serialConfig := serialConfig r;
     gpsConfig := gpsConfig r; featureConfig := featureConfig r;
     pidProfiles := f (pidProfiles r); motorConfig := motorConfig r;
     gyroConfig := gyroConfig r; pidConfig := pidConfig r;
     blackboxConfig := blackboxConfig r; systemConfig := systemConfig r;
     compassConfig := compassConfig r; gyroDeviceConfig := gyroDeviceConfig r;
     batteryConfig := batteryConfig r; rxConfig := rxConfig r;
     failsafeConfig := failsafeConfig r;
     modeActivationConditions := modeActivationConditions r;
     beeperDevConfig := beeperDevConfig r; beeperConfig := beeperConfig r;
     osdConfig := osdConfig r; vtxSettingsConfig := vtxSettingsConfig r;
     vtxTableConfig := vtxTableConfig r;
     throttleCorrectionConfig := throttleCorrectionConfig r |}.

Definition motorConfigMutable (f : motorConfig_t -> motorConfig_t) (r : pgStore) : pgStore :=
  {| mixerConfig := mixerConfig r; serialConfig := serialConfig r;
     gpsConfig := gpsConfig r; featureConfig := featureConfig r;
     pidProfiles := pidProfiles r; motorConfig := f (motorConfig r);
     gyroConfig := gyroConfig r; pidConfig := pidConfig r;
     blackboxConfig := blackboxConfig r; systemConfig := systemConfig r;
     compassConfig := compassConfig r; gyroDeviceConfig := gyroDeviceConfig r;
     batteryConfig := batteryConfig r; rxConfig := rxConfig r;
     failsafeConfig := failsafeConfig r;
     modeActivationConditions := modeActivationConditions r;
     beeperDevConfig := beeperDevConfig r; beeperConfig := beeperConfig r;
     osdConfig := osdConfig r; vtxSettingsConfig := vtxSettingsConfig r;
     vtxTableConfig := vtxTableConfig r;
     throttleCorrectionConfig := throttleCorrectionConfig r |}.

Definition gyroConfigMutable (f : gyroConfig_t -> gyroConfig_t) (r : pgStore) : pgStore :=
  {| mixerConfig := mixerConfig r; serialConfig := serialConfig r;
     gpsConfig := gpsConfig r; featureConfig := featureConfig r;
     pidProfiles := pidProfiles r; motorConfig := motorConfig r;
     gyroConfig := f (gyroConfig r); pidConfig := pidConfig r;
     blackboxConfig := blackboxConfig r; systemConfig := systemConfig r;
     compassConfig := compassConfig r; gyroDeviceConfig := gyroDeviceConfig r;
     batteryConfig := batteryConfig r; rxConfig := rxConfig r;
     failsafeConfig := failsafeConfig r;
     modeActivationConditions := modeActivationConditions r;
     beeperDevConfig := beeperDevConfig r; beeperConfig := beeperConfig r;
     osdConfig := osdConfig r; vtxSettingsConfig := vtxSettingsConfig r;
     vtxTableConfig := vtxTableConfig r;
     throttleCorrectionConfig := throttleCorrectionConfig r |}.

Definition pidConfigMutable (f : pidConfig_t -> pidConfig_t) (r : pgStore) : pgStore :=
  {| mixerConfig := mixerConfig r; serialConfig := serialConfig r;
     gpsConfig := gpsConfig r; featureConfig := featureConfig r;
     pidProfiles := pidProfiles r; motorConfig := motorConfig r;
     gyroConfig := gyroConfig r; pidConfig := f (pidConfig r);
     blackboxConfig := blackboxConfig r; systemConfig := systemConfig r;
     compassConfig := compassConfig r; gyroDeviceConfig := gyroDeviceConfig r;
     batteryConfig := batteryConfig r; rxConfig := rxConfig r;
     failsafeConfig := failsafeConfig r;
     modeActivationConditions := modeActivationConditions r;
     beeperDevConfig := beeperDevConfig r; beeperConfig := beeperConfig r;
     osdConfig := osdConfig r; vtxSettingsConfig := vtxSettingsConfig r;
     vtxTableConfig := vtxTableConfig r;
     throttleCorrectionConfig := throttleCorrectionConfig r |}.

Definition blackboxConfigMutable (f : blackboxConfig_t -> blackboxConfig_t) (r : pgStore) : pgStore :=
  {| mixerConfig := mixerConfig r; serialConfig := serialConfig r;
     gpsConfig := gpsConfig r; featureConfig := featureConfig r;
     pidProfiles := pidProfiles r; motorConfig := motorConfig r;
     gyroConfig := gyroConfig r; pidConfig := pidConfig r;
     blackboxConfig := f (blackboxConfig r); systemConfig := systemConfig r;
     compassConfig := compassConfig r; gyroDeviceConfig := gyroDeviceConfig r;
     batteryConfig := batteryConfig r; rxConfig := rxConfig r;
     failsafeConfig := failsafeConfig r;
     modeActivationConditions := modeActivationConditions r;
     beeperDevConfig := beeperDevConfig r; beeperConfig := beeperConfig r;
     osdConfig := osdConfig r; vtxSettingsConfig := vtxSettingsConfig r;
     vtxTableConfig := vtxTableConfig r;
     throttleCorrectionConfig := throttleCorrectionConfig r |}.

Definition systemConfigMutable (f : systemConfig_t -> systemConfig_t) (r : pgStore) : pgStore :=
  {| mixerConfig := mixerConfig r; serialConfig := serialConfig r;
     gpsConfig := gpsConfig r; featureConfig := featureConfig r;
     pidProfiles := pidProfiles r; motorConfig := motorConfig r;
     gyroConfig := gyroConfig r; pidConfig := pidConfig r;
     blackboxConfig := blackboxConfig r; systemConfig := f (systemConfig r);
     compassConfig := compassConfig r; gyroDeviceConfig := gyroDeviceConfig r;
     batteryConfig := batteryConfig r; rxConfig := rxConfig r;
     failsafeConfig := failsafeConfig r;
     modeActivationConditions := modeActivationConditions r;
     beeperDevConfig := beeperDevConfig r; beeperConfig := beeperConfig r;
     osdConfig := osdConfig r; vtxSettingsConfig := vtxSettingsConfig r;
     vtxTableConfig := vtxTableConfig r;
     throttleCorrectionConfig := throttleCorrectionConfig r |}.

Definition compassConfigMutable (f : compassConfig_t -> compassConfig_t) (r : pgStore) : pgStore :=
  {| mixerConfig := mixerConfig r; serialConfig := serialConfig r;
     gpsConfig := gpsConfig r; featureConfig := featureConfig r;
     pidProfiles := pidProfiles r; motorConfig := motorConfig r;
     gyroConfig := gyroConfig r; pidConfig := pidConfig r;
     blackboxConfig := blackboxConfig r; systemConfig := systemConfig r;
     compassConfig := f (compassConfig r); gyroDeviceConfig := gyroDeviceConfig r;
     batteryConfig := batteryConfig r; rxConfig := rxConfig r;
     failsafeConfig := failsafeConfig r;
     modeActivationConditions := modeActivationConditions r;
     beeperDevConfig := beeperDevConfig r; beeperConfig := beeperConfig r;
     osdConfig := osdConfig r; vtxSettingsConfig := vtxSettingsConfig r;
     vtxTableConfig := vtxTableConfig r;
     throttleCorrectionConfig := throttleCorrectionConfig r |}.

Definition with_gyroDeviceConfig (f : list gyroDeviceConfig_t -> list gyroDeviceConfig_t) (r : pgStore) : pgStore :=
  {| mixerConfig := mixerConfig r; serialConfig := serialConfig r;
     gpsConfig := gpsConfig r; featureConfig := featureConfig r;
     pidProfiles := pidProfiles r; motorConfig := motorConfig r;
     gyroConfig := gyroConfig r; pidConfig := pidConfig r;
     blackboxConfig := blackboxConfig r; systemConfig := systemConfig r;
     compassConfig := compassConfig r; gyroDeviceConfig := f (gyroDeviceConfig r);
     batteryConfig := batteryConfig r; rxConfig := rxConfig r;
     failsafeConfig := failsafeConfig r;
     modeActivationConditions := modeActivationConditions r;
     beeperDevConfig := beeperDevConfig r; beeperConfig := beeperConfig r;
     osdConfig := osdConfig r; vtxSettingsConfig := vtxSettingsConfig r;
     vtxTableConfig := vtxTableConfig r;
     throttleCorrectionConfig := throttleCorrectionConfig r |}.

Definition batteryConfigMutable (f : batteryConfig_t -> batteryConfig_t) (r : pgStore) : pgStore :=
  {| mixerConfig := mixerConfig r; serialConfig := serialConfig r;
     gpsConfig := gpsConfig r; featureConfig := featureConfig r;
     pidProfiles := pidProfiles r; motorConfig := motorConfig r;
     gyroConfig := gyroConfig r; pidConfig := pidConfig r;
     blackboxConfig := blackboxConfig r; systemConfig := systemConfig r;
     compassConfig := compassConfig r; gyroDeviceConfig := gyroDeviceConfig r;
     batteryConfig := f (batteryConfig r); rxConfig := rxConfig r;
     failsafeConfig := failsafeConfig r;
     modeActivationConditions := modeActivationConditions r;
     beeperDevConfig := beeperDevConfig r; beeperConfig := beeperConfig r;
     osdConfig := osdConfig r; vtxSettingsConfig := vtxSettingsConfig r;
     vtxTableConfig := vtxTableConfig r;
     throttleCorrectionConfig := throttleCorrectionConfig r |}.

Definition rxConfigMutable (f : rxConfig_t -> rxConfig_t) (r : pgStore) : pgStore :=
  {| mixerConfig := mixerConfig r; serialConfig := serialConfig r;
     gpsConfig := gpsConfig r; featureConfig := featureConfig r;
     pidProfiles := pidProfiles r; motorConfig := motorConfig r;
     gyroConfig := gyroConfig r; pidConfig := pidConfig r;
     blackboxConfig := blackboxConfig r; systemConfig := systemConfig r;
     compassConfig := compassConfig r; gyroDeviceConfig := gyroDeviceConfig r;
     batteryConfig := batteryConfig r; rxConfig := f (rxConfig r);
     failsafeConfig := failsafeConfig r;
     modeActivationConditions := modeActivationConditions r;
     beeperDevConfig := beeperDevConfig r; beeperConfig := beeperConfig r;
     osdConfig := osdConfig r; vtxSettingsConfig := vtxSettingsConfig r;
     vtxTableConfig := vtxTableConfig r;
     throttleCorrectionConfig := throttleCorrectionConfig r |}.

Definition failsafeConfigMutable (f : failsafeConfig_t -> failsafeConfig_t) (r : pgStore) : pgStore :=
  {| mixerConfig := mixerConfig r; serialConfig := serialConfig r;
     gpsConfig := gpsConfig r; featureConfig := featureConfig r;
     pidProfiles := pidProfiles r; motorConfig := motorConfig r;
     gyroConfig := gyroConfig r; pidConfig := pidConfig r;
     blackboxConfig := blackboxConfig r; systemConfig := systemConfig r;
     compassConfig := compassConfig r; gyroDeviceConfig := gyroDeviceConfig r;
     batteryConfig := batteryConfig r; rxConfig := rxConfig r;
     failsafeConfig := f (failsafeConfig r);
     modeActivationConditions := modeActivationConditions r;
     beeperDevConfig := beeperDevConfig r; beeperConfig := beeperConfig r;
     osdConfig := osdConfig r; vtxSettingsConfig := vtxSettingsConfig r;
     vtxTableConfig := vtxTableConfig r;
     throttleCorrectionConfig := throttleCorrectionConfig r |}.

Definition with_modeActivationConditions (f : list modeActivationCondition_t -> list modeActivationCondition_t) (r : pgStore) : pgStore :=
  {| mixerConfig := mixerConfig r; serialConfig := serialConfig r;
     gpsConfig := gpsConfig r; featureConfig := featureConfig r;
     pidProfiles := pidProfiles r; motorConfig := motorConfig r;
     gyroConfig := gyroConfig r; pidConfig := pidConfig r;
     blackboxConfig := blackboxConfig r; systemConfig := systemConfig r;
     compassConfig := compassConfig r; gyroDeviceConfig := gyroDeviceConfig r;
     batteryConfig := batteryConfig r; rxConfig := rxConfig r;
     failsafeConfig := failsafeConfig r;
     modeActivationConditions := f (modeActivationConditions r);
     beeperDevConfig := beeperDevConfig r; beeperConfig := beeperConfig r;
     osdConfig := osdConfig r; vtxSettingsConfig := vtxSettingsConfig r;
     vtxTableConfig := vtxTableConfig r;
     throttleCorrectionConfig := throttleCorrectionConfig r |}.

Definition beeperDevConfigMutable (f : beeperDevConfig_t -> beeperDevConfig_t) (r : pgStore) : pgStore :=
  {| mixerConfig := mixerConfig r; serialConfig := serialConfig r;
     gpsConfig := gpsConfig r; featureConfig := featureConfig r;
     pidProfiles := pidProfiles r; motorConfig := motorConfig r;
     gyroConfig := gyroConfig r; pidConfig := pidConfig r;
     blackboxConfig := blackboxConfig r; systemConfig := systemConfig r;
     compassConfig := compassConfig r; gyroDeviceConfig := gyroDeviceConfig r;
     batteryConfig := batteryConfig r; rxConfig := rxConfig r;
     failsafeConfig := failsafeConfig r;
     modeActivationConditions := modeActivationConditions r;
     beeperDevConfig := f (beeperDevConfig r); beeperConfig := beeperConfig r;
     osdConfig := osdConfig r; vtxSettingsConfig := vtxSettingsConfig r;
     vtxTableConfig := vtxTableConfig r;
     throttleCorrectionConfig := throttleCorrectionConfig r |}.

Definition beeperConfigMutable (f : beeperConfig_t -> beeperConfig_t) (r : pgStore) : pgStore :=
  {| mixerConfig := mixerConfig r; serialConfig := serialConfig r;
     gpsConfig := gpsConfig r; featureConfig := featureConfig r;
     pidProfiles := pidProfiles r; motorConfig := motorConfig r;
     gyroConfig := gyroConfig r; pidConfig := pidConfig r;
     blackboxConfig := blackboxConfig r; systemConfig := systemConfig r;
     compassConfig := compassConfig r; gyroDeviceConfig := gyroDeviceConfig r;
     batteryConfig := batteryConfig r; rxConfig := rxConfig r;
     failsafeConfig := failsafeConfig r;
     modeActivationConditions := modeActivationConditions r;
     beeperDevConfig := beeperDevConfig r; beeperConfig := f (beeperConfig r);
     osdConfig := osdConfig r; vtxSettingsConfig := vtxSettingsConfig r;
     vtxTableConfig := vtxTableConfig r;
     throttleCorrectionConfig := throttleCorrectionConfig r |}.

Definition osdConfigMutable (f : osdConfig_t -> osdConfig_t) (r : pgStore) : pgStore :=
  {| mixerConfig := mixerConfig r; serialConfig := serialConfig r;
     gpsConfig := gpsConfig r; featureConfig := featureConfig r;
     pidProfiles := pidProfiles r; motorConfig := motorConfig r;
     gyroConfig := gyroConfig r; pidConfig := pidConfig r;
     blackboxConfig := blackboxConfig r; systemConfig := systemConfig r;
     compassConfig := compassConfig r; gyroDeviceConfig := gyroDeviceConfig r;
     batteryConfig := batteryConfig r; rxConfig := rxConfig r;
     failsafeConfig := failsafeConfig r;
     modeActivationConditions := modeActivationConditions r;
     beeperDevConfig := beeperDevConfig r; beeperConfig := beeperConfig r;
     osdConfig := f (osdConfig r); vtxSettingsConfig := vtxSettingsConfig r;
     vtxTableConfig := vtxTableConfig r;
     throttleCorrectionConfig := throttleCorrectionConfig r |}.

Definition vtxSettingsConfigMutable (f : vtxSettingsConfig_t -> vtxSettingsConfig_t) (r : pgStore) : pgStore :=
  {| mixerConfig := mixerConfig r; serialConfig := serialConfig r;
     gpsConfig := gpsConfig r; featureConfig := featureConfig r;
     pidProfiles := pidProfiles r; motorConfig := motorConfig r;
     gyroConfig := gyroConfig r; pidConfig := pidConfig r;
     blackboxConfig := blackboxConfig r; systemConfig := systemConfig r;
     compassConfig := compassConfig r; gyroDeviceConfig := gyroDeviceConfig r;
     batteryConfig := batteryConfig r; rxConfig := rxConfig r;
     failsafeConfig := failsafeConfig r;
     modeActivationConditions := modeActivationConditions r;
     beeperDevConfig := beeperDevConfig r; beeperConfig := beeperConfig r;
     osdConfig := osdConfig r; vtxSettingsConfig := f (vtxSettingsConfig r);
     vtxTableConfig := vtxTableConfig r;
     throttleCorrectionConfig := throttleCorrectionConfig r |}.


(** Functions, macros and tables of other modules that [config.c] calls.  A
    function that mutates a parameter group is a function on that group. *)
Record collaborators := {
  (* io/serial.c *)
  isSerialConfigValid : serialConfig_t E -> bool;
  pgResetFn_serialConfig : serialConfig_t E -> serialConfig_t E;
  findSerialPortConfig :
    serialPortFunction_e -> serialConfig_t E -> option (serialPortIdentifier_e E);
  serialRemovePort : serialPortIdentifier_e E -> serialConfig_t E -> serialConfig_t E;
  (* flight/mixer.c and flight/servos.c: the tables mixers[] and servoMixers[] *)
  mixers_motorCount : mixerMode_e -> Z;
  mixers_motor_is_NULL : mixerMode_e -> bool;
  mixers_useServo : mixerMode_e -> bool;
  servoMixers_servoRuleCount : mixerMode_e -> Z;
  (* common/sensor_alignment.c *)
  buildAlignmentFromStandardAlignment :
    sensorAlignment_t E -> sensor_align_e E -> sensorAlignment_t E;
  (* fc/rc.c *)
  rcSmoothingIsEnabled : rxConfig_t -> bool;
  (* fc/rc_modes.c *)
  isModeActivationConditionPresent : Z -> list modeActivationCondition_t -> bool;
  removeModeActivationCondition :
    Z -> list modeActivationCondition_t -> list modeActivationCondition_t;
  isModeActivationConditionLinked : Z -> list modeActivationCondition_t -> bool;
  (* drivers/timer.c: whether timerGetByTag returns a timer *)
  timerGetByTag : Z -> bool;
  (* osd/osd.h *)
  OSD_TIMER_SRC : Z -> Z;
  OSD_TIMER_PRECISION : Z -> Z;
  osdTimerDefault : nat -> Z;
  (* common/maths.h *)
  HZ_TO_INTERVAL_US : Z -> Z;
  (* target code *)
  targetConfiguration : pgStore -> pgStore;
  targetValidateConfiguration : pgStore -> pgStore;
  (* pg/pg.c, cli/cli.c, config/config_eeprom.c *)
  pgResetAll : pgStore -> pgStore;
  resetConfigToCustomDefaults : pgStore -> bool * pgStore;
  loadEEPROM : storage_t E -> pgStore -> bool * pgStore;
  writeConfigToEEPROM : pgStore -> storage_t E -> storage_t E;
  isEEPROMStructureValid : storage_t E -> bool
}.

(** ** Calls into other subsystems

    A call whose effect lies outside the configuration is recorded, with its
    arguments, in the order it is made. *)
Inductive event :=
| Ev_schedulerOptimizeRate (optimizeRate : bool)
| Ev_initRcProcessing
| Ev_activeAdjustmentRangeReset
| Ev_pidInit (slot : nat)
| Ev_rcControlsInit
| Ev_failsafeReset
| Ev_setAccelerationTrims
| Ev_accInitFilters
| Ev_imuConfigure (throttle_correction_angle throttle_correction_value : Z)
| Ev_reevaluateLedConfig
| Ev_initEscEndpoints
| Ev_beeperConfirmationBeeps (beepCount : Z)
| Ev_suspendRxPwmPpmSignal
| Ev_resumeRxPwmPpmSignal
| Ev_loadEEPROM (success : bool)
| Ev_writeConfigToEEPROM.

(** ** The state of the module

    [pg] is the parameter-group store; [currentPidProfile] and
    [currentControlRateProfile] are the two active-profile pointers;
    [gyro_targetLooptime] and [gyroMpuDetectionResult_sensor] are run-time
    values of the gyro driver that validation reads; [rxSignalSuspended]
    counts outstanding suspensions of receiver-signal sampling. *)
Record world := {
  pg : pgStore;
  currentPidProfile : nat;
  currentControlRateProfile : nat;
  gyro_targetLooptime : Z;
  gyroMpuDetectionResult_sensor : mpuSensor_e;
  configIsDirty : bool;
  rebootRequired : bool;
  armingDisableFlags : gset armingDisableFlags_e;
  rxSignalSuspended : Z;
  eeprom : storage_t E;
  trace : list event
}.

Definition with_pg (f : pgStore -> pgStore) (r : world) : world :=
  {| pg := f (pg r); currentPidProfile := currentPidProfile r;
     currentControlRateProfile := currentControlRateProfile r;
     gyro_targetLooptime := gyro_targetLooptime r;
     gyroMpuDetectionResult_sensor := gyroMpuDetectionResult_sensor r;
     configIsDirty := configIsDirty r; rebootRequired := rebootRequired r;
     armingDisableFlags := armingDisableFlags r;
     rxSignalSuspended := rxSignalSuspended r; eeprom := eeprom r; trace := trace r |}.
Definition with_currentPidProfile (f : nat -> nat) (r : world) : world :=
  {| pg := pg r; currentPidProfile := f (currentPidProfile r);
     currentControlRateProfile := currentControlRateProfile r;
     gyro_targetLooptime := gyro_targetLooptime r;
     gyroMpuDetectionResult_sensor := gyroMpuDetectionResult_sensor r;
     configIsDirty := configIsDirty r; rebootRequired := rebootRequired r;
     armingDisableFlags := armingDisableFlags r;
     rxSignalSuspended := rxSignalSuspended r; eeprom := eeprom r; trace := trace r |}.
Definition with_currentControlRateProfile (f : nat -> nat) (r : world) : world :=
  {| pg := pg r; currentPidProfile := currentPidProfile r;
     currentControlRateProfile := f (currentControlRateProfile r);
     gyro_targetLooptime := gyro_targetLooptime r;
     gyroMpuDetectionResult_sensor := gyroMpuDetectionResult_sensor r;
     configIsDirty := configIsDirty r; rebootRequired := rebootRequired r;
     armingDisableFlags := armingDisableFlags r;
     rxSignalSuspended := rxSignalSuspended r; eeprom := eeprom r; trace := trace r |}.
Definition with_configIsDirty (f : bool -> bool) (r : world) : world :=
  {| pg := pg r; currentPidProfile := currentPidProfile r;
     currentControlRateProfile := currentControlRateProfile r;
     gyro_targetLooptime := gyro_targetLooptime r;
     gyroMpuDetectionResult_sensor := gyroMpuDetectionResult_sensor r;
     configIsDirty := f (configIsDirty r); rebootRequired := rebootRequired r;
     armingDisableFlags := armingDisableFlags r;
     rxSignalSuspended := rxSignalSuspended r; eeprom := eeprom r; trace := trace r |}.
Definition with_rebootRequired (f : bool -> bool) (r : world) : world :=
  {| pg := pg r; currentPidProfile := currentPidProfile r;
     currentControlRateProfile := currentControlRateProfile r;
     gyro_targetLooptime := gyro_targetLooptime r;
     gyroMpuDetectionResult_sensor := gyroMpuDetectionResult_sensor r;
     configIsDirty := configIsDirty r; rebootRequired := f (rebootRequired r);
     armingDisableFlags := armingDisableFlags r;
     rxSignalSuspended := rxSignalSuspended r; eeprom := eeprom r; trace := trace r |}.
Definition with_armingDisableFlags (f : gset armingDisableFlags_e -> gset armingDisableFlags_e) (r : world) : world :=
  {| pg := pg r; currentPidProfile := currentPidProfile r;
     currentControlRateProfile := currentControlRateProfile r;
     gyro_targetLooptime := gyro_targetLooptime r;
     gyroMpuDetectionResult_sensor := gyroMpuDetectionResult_sensor r;
     configIsDirty := configIsDirty r; rebootRequired := rebootRequired r;
     armingDisableFlags := f (armingDisableFlags r);
     rxSignalSuspended := rxSignalSuspended r; eeprom := eeprom r; trace := trace r |}.
Definition with_rxSignalSuspended (f : Z -> Z) (r : world) : world :=
  {| pg := pg r; currentPidProfile := currentPidProfile r;
     currentControlRateProfile := currentControlRateProfile r;
     gyro_targetLooptime := gyro_targetLooptime r;
     gyroMpuDetectionResult_sensor := gyroMpuDetectionResult_sensor r;
     configIsDirty := configIsDirty r; rebootRequired := rebootRequired r;
     armingDisableFlags := armingDisableFlags r;
     rxSignalSuspended := f (rxSignalSuspended r); eeprom := eeprom r; trace := trace r |}.
Definition with_eeprom (f : storage_t E -> storage_t E) (r : world) : world :=
  {| pg := pg r; currentPidProfile := currentPidProfile r;
     currentControlRateProfile := currentControlRateProfile r;
     gyro_targetLooptime := gyro_targetLooptime r;
     gyroMpuDetectionResult_sensor := gyroMpuDetectionResult_sensor r;
     configIsDirty := configIsDirty r; rebootRequired := rebootRequired r;
     armingDisableFlags := armingDisableFlags r;
     rxSignalSuspended := rxSignalSuspended r; eeprom := f (eeprom r); trace := trace r |}.
Definition with_trace (f : list event -> list event) (r : world) : world :=
  {| pg := pg r; currentPidProfile := currentPidProfile r;
     currentControlRateProfile := currentControlRateProfile r;
     gyro_targetLooptime := gyro_targetLooptime r;
     gyroMpuDetectionResult_sensor := gyroMpuDetectionResult_sensor r;
     configIsDirty := configIsDirty r; rebootRequired := rebootRequired r;
     armingDisableFlags := armingDisableFlags r;
     rxSignalSuspended := rxSignalSuspended r; eeprom := eeprom r; trace := f (trace r) |}.

Variable X : collaborators.
Variable T : target.

(** ** Accessors of the array parameter groups *)

(** [pidProfilesMutable(i)->... = ...]: update slot [i] in place. *)
Definition pidProfilesMutable (i : nat) (f : pidProfile_t -> pidProfile_t) : pgStore -> pgStore :=
  with_pidProfiles (alter f i).

Definition gyroDeviceConfigMutable (i : nat) (f : gyroDeviceConfig_t -> gyroDeviceConfig_t)
  : pgStore -> pgStore :=
  with_gyroDeviceConfig (alter f i).

(** [for (i = 0; i < n; i++) body(i)] on a state. *)
Definition for_loop {S : Type} (n : nat) (body : nat -> S -> S) (s : S) : S :=
  foldl (λ s i, body i s) s (seq 0 n).

(** ** Feature flags *)

(** Modelled from the spec: config/feature.c is not among the sources.  The
    spec's data model makes the feature mask one bitset, and its interface
    section lists the four operations on it: test, enable, disable and disable
    all.  [featureIsEnabled mask] holds when some flag of [mask] is set. *)
Definition featureIsEnabled (mask : featureMask) (s : pgStore) : bool :=
  bool_decide (enabledFeatures (featureConfig s) ∩ mask ≠ ∅).

(** Modelled from the spec: see [featureIsEnabled]. *)
Definition featureEnable (mask : featureMask) : pgStore -> pgStore :=
  featureConfigMutable (λ c, set_enabledFeatures (enabledFeatures c ∪ mask) c).

(** Modelled from the spec: see [featureIsEnabled]. *)
Definition featureDisable (mask : featureMask) : pgStore -> pgStore :=
  featureConfigMutable (λ c, set_enabledFeatures (enabledFeatures c ∖ mask) c).

(** Modelled from the spec: see [featureIsEnabled]. *)
Definition featureDisableAll : pgStore -> pgStore :=
  featureConfigMutable (set_enabledFeatures ∅).

(** ** Small accessors (config.c lines 119-146) *)

Definition getCurrentPidProfileIndex (w : world) : nat :=
  pidProfileIndex (systemConfig (pg w)).

Definition loadPidProfile (w : world) : world :=
  with_currentPidProfile (λ _, pidProfileIndex (systemConfig (pg w))) w.

(** Modelled from the spec: fc/controlrate_profile.c is not among the sources;
    the spec has [loadControlRateProfile] repoint the current rate-profile
    handle at the slot selected by [activeRateProfile]. *)
Definition loadControlRateProfile (w : world) : world :=
  with_currentControlRateProfile (λ _, activeRateProfile (systemConfig (pg w))) w.

Definition getCurrentControlRateProfileIndex (w : world) : nat :=
  activeRateProfile (systemConfig (pg w)).

Definition getCurrentMinthrottle (w : world) : Z :=
  minthrottle (motorConfig (pg w)).

Definition resetConfig (w : world) : world :=
  let w := with_pg (pgResetAll X) w in
  if USE_TARGET_CONFIG T then with_pg (targetConfiguration X) w else w.

(** ** Activation (lines 148-173) *)

Definition emit (e : event) : world -> world := with_trace (λ t, t ++ [e]).

Definition activateConfig (w : world) : world :=
  let w := emit (Ev_schedulerOptimizeRate
      (bool_decide (schedulerOptimizeRate (systemConfig (pg w)) = SCHEDULER_OPTIMIZE_RATE_ON)
       || (bool_decide (schedulerOptimizeRate (systemConfig (pg w)) = SCHEDULER_OPTIMIZE_RATE_AUTO)
           && useDshotTelemetry (dev (motorConfig (pg w)))))) w in
  let w := loadPidProfile w in
  let w := loadControlRateProfile w in
  let w := emit Ev_initRcProcessing w in
  let w := emit Ev_activeAdjustmentRangeReset w in
  let w := emit (Ev_pidInit (currentPidProfile w)) w in
  let w := emit Ev_rcControlsInit w in
  let w := emit Ev_failsafeReset w in
  let w := if USE_ACC T
           then emit Ev_accInitFilters (emit Ev_setAccelerationTrims w) else w in
  let w := emit (Ev_imuConfigure
      (throttle_correction_angle (throttleCorrectionConfig (pg w)))
      (throttle_correction_value (throttleCorrectionConfig (pg w)))) w in
  if USE_LED_STRIP_STATUS_MODE T then emit Ev_reevaluateLedConfig w else w.

(** ** The rule evaluator (lines 175-550) *)

(** [adjustFilterLimit(&parm, resetValue)]: the new value of [*parm]. *)
Definition adjustFilterLimit (parm resetValue : Z) : Z :=
  if parm >? FILTER_FREQUENCY_MAX T then resetValue else parm.

(** Lines 184-199. *)
Definition fixMixerMode (s : pgStore) : pgStore :=
  if USE_QUAD_MIXER_ONLY T then s else
  let mixerMode := mixerMode (mixerConfig s) in
  if negb (bool_decide (mixerMode = MIXER_CUSTOM)
           || bool_decide (mixerMode = MIXER_CUSTOM_AIRPLANE)
           || bool_decide (mixerMode = MIXER_CUSTOM_TRI))
  then
    let s := if bool_decide (mixers_motorCount X mixerMode ≠ 0)
                && mixers_motor_is_NULL X mixerMode
             then mixerConfigMutable (set_mixerMode MIXER_CUSTOM) s else s in
    if USE_SERVOS T && (mixers_useServo X mixerMode
                        && bool_decide (servoMixers_servoRuleCount X mixerMode = 0))
    then mixerConfigMutable (set_mixerMode MIXER_CUSTOM_AIRPLANE) s else s
  else s.

(** Lines 201-203. *)
Definition fixSerialConfig (s : pgStore) : pgStore :=
  if negb (isSerialConfigValid X (serialConfig s))
  then serialConfigMutable (pgResetFn_serialConfig X) s else s.

(** Lines 205-217.  [gpsSerial] is looked up once, before the port is removed. *)
Definition fixGpsSerial (s : pgStore) : pgStore :=
  let gpsSerial := findSerialPortConfig X FUNCTION_GPS (serialConfig s) in
  let s := if USE_GPS T then
             match gpsSerial with
             | Some port =>
                 if bool_decide (provider (gpsConfig s) = GPS_MSP)
                 then serialConfigMutable (serialRemovePort X port) s else s
             | None => s
             end
           else s in
  if (if USE_GPS T
      then bool_decide (provider (gpsConfig s) ≠ GPS_MSP) && bool_decide (gpsSerial = None)
      else true)
  then featureDisable {[ FEATURE_GPS ]} s else s.

(** Lines 248-252, for one axis of one profile. *)
Definition fixDMin (axis : nat) (p : pidProfile_t) : pidProfile_t :=
  match d_min p !! axis, pid p !! axis with
  | Some dm, Some g => if dm >=? D g then set_d_min (<[axis := 0]> (d_min p)) p else p
  | _, _ => p
  end.

(** Lines 222-230: D-term filter cutoffs of one profile. *)
Definition fixDtermFilters (p : pidProfile_t) : pidProfile_t :=
  let p := set_dterm_lowpass_hz
             (adjustFilterLimit (dterm_lowpass_hz p) (FILTER_FREQUENCY_MAX T)) p in
  let p := set_dterm_lowpass2_hz
             (adjustFilterLimit (dterm_lowpass2_hz p) (FILTER_FREQUENCY_MAX T)) p in
  let p := set_dterm_notch_hz
             (adjustFilterLimit (dterm_notch_hz p) (FILTER_FREQUENCY_MAX T)) p in
  let p := set_dterm_notch_cutoff (adjustFilterLimit (dterm_notch_cutoff p) 0) p in
  if dterm_notch_cutoff p >=? dterm_notch_hz p then set_dterm_notch_hz 0 p else p.

(** Lines 232-245: dynamic lowpass, motor output limit and cell-count tag of
    one profile. *)
Definition fixProfileLimits (p : pidProfile_t) : pidProfile_t :=
  let p := if USE_DYN_LPF T && (dyn_lpf_dterm_min_hz p >? dyn_lpf_dterm_max_hz p)
           then set_dyn_lpf_dterm_min_hz 0 p else p in
  let p := if (motor_output_limit p >? 100) || (motor_output_limit p =? 0)
           then set_motor_output_limit 100 p else p in
  if (auto_profile_cell_count p >? MAX_AUTO_DETECT_CELL_COUNT T)
     || (auto_profile_cell_count p <? AUTO_PROFILE_CELL_COUNT_CHANGE T)
  then set_auto_profile_cell_count (AUTO_PROFILE_CELL_COUNT_STAY T) p else p.

(** Lines 220-252: the body of the loop over the PID profiles. *)
Definition fixPidProfile (p : pidProfile_t) : pidProfile_t :=
  let p := fixDtermFilters p in
  let p := fixProfileLimits p in
  for_loop (S FD_YAW) fixDMin p.

(** Lines 219-253. *)
Definition fixPidProfiles (s : pgStore) : pgStore :=
  for_loop (PID_PROFILE_COUNT T) (λ i, pidProfilesMutable i fixPidProfile) s.

(** Lines 255-265. *)
Definition fixMotorConfig (s : pgStore) : pgStore :=
  let s := if bool_decide (motorPwmProtocol (dev (motorConfig s)) = PWM_TYPE_BRUSHED) then
             let s := featureDisable {[ FEATURE_3D ]} s in
             if mincommand (motorConfig s) <? 1000
             then motorConfigMutable (set_mincommand 1000) s else s
           else s in
  if bool_decide (motorPwmProtocol (dev (motorConfig s)) = PWM_TYPE_STANDARD)
     && (motorPwmRate (dev (motorConfig s)) >? BRUSHLESS_MOTORS_PWM_RATE T)
  then motorConfigMutable (with_dev (set_motorPwmRate (BRUSHLESS_MOTORS_PWM_RATE T))) s
  else s.

(** ** The timing resolver (lines 552-679) *)

(** [x < y] on the rationals standing for C's [float]. *)
Definition Qltb (x y : Q) : bool := negb (Qle_bool y x).

(** Conversion of a [float] to [int]: truncation toward zero. *)
Definition float_to_int (q : Q) : Z := Z.quot (Qnum q) (Z.pos (Qden q)).

(** [(int)(a / b)] for [a > 0]: a zero divisor makes the quotient +infinity. *)
Definition float_div_to_int (a b : Q) : Z :=
  if Qeq_bool b 0 then FLOAT_TO_INT_OVERFLOW T else float_to_int (a / b).

(** [lrintf]: round to the nearest integer, ties to even. *)
Definition lrintf (q : Q) : Z :=
  let f := Qfloor q in
  let d := (q - inject_Z f)%Q in
  if Qltb d (1 # 2) then f
  else if Qltb (1 # 2) d then f + 1
  else if Z.even f then f else f + 1.

(** [constrain] of common/maths.h, on [int]. *)
Definition constrain (amt low high : Z) : Z :=
  if amt <? low then low else if amt >? high then high else amt.

Definition DYNAMIC_FILTER_MAX_SUPPORTED_LOOP_TIME : Z := HZ_TO_INTERVAL_US X 2000.

(** Lines 554-559. *)
Definition fixDynamicFilter (targetLooptime : Z) (s : pgStore) : pgStore :=
  if USE_GYRO_DATA_ANALYSE T && (targetLooptime >? DYNAMIC_FILTER_MAX_SUPPORTED_LOOP_TIME)
  then featureDisable {[ FEATURE_DYNAMIC_FILTER ]} s else s.

(** Lines 563-582. *)
Definition fixGyroFilters (g : gyroConfig_t) : gyroConfig_t :=
  let g := set_gyro_lowpass_hz
             (adjustFilterLimit (gyro_lowpass_hz g) (FILTER_FREQUENCY_MAX T)) g in
  let g := set_gyro_lowpass2_hz
             (adjustFilterLimit (gyro_lowpass2_hz g) (FILTER_FREQUENCY_MAX T)) g in
  let g := set_gyro_soft_notch_hz_1
             (adjustFilterLimit (gyro_soft_notch_hz_1 g) (FILTER_FREQUENCY_MAX T)) g in
  let g := set_gyro_soft_notch_cutoff_1
             (adjustFilterLimit (gyro_soft_notch_cutoff_1 g) 0) g in
  let g := set_gyro_soft_notch_hz_2
             (adjustFilterLimit (gyro_soft_notch_hz_2 g) (FILTER_FREQUENCY_MAX T)) g in
  let g := set_gyro_soft_notch_cutoff_2
             (adjustFilterLimit (gyro_soft_notch_cutoff_2 g) 0) g in
  let g := if gyro_soft_notch_cutoff_1 g >=? gyro_soft_notch_hz_1 g
           then set_gyro_soft_notch_hz_1 0 g else g in
  let g := if gyro_soft_notch_cutoff_2 g >=? gyro_soft_notch_hz_2 g
           then set_gyro_soft_notch_hz_2 0 g else g in
  if USE_DYN_LPF T && (dyn_lpf_gyro_min_hz g >? dyn_lpf_gyro_max_hz g)
  then set_dyn_lpf_gyro_min_hz 0 g else g.

(** Lines 584-591. *)
Definition fixSyncDenominators (s : pgStore) : pgStore :=
  let s := if bool_decide (gyro_hardware_lpf (gyroConfig s) = GYRO_HARDWARE_LPF_1KHZ_SAMPLE)
           then gyroConfigMutable (set_gyro_sync_denom 1)
                  (pidConfigMutable (set_pid_process_denom 1) s)
           else s in
  if STM32F1 T
  then gyroConfigMutable (λ g, set_gyro_sync_denom (Z.max (gyro_sync_denom g) 3) g) s
  else s.

(** Lines 593-614: the gyro sampling interval, in seconds. *)
Definition samplingTime (sensor : mpuSensor_e) (lpf : gyroHardwareLpf_e) : Q :=
  let samplingTime :=
    match sensor with
    | ICM_20649_SPI => (1 / 9000)%Q
    | BMI_160_SPI => (3125 # 10000000)%Q     (* 0.0003125f *)
    | _ => (125 # 1000000)%Q                 (* 0.000125f *)
    end in
  if bool_decide (lpf = GYRO_HARDWARE_LPF_1KHZ_SAMPLE) then
    match sensor with
    | ICM_20649_SPI => (1 / 1100)%Q
    | _ => (1 # 1000)%Q                      (* 0.001f *)
    end
  else samplingTime.

(** Lines 617-640: the shortest update interval the motor protocol allows, in
    seconds. *)
Definition motorUpdateRestriction (protocol : motorPwmProtocolTypes_e) : Q :=
  match protocol with
  | PWM_TYPE_STANDARD => (1 / inject_Z (BRUSHLESS_MOTORS_PWM_RATE T))%Q
  | PWM_TYPE_ONESHOT125 => (5 # 10000)%Q     (* 0.0005f *)
  | PWM_TYPE_ONESHOT42 => (1 # 10000)%Q      (* 0.0001f *)
  | PWM_TYPE_DSHOT150 =>
      if USE_DSHOT T then (250 # 1000000)%Q  (* 0.000250f *)
      else (3125 # 100000000)%Q
  | PWM_TYPE_DSHOT300 =>
      if USE_DSHOT T then (1 # 10000)%Q      (* 0.0001f *)
      else (3125 # 100000000)%Q
  | _ => (3125 # 100000000)%Q                (* 0.00003125f *)
  end.

(** Lines 642-654. *)
Definition fixLoopTime (sensor : mpuSensor_e) (s : pgStore) : pgStore :=
  let samplingTime := samplingTime sensor (gyro_hardware_lpf (gyroConfig s)) in
  let motorUpdateRestriction :=
    motorUpdateRestriction (motorPwmProtocol (dev (motorConfig s))) in
  if useUnsyncedPwm (dev (motorConfig s)) then
    if (PWM_TYPE_index (motorPwmProtocol (dev (motorConfig s)))
          <=? PWM_TYPE_index PWM_TYPE_BRUSHED)
       && bool_decide (motorPwmProtocol (dev (motorConfig s)) ≠ PWM_TYPE_STANDARD)
    then
      let maxEscRate := lrintf (1 / motorUpdateRestriction) in
      motorConfigMutable
        (with_dev (λ d, set_motorPwmRate (Z.min (motorPwmRate d) maxEscRate) d)) s
    else s
  else
    let pidLooptime :=
      (samplingTime * inject_Z (gyro_sync_denom (gyroConfig s))
                    * inject_Z (pid_process_denom (pidConfig s)))%Q in
    if Qltb pidLooptime motorUpdateRestriction then
      let minPidProcessDenom :=
        constrain
          (float_div_to_int motorUpdateRestriction
             (samplingTime * inject_Z (gyro_sync_denom (gyroConfig s)))%Q)
          1 (MAX_PID_PROCESS_DENOM T) in
      pidConfigMutable
        (λ c, set_pid_process_denom (Z.max (pid_process_denom c) minPidProcessDenom) c) s
    else s.

(** Lines 656-668. *)
Definition fixBlackboxDevice (s : pgStore) : pgStore :=
  if USE_BLACKBOX T then
    let s := if negb (USE_FLASHFS T) && (device (blackboxConfig s) =? 1)
             then blackboxConfigMutable (set_device (BLACKBOX_DEVICE_NONE T)) s else s in
    if negb (USE_SDCARD T) && (device (blackboxConfig s) =? 2)
    then blackboxConfigMutable (set_device (BLACKBOX_DEVICE_NONE T)) s else s
  else s.

(** Lines 670-672. *)
Definition fixActiveRateProfile (s : pgStore) : pgStore :=
  if bool_decide (CONTROL_RATE_PROFILE_COUNT T ≤ activeRateProfile (systemConfig s))%nat
  then systemConfigMutable (set_activeRateProfile 0%nat) s else s.

(** Lines 675-677. *)
Definition fixPidProfileIndex (s : pgStore) : pgStore :=
  if bool_decide (PID_PROFILE_COUNT T ≤ pidProfileIndex (systemConfig s))%nat
  then systemConfigMutable (set_pidProfileIndex 0%nat) s else s.

Definition validateAndFixGyroConfig (w : world) : world :=
  let w := with_pg (fixDynamicFilter (gyro_targetLooptime w)) w in
  let w := with_pg (gyroConfigMutable fixGyroFilters) w in
  let w := with_pg fixSyncDenominators w in
  let w := with_pg (fixLoopTime (gyroMpuDetectionResult_sensor w)) w in
  let w := with_pg fixBlackboxDevice w in
  let w := with_pg fixActiveRateProfile w in
  let w := loadControlRateProfile w in
  let w := with_pg fixPidProfileIndex w in
  loadPidProfile w.

(** ** The rule evaluator, continued (lines 269-550) *)

(** Lines 269-273. *)
Definition fixAlignments (s : pgStore) : pgStore :=
  let s := compassConfigMutable
             (λ c, set_mag_customAlignment
                     (buildAlignmentFromStandardAlignment X (mag_customAlignment c)
                        (mag_alignment c)) c) s in
  let build := λ d, set_customAlignment
                 (buildAlignmentFromStandardAlignment X (customAlignment d) (alignment d)) d in
  let s := gyroDeviceConfigMutable 0 build s in
  if USE_MULTI_GYRO T then gyroDeviceConfigMutable 1 build s else s.

(** Lines 275-299. *)
Definition fixRxFeatures (s : pgStore) : pgStore :=
  let s := if negb (featureIsEnabled {[ FEATURE_RX_PARALLEL_PWM ]} s
                    || featureIsEnabled {[ FEATURE_RX_PPM ]} s
                    || featureIsEnabled {[ FEATURE_RX_SERIAL ]} s
                    || featureIsEnabled {[ FEATURE_RX_MSP ]} s
                    || featureIsEnabled {[ FEATURE_RX_SPI ]} s)
           then featureEnable {[ DEFAULT_RX_FEATURE T ]} s else s in
  let s := if featureIsEnabled {[ FEATURE_RX_PPM ]} s
           then featureDisable {[ FEATURE_RX_SERIAL; FEATURE_RX_PARALLEL_PWM;
                                  FEATURE_RX_MSP; FEATURE_RX_SPI ]} s else s in
  let s := if featureIsEnabled {[ FEATURE_RX_MSP ]} s
           then featureDisable {[ FEATURE_RX_SERIAL; FEATURE_RX_PARALLEL_PWM;
                                  FEATURE_RX_PPM; FEATURE_RX_SPI ]} s else s in
  let s := if featureIsEnabled {[ FEATURE_RX_SERIAL ]} s
           then featureDisable {[ FEATURE_RX_PARALLEL_PWM; FEATURE_RX_MSP;
                                  FEATURE_RX_PPM; FEATURE_RX_SPI ]} s else s in
  let s := if USE_RX_SPI T && featureIsEnabled {[ FEATURE_RX_SPI ]} s
           then featureDisable {[ FEATURE_RX_SERIAL; FEATURE_RX_PARALLEL_PWM;
                                  FEATURE_RX_PPM; FEATURE_RX_MSP ]} s else s in
  if featureIsEnabled {[ FEATURE_RX_PARALLEL_PWM ]} s
  then featureDisable {[ FEATURE_RX_SERIAL; FEATURE_RX_MSP; FEATURE_RX_PPM;
                         FEATURE_RX_SPI ]} s else s.

(** Lines 301-315. *)
Definition fixSoftSpi (s : pgStore) : pgStore :=
  if USE_SOFTSPI T && featureIsEnabled {[ FEATURE_SOFTSPI ]} s then
    let s := featureDisable {[ FEATURE_RX_PPM; FEATURE_RX_PARALLEL_PWM;
                               FEATURE_SOFTSERIAL ]} s in
    let s := batteryConfigMutable (set_voltageMeterSource VOLTAGE_METER_NONE) s in
    if STM32F10X T then
      let s := featureDisable {[ FEATURE_LED_STRIP ]} s in
      let s := featureDisable {[ FEATURE_RSSI_ADC ]} s in
      if bool_decide (currentMeterSource (batteryConfig s) = CURRENT_METER_ADC)
      then batteryConfigMutable (set_currentMeterSource CURRENT_METER_NONE) s else s
    else s
  else s.

(** Lines 317-329. *)
Definition fixRssi (s : pgStore) : pgStore :=
  if USE_ADC T && featureIsEnabled {[ FEATURE_RSSI_ADC ]} s then
    rxConfigMutable (set_rssi_src_frame_errors false)
      (rxConfigMutable (set_rssi_channel 0) s)
  else if negb (rssi_channel (rxConfig s) =? 0)
          || ((USE_PWM T || USE_PPM T)
              && (featureIsEnabled {[ FEATURE_RX_PPM ]} s
                  || featureIsEnabled {[ FEATURE_RX_PARALLEL_PWM ]} s))
  then rxConfigMutable (set_rssi_src_frame_errors false) s
  else s.

(** [pidProfilesMutable(i)->pid[item].F = 0]. *)
Definition zeroF (item : nat) (p : pidProfile_t) : pidProfile_t :=
  set_pid (alter (set_F 0) item (pid p)) p.

(** Lines 331-356. *)
Definition fixFeedForward (s : pgStore) : pgStore :=
  let s :=
    if negb (rcSmoothingIsEnabled X (rxConfig s))
       || bool_decide (rcInterpolationChannels (rxConfig s) = INTERPOLATION_CHANNELS_T)
    then for_loop (PID_PROFILE_COUNT T)
           (λ i s, pidProfilesMutable i (zeroF PID_PITCH)
                     (pidProfilesMutable i (zeroF PID_ROLL) s)) s
    else s in
  let s :=
    if negb (rcSmoothingIsEnabled X (rxConfig s))
       || (bool_decide (rcInterpolationChannels (rxConfig s) ≠ INTERPOLATION_CHANNELS_RPY)
           && bool_decide (rcInterpolationChannels (rxConfig s) ≠ INTERPOLATION_CHANNELS_RPYT))
    then for_loop (PID_PROFILE_COUNT T) (λ i, pidProfilesMutable i (zeroF PID_YAW)) s
    else s in
  if USE_THROTTLE_BOOST T
     && (negb (rcSmoothingIsEnabled X (rxConfig s))
         || negb (bool_decide (rcInterpolationChannels (rxConfig s) = INTERPOLATION_CHANNELS_RPYT)
                  || bool_decide (rcInterpolationChannels (rxConfig s) = INTERPOLATION_CHANNELS_T)
                  || bool_decide (rcInterpolationChannels (rxConfig s) = INTERPOLATION_CHANNELS_RPT)))
  then for_loop (PID_PROFILE_COUNT T) (λ i, pidProfilesMutable i (set_throttle_boost 0)) s
  else s.

(** Lines 358-374. *)
Definition fixGpsRescue (s : pgStore) : pgStore :=
  if featureIsEnabled {[ FEATURE_3D ]} s || negb (featureIsEnabled {[ FEATURE_GPS ]} s)
     || (negb (USE_GPS T) || negb (USE_GPS_RESCUE T))
  then
    let s := if USE_GPS_RESCUE T
                && bool_decide (failsafe_procedure (failsafeConfig s)
                                = FAILSAFE_PROCEDURE_GPS_RESCUE)
             then failsafeConfigMutable (set_failsafe_procedure FAILSAFE_PROCEDURE_DROP_IT) s
             else s in
    if isModeActivationConditionPresent X (BOXGPSRESCUE T) (modeActivationConditions s)
    then with_modeActivationConditions (removeModeActivationCondition X (BOXGPSRESCUE T)) s
    else s
  else s.

(** Lines 376-380. *)
Definition fixEscSensor (s : pgStore) : pgStore :=
  if USE_ESC_SENSOR T
     && bool_decide (findSerialPortConfig X FUNCTION_ESC_SENSOR (serialConfig s) = None)
  then featureDisable {[ FEATURE_ESC_SENSOR ]} s else s.

(** Lines 382-390.  [mac] points into the array, so its fields are read after
    the removals of earlier iterations. *)
Definition fixLinkedModes (s : pgStore) : pgStore :=
  for_loop (MAX_MODE_ACTIVATION_CONDITION_COUNT T)
    (λ i s,
       match modeActivationConditions s !! i with
       | Some mac =>
           if negb (linkedTo mac =? 0)
              && ((modeId mac =? BOXARM T)
                  || isModeActivationConditionLinked X (linkedTo mac)
                       (modeActivationConditions s))
           then with_modeActivationConditions
                  (removeModeActivationCondition X (modeId mac)) s
           else s
       | None => s
       end) s.

(** Lines 392-397. *)
Definition fixDshotBitbang (s : pgStore) : pgStore :=
  if USE_DSHOT_TELEMETRY T && USE_DSHOT_BITBANG T
     && (bool_decide (motorPwmProtocol (dev (motorConfig s)) = PWM_TYPE_PROSHOT1000)
         && useDshotTelemetry (dev (motorConfig s))
         && bool_decide (useDshotBitbang (dev (motorConfig s)) = DSHOT_BITBANG_ON))
  then motorConfigMutable (with_dev (set_useDshotBitbang DSHOT_BITBANG_AUTO)) s
  else s.

(** [#ifndef flag  featureDisable(mask);  #endif] *)
Definition unlessCompiled (flag : bool) (mask : featureMask) (s : pgStore) : pgStore :=
  if flag then s else featureDisable mask s.

(** Lines 399-468. *)
Definition pruneFeatures (s : pgStore) : pgStore :=
  let s := unlessCompiled (USE_PPM T) {[ FEATURE_RX_PPM ]} s in
  let s := unlessCompiled (USE_SERIAL_RX T) {[ FEATURE_RX_SERIAL ]} s in
  let s := unlessCompiled (USE_SOFTSERIAL1 T || USE_SOFTSERIAL2 T) {[ FEATURE_SOFTSERIAL ]} s in
  let s := unlessCompiled (USE_RANGEFINDER T) {[ FEATURE_RANGEFINDER ]} s in
  let s := unlessCompiled (USE_TELEMETRY T) {[ FEATURE_TELEMETRY ]} s in
  let s := unlessCompiled (USE_PWM T) {[ FEATURE_RX_PARALLEL_PWM ]} s in
  let s := unlessCompiled (USE_RX_MSP T) {[ FEATURE_RX_MSP ]} s in
  let s := unlessCompiled (USE_LED_STRIP T) {[ FEATURE_LED_STRIP ]} s in
  let s := unlessCompiled (USE_DASHBOARD T) {[ FEATURE_DASHBOARD ]} s in
  let s := unlessCompiled (USE_OSD T) {[ FEATURE_OSD ]} s in
  let s := unlessCompiled (USE_SERVOS T)
             {[ FEATURE_SERVO_TILT; FEATURE_CHANNEL_FORWARDING ]} s in
  let s := unlessCompiled (USE_TRANSPONDER T) {[ FEATURE_TRANSPONDER ]} s in
  let s := unlessCompiled (USE_RX_SPI T) {[ FEATURE_RX_SPI ]} s in
  let s := unlessCompiled (USE_SOFTSPI T) {[ FEATURE_SOFTSPI ]} s in
  let s := unlessCompiled (USE_ESC_SENSOR T) {[ FEATURE_ESC_SENSOR ]} s in
  let s := unlessCompiled (USE_GYRO_DATA_ANALYSE T) {[ FEATURE_DYNAMIC_FILTER ]} s in
  unlessCompiled (USE_ADC T) {[ FEATURE_RSSI_ADC ]} s.

(** Lines 470-491. *)
Definition fixBeeper (s : pgStore) : pgStore :=
  if USE_BEEPER T then
    let s := if USE_TIMER T
                && (negb (frequency (beeperDevConfig s) =? 0)
                    && negb (timerGetByTag X (ioTag (beeperDevConfig s))))
             then beeperDevConfigMutable (set_frequency 0) s else s in
    let s := if negb (Z.land (beeper_off_flags (beeperConfig s))
                             (Z.lnot (BEEPER_ALLOWED_MODES T)) =? 0)
             then beeperConfigMutable (set_beeper_off_flags 0) s else s in
    if USE_DSHOT T then
      let s := if negb (Z.land (dshotBeaconOffFlags (beeperConfig s))
                               (Z.lnot (DSHOT_BEACON_ALLOWED_MODES T)) =? 0)
               then beeperConfigMutable (set_dshotBeaconOffFlags 0) s else s in
      if (dshotBeaconTone (beeperConfig s) <? DSHOT_CMD_BEACON1 T)
         || (dshotBeaconTone (beeperConfig s) >? DSHOT_CMD_BEACON5 T)
      then beeperConfigMutable (set_dshotBeaconTone (DSHOT_CMD_BEACON1 T)) s else s
    else s
  else s.

(** Lines 493-518. *)
Definition fixDshot (s : pgStore) : pgStore :=
  if USE_DSHOT T then
    let usingDshotProtocol :=
      match motorPwmProtocol (dev (motorConfig s)) with
      | PWM_TYPE_PROSHOT1000 | PWM_TYPE_DSHOT600 | PWM_TYPE_DSHOT300
      | PWM_TYPE_DSHOT150 => true
      | _ => false
      end in
    let s := if usingDshotProtocol
             then motorConfigMutable (with_dev (set_useUnsyncedPwm false)) s else s in
    if USE_DSHOT_TELEMETRY T
       && ((negb usingDshotProtocol
            || (bool_decide (useDshotBitbang (dev (motorConfig s)) = DSHOT_BITBANG_OFF)
                && useBurstDshot (dev (motorConfig s)))
            || bool_decide (schedulerOptimizeRate (systemConfig s)
                            = SCHEDULER_OPTIMIZE_RATE_OFF))
           && useDshotTelemetry (dev (motorConfig s)))
    then motorConfigMutable (with_dev (set_useDshotTelemetry false)) s
    else s
  else s.

(** Lines 520-528. *)
Definition fixOsdTimers (s : pgStore) : pgStore :=
  if USE_OSD T then
    for_loop (OSD_TIMER_COUNT T)
      (λ i s,
         match timers (osdConfig s) !! i with
         | Some t =>
             if (OSD_TIMER_SRC X t >=? OSD_TIMER_SRC_COUNT T)
                || (OSD_TIMER_PRECISION X t >=? OSD_TIMER_PREC_COUNT T)
             then osdConfigMutable
                    (λ c, set_timers (<[i := osdTimerDefault X i]> (timers c)) c) s
             else s
         | None => s
         end) s
  else s.

(** Lines 530-545. *)
Definition fixVtx (s : pgStore) : pgStore :=
  if USE_VTX_COMMON T && USE_VTX_TABLE T then
    let s := if channel (vtxSettingsConfig s) >? channels (vtxTableConfig s) then
               let s := vtxSettingsConfigMutable (set_channel 0) s in
               if band (vtxSettingsConfig s) >? 0
               then vtxSettingsConfigMutable (set_freq 0) s else s
             else s in
    let s := if band (vtxSettingsConfig s) >? bands (vtxTableConfig s)
             then vtxSettingsConfigMutable (set_freq 0)
                    (vtxSettingsConfigMutable (set_band 0) s)
             else s in
    if power (vtxSettingsConfig s) >? powerLevels (vtxTableConfig s)
    then vtxSettingsConfigMutable (set_power 0) s else s
  else s.

(** Lines 547-549. *)
Definition runTargetValidation (s : pgStore) : pgStore :=
  if TARGET_VALIDATECONFIG T then targetValidateConfiguration X s else s.

(** Lines 182-550. *)
Definition validateAndFixConfig (w : world) : world :=
  let w := with_pg fixMixerMode w in
  let w := with_pg fixSerialConfig w in
  let w := with_pg fixGpsSerial w in
  let w := with_pg fixPidProfiles w in
  let w := with_pg fixMotorConfig w in
  let w := validateAndFixGyroConfig w in
  let w := with_pg fixAlignments w in
  let w := with_pg fixRxFeatures w in
  let w := with_pg fixSoftSpi w in
  let w := with_pg fixRssi w in
  let w := with_pg fixFeedForward w in
  let w := with_pg fixGpsRescue w in
  let w := with_pg fixEscSensor w in
  let w := with_pg fixLinkedModes w in
  let w := with_pg fixDshotBitbang w in
  let w := with_pg pruneFeatures w in
  let w := with_pg fixBeeper w in
  let w := with_pg fixDshot w in
  let w := with_pg fixOsdTimers w in
  let w := with_pg fixVtx w in
  with_pg runTargetValidation w.

(** ** The persistence controller (lines 681-767) *)

(** Modelled from the spec: rx/rx.c is not among the sources.  The spec speaks
    of a signal-sampling suspend counter that every path through the
    persistence operations must bring back to its value before the call:
    suspending takes one suspension. *)
Definition suspendRxPwmPpmSignal (w : world) : world :=
  emit Ev_suspendRxPwmPpmSignal (with_rxSignalSuspended (λ n, n + 1) w).

(** Modelled from the spec: see [suspendRxPwmPpmSignal]; resuming releases one
    suspension. *)
Definition resumeRxPwmPpmSignal (w : world) : world :=
  emit Ev_resumeRxPwmPpmSignal (with_rxSignalSuspended (λ n, n - 1) w).

Definition readEEPROM (w : world) : bool * world :=
  let w := suspendRxPwmPpmSignal w in
  let '(success, s) := loadEEPROM X (eeprom w) (pg w) in
  let w := emit (Ev_loadEEPROM success) (with_pg (λ _, s) w) in
  let w := validateAndFixConfig w in
  let w := activateConfig w in
  let w := resumeRxPwmPpmSignal w in
  (success, w).

Definition writeUnmodifiedConfigToEEPROM (w : world) : world :=
  let w := validateAndFixConfig w in
  let w := suspendRxPwmPpmSignal w in
  let w := emit Ev_writeConfigToEEPROM (with_eeprom (writeConfigToEEPROM X (pg w)) w) in
  let w := resumeRxPwmPpmSignal w in
  with_configIsDirty (λ _, false) w.

Definition writeEEPROM (w : world) : world :=
  writeUnmodifiedConfigToEEPROM
    (with_pg (systemConfigMutable (set_configurationState CONFIGURATION_STATE_CONFIGURED)) w).

Definition writeEEPROMWithFeatures (features : featureMask) (w : world) : world :=
  writeEEPROM (with_pg (featureEnable features) (with_pg featureDisableAll w)).

Definition resetEEPROM (useCustomDefaults : bool) (w : world) : bool * world :=
  if USE_CUSTOM_DEFAULTS T && useCustomDefaults then
    let '(ok, s) := resetConfigToCustomDefaults X (pg w) in
    let w := with_pg (λ _, s) w in
    if negb ok then (false, w) else (true, writeUnmodifiedConfigToEEPROM w)
  else (true, writeUnmodifiedConfigToEEPROM (resetConfig w)).

Definition ensureEEPROMStructureIsValid (w : world) : world :=
  if isEEPROMStructureValid X (eeprom w) then w else snd (resetEEPROM false w).

Definition saveConfigAndNotify (w : world) : world :=
  let w := writeEEPROM w in
  let w := snd (readEEPROM w) in
  emit (Ev_beeperConfirmationBeeps 1) w.

Definition setConfigDirty (w : world) : world := with_configIsDirty (λ _, true) w.

Definition isConfigDirty (w : world) : bool := configIsDirty w.

(** ** The profile manager (lines 769-805) *)

(** Conversion to [uint8_t]: the value an argument has once it is converted
    to a parameter of that type. *)
Definition uint8_t (n : nat) : nat := (n mod 256)%nat.

(** Lines 794-805.  The parameter is a [uint8_t].  So is the parameter of
    [beeperConfirmationBeeps], which is declared in io/beeper.h, not among the
    sources: the event records the beep count as the callee receives it,
    [pidProfileIndex + 1] converted to [uint8_t]. *)
Definition changePidProfile (pidProfileIndex : nat) (w : world) : world :=
  let pidProfileIndex := uint8_t pidProfileIndex in
  let w := if (pidProfileIndex <? PID_PROFILE_COUNT T)%nat then
             let w := with_pg (systemConfigMutable (set_pidProfileIndex pidProfileIndex)) w in
             let w := loadPidProfile w in
             let w := emit (Ev_pidInit (currentPidProfile w)) w in
             emit Ev_initEscEndpoints w
           else w in
  emit (Ev_beeperConfirmationBeeps (Z.of_nat (uint8_t (pidProfileIndex + 1)))) w.

(** The [while] loop of lines 777-787, from the loop test.  The result is the
    final value of [matchingProfileIndex]; [None] when the fuel runs out or a
    slot outside the array is read. *)
Fixpoint scanPidProfiles (fuel : nat) (s : pgStore) (cellCount : Z)
    (profileIndex : nat) (matchingProfileIndex : Z) : option Z :=
  if bool_decide (profileIndex ≠ pidProfileIndex (systemConfig s)) then
    match fuel with
    | O => None
    | S fuel =>
        match pidProfiles s !! profileIndex with
        | None => None
        | Some p =>
            if bool_decide (auto_profile_cell_count p = cellCount)
            then Some (Z.of_nat profileIndex)
            else
              let matchingProfileIndex :=
                if (matchingProfileIndex <? 0)
                   && bool_decide (auto_profile_cell_count p = AUTO_PROFILE_CELL_COUNT_STAY T)
                then Z.of_nat profileIndex else matchingProfileIndex in
              scanPidProfiles fuel s cellCount
                ((profileIndex + 1) mod PID_PROFILE_COUNT T)%nat matchingProfileIndex
        end
    end
  else Some matchingProfileIndex.

(** Lines 769-792.  The parameter is a [uint8_t]: the function works on the
    cell count converted to that type.  [None] when the loop does not finish
    within [fuel] iterations or [currentPidProfile] points outside the
    array. *)
Definition changePidProfileFromCellCount (fuel : nat) (cellCount : Z) (w : world)
  : option world :=
  let cellCount := cellCount mod 256 in
  match pidProfiles (pg w) !! currentPidProfile w with
  | None => None
  | Some cur =>
      if bool_decide (auto_profile_cell_count cur = cellCount)
         || bool_decide (auto_profile_cell_count cur = AUTO_PROFILE_CELL_COUNT_STAY T)
      then Some w
      else
        let profileIndex :=
          ((pidProfileIndex (systemConfig (pg w)) + 1) mod PID_PROFILE_COUNT T)%nat in
        match scanPidProfiles fuel (pg w) cellCount profileIndex (-1) with
        | None => None
        | Some matchingProfileIndex =>
            if matchingProfileIndex >=? 0
            then Some (changePidProfile (Z.to_nat matchingProfileIndex) w)
            else Some w
        end
  end.

(** ** Configuration state flags (lines 807-821) *)

Definition isSystemConfigured (w : world) : bool :=
  bool_decide (configurationState (systemConfig (pg w)) = CONFIGURATION_STATE_CONFIGURED).

(** Modelled from the spec: fc/runtime_config.c is not among the sources.  The
    arming-disable flags are a set of flags, and [setArmingDisabled flag] adds
    [flag] to it, which is what the reboot-required claim takes the call to
    do. *)
Definition setArmingDisabled (flag : armingDisableFlags_e) : world -> world :=
  with_armingDisableFlags (λ fs, fs ∪ {[ flag ]}).

Definition setRebootRequired (w : world) : world :=
  setArmingDisabled ARMING_DISABLED_REBOOT_REQUIRED (with_rebootRequired (λ _, true) w).

Definition getRebootRequired (w : world) : bool := rebootRequired w.

(** ** The operations of the module

    One constructor per function that [config.h] exports and that changes the
    state; [run] relates the state before a call to the state after it. *)
Inductive operation :=
| Op_resetConfig
| Op_validateAndFixGyroConfig
| Op_readEEPROM
| Op_writeUnmodifiedConfigToEEPROM
| Op_writeEEPROM
| Op_writeEEPROMWithFeatures (features : featureMask)
| Op_resetEEPROM (useCustomDefaults : bool)
| Op_ensureEEPROMStructureIsValid
| Op_saveConfigAndNotify
| Op_setConfigDirty
| Op_changePidProfileFromCellCount (cellCount : Z)
| Op_changePidProfile (pidProfileIndex : nat)
| Op_setRebootRequired.

Inductive run : operation -> world -> world -> Prop :=
| run_resetConfig w : run Op_resetConfig w (resetConfig w)
| run_validateAndFixGyroConfig w :
    run Op_validateAndFixGyroConfig w (validateAndFixGyroConfig w)
| run_readEEPROM w : run Op_readEEPROM w (snd (readEEPROM w))
| run_writeUnmodifiedConfigToEEPROM w :
    run Op_writeUnmodifiedConfigToEEPROM w (writeUnmodifiedConfigToEEPROM w)
| run_writeEEPROM w : run Op_writeEEPROM w (writeEEPROM w)
| run_writeEEPROMWithFeatures features w :
    run (Op_writeEEPROMWithFeatures features) w (writeEEPROMWithFeatures features w)
| run_resetEEPROM b w : run (Op_resetEEPROM b) w (snd (resetEEPROM b w))
| run_ensureEEPROMStructureIsValid w :
    run Op_ensureEEPROMStructureIsValid w (ensureEEPROMStructureIsValid w)
| run_saveConfigAndNotify w : run Op_saveConfigAndNotify w (saveConfigAndNotify w)
| run_setConfigDirty w : run Op_setConfigDirty w (setConfigDirty w)
| run_changePidProfileFromCellCount cellCount fuel w w' :
    changePidProfileFromCellCount fuel cellCount w = Some w' ->
    run (Op_changePidProfileFromCellCount cellCount) w w'
| run_changePidProfile i w : run (Op_changePidProfile i) w (changePidProfile i w)
| run_setRebootRequired w : run Op_setRebootRequired w (setRebootRequired w).

(** A sequence of calls, oldest first. *)
Inductive runs : list operation -> world -> world -> Prop :=
| runs_nil w : runs [] w w
| runs_cons op ops w1 w2 w3 : run op w1 w2 -> runs ops w2 w3 -> runs (op :: ops) w1 w3.

End Config.

Unset Implicit Arguments.

(** ** Vocabulary of the properties *)

Section Vocabulary.

Variable E : externalTypes.

Implicit Types (w : world E) (s : pgStore E) (p : pidProfile_t) (fs : featureMask).

(** [w'] differs from [w] at most in the store and the two profile pointers. *)
Definition same_runtime w w' : Prop :=
  gyro_targetLooptime w' = gyro_targetLooptime w
  ∧ gyroMpuDetectionResult_sensor w' = gyroMpuDetectionResult_sensor w
  ∧ configIsDirty w' = configIsDirty w
  ∧ rebootRequired w' = rebootRequired w
  ∧ armingDisableFlags w' = armingDisableFlags w
  ∧ rxSignalSuspended w' = rxSignalSuspended w
  ∧ eeprom w' = eeprom w
  ∧ trace w' = trace w.

(** [w'] has the two flags that [setRebootRequired] raises as [w] has them. *)
Definition same_flags w w' : Prop :=
  rebootRequired w' = rebootRequired w ∧ armingDisableFlags w' = armingDisableFlags w.

(** [keeps proj x x']: [x'] has the same [proj] as [x]. *)
Definition keeps {A B : Type} (proj : A -> B) : relation A := λ x x', proj x' = proj x.

(** The two active-profile pointers are those of the two indices in the
    store. *)
Definition pointers_synced w : Prop :=
  currentPidProfile w = pidProfileIndex (systemConfig (pg w))
  ∧ currentControlRateProfile w = activeRateProfile (systemConfig (pg w)).

(** Calls to the receiver-signal sampler and to the storage engine. *)
Definition rx_sampling_event (e : event) : Prop :=
  e = Ev_suspendRxPwmPpmSignal ∨ e = Ev_resumeRxPwmPpmSignal.

Definition storage_event (e : event) : Prop :=
  (∃ success, e = Ev_loadEEPROM success) ∨ e = Ev_writeConfigToEEPROM.

(** The D-term notch of a profile: centre frequency and cutoff. *)
Definition notch_pair (p : pidProfile_t) : Z * Z :=
  (dterm_notch_hz p, dterm_notch_cutoff p).

(** The notch settings of all profiles, in slot order. *)
Definition notch_pairs (s : pgStore E) : list (Z * Z) := notch_pair <$> pidProfiles s.

(** The feature mask of a store. *)
Definition features (s : pgStore E) : featureMask := enabledFeatures (featureConfig s).

(** At most one receiver-input feature is in the mask. *)
Definition at_most_one_rx (fs : featureMask) : Prop :=
  ∀ f g, f ∈ RX_FEATURES -> g ∈ RX_FEATURES -> f ∈ fs -> g ∈ fs -> f = g.

(** Each feature of [resolved] that is in the mask is the only receiver-input
    feature in it. *)
Definition rx_resolved (resolved fs : featureMask) : Prop :=
  ∀ f g, f ∈ resolved -> f ∈ fs -> g ∈ RX_FEATURES -> g ∈ fs -> g = f.

(** [s'] has no feature that [s] has not. *)
Definition shrinks_features : relation (pgStore E) := λ s s', features s' ⊆ features s.

(** Feature [f], if set in [s], is still set in [s']. *)
Definition keeps_feature (f : feature) : relation (pgStore E) :=
  λ s s', f ∈ features s -> f ∈ features s'.

(** Whether the driver behind a receiver-input feature is compiled in. *)
Definition rx_compiled (T : target) (f : feature) : bool :=
  match f with
  | FEATURE_RX_PPM => USE_PPM T
  | FEATURE_RX_SERIAL => USE_SERIAL_RX T
  | FEATURE_RX_PARALLEL_PWM => USE_PWM T
  | FEATURE_RX_MSP => USE_RX_MSP T
  | FEATURE_RX_SPI => USE_RX_SPI T
  | _ => true
  end.

(** What the loop-time rule reads and writes: motor protocol, unsynced-PWM
    flag, gyro hardware lowpass mode, gyro sync divisor, PID loop divisor. *)
Definition timing (s : pgStore E)
  : motorPwmProtocolTypes_e * bool * gyroHardwareLpf_e * Z * Z :=
  (motorPwmProtocol (dev (motorConfig s)), useUnsyncedPwm (dev (motorConfig s)),
   gyro_hardware_lpf (gyroConfig s), gyro_sync_denom (gyroConfig s),
   pid_process_denom (pidConfig s)).

(** *** The cell-count switch *)

(** The cell-count tags of the PID profiles, in slot order. *)
Definition profile_tags (s : pgStore E) : list Z :=
  auto_profile_cell_count <$> pidProfiles s.

(** The circular scan over [n] slots: every slot but [current], starting
    with the slot after it. *)
Definition scan_order (n current : nat) : list nat :=
  (λ k, (current + k) mod n)%nat <$> seq 1 (n - 1).

(** The slot the scan selects: the first slot in scan order tagged exactly
    [cellCount]; failing that, the first slot in scan order tagged "stay";
    failing that, none. *)
Definition scan_target (T : target) (s : pgStore E) (cellCount : Z) : option nat :=
  let tags := profile_tags s in
  let order := scan_order (PID_PROFILE_COUNT T) (pidProfileIndex (systemConfig s)) in
  match list_find (λ i, tags !! i = Some cellCount) order with
  | Some (_, i) => Some i
  | None => snd <$> list_find (λ i, tags !! i = Some (AUTO_PROFILE_CELL_COUNT_STAY T)) order
  end.

(** No switch if the current profile is tagged [cellCount] or "stay";
    otherwise a switch to the slot the scan selects, if any. *)
Definition switch_by_cell_count (T : target) (cellCount : Z) (w : world E)
  : world E :=
  match profile_tags (pg w) !! currentPidProfile w with
  | Some tag =>
      if bool_decide (tag = cellCount ∨ tag = AUTO_PROFILE_CELL_COUNT_STAY T) then w
      else match scan_target T (pg w) cellCount with
           | Some i => changePidProfile T i w
           | None => w
           end
  | None => w
  end.

(** The value of [matchingProfileIndex] after scanning the slots [order],
    starting from [matching]. *)
Fixpoint scan_list (T : target) (tags : list Z) (cellCount : Z) (order : list nat)
    (matching : Z) : Z :=
  match order with
  | [] => matching
  | i :: order =>
      if bool_decide (tags !! i = Some cellCount) then Z.of_nat i
      else scan_list T tags cellCount order
             (if (matching <? 0)
                 && bool_decide (tags !! i = Some (AUTO_PROFILE_CELL_COUNT_STAY T))
              then Z.of_nat i else matching)
  end.

(** *** Per-profile settings *)


(** The D-min values of a profile next to the D gains they are compared
    with. *)
Definition d_gains (p : pidProfile_t) : list Z * list Z := (d_min p, D <$> pid p).

(** The feed-forward gain of one PID item of a profile; 0 when the item is
    missing. *)
Definition feedforward (item : nat) (p : pidProfile_t) : Z :=
  default 0 (F <$> pid p !! item).

(** [s'] has no feature that [s] has not, the default receiver-input
    feature apart. *)
Definition adds_only_default (T : target) : relation (pgStore E) :=
  λ s s', features s' ⊆ features s ∪ {[ DEFAULT_RX_FEATURE T ]}.

(** The motor PWM rate of [s'] is not above that of [s]. *)
Definition lowers_pwm_rate : relation (pgStore E) :=
  λ s s', motorPwmRate (dev (motorConfig s')) <= motorPwmRate (dev (motorConfig s)).

(** The features that lines 399-468 clear on a build: those whose driver is
    not compiled in. *)
Definition not_compiled (flag : bool) (mask : featureMask) : featureMask :=
  if flag then ∅ else mask.

Definition unsupported_features (T : target) : featureMask :=
  not_compiled (USE_PPM T) {[ FEATURE_RX_PPM ]}
  ∪ not_compiled (USE_SERIAL_RX T) {[ FEATURE_RX_SERIAL ]}
  ∪ not_compiled (USE_SOFTSERIAL1 T || USE_SOFTSERIAL2 T) {[ FEATURE_SOFTSERIAL ]}
  ∪ not_compiled (USE_RANGEFINDER T) {[ FEATURE_RANGEFINDER ]}
  ∪ not_compiled (USE_TELEMETRY T) {[ FEATURE_TELEMETRY ]}
  ∪ not_compiled (USE_PWM T) {[ FEATURE_RX_PARALLEL_PWM ]}
  ∪ not_compiled (USE_RX_MSP T) {[ FEATURE_RX_MSP ]}
  ∪ not_compiled (USE_LED_STRIP T) {[ FEATURE_LED_STRIP ]}
  ∪ not_compiled (USE_DASHBOARD T) {[ FEATURE_DASHBOARD ]}
  ∪ not_compiled (USE_OSD T) {[ FEATURE_OSD ]}
  ∪ not_compiled (USE_SERVOS T) {[ FEATURE_SERVO_TILT; FEATURE_CHANNEL_FORWARDING ]}
  ∪ not_compiled (USE_TRANSPONDER T) {[ FEATURE_TRANSPONDER ]}
  ∪ not_compiled (USE_RX_SPI T) {[ FEATURE_RX_SPI ]}
  ∪ not_compiled (USE_SOFTSPI T) {[ FEATURE_SOFTSPI ]}
  ∪ not_compiled (USE_ESC_SENSOR T) {[ FEATURE_ESC_SENSOR ]}
  ∪ not_compiled (USE_GYRO_DATA_ANALYSE T) {[ FEATURE_DYNAMIC_FILTER ]}
  ∪ not_compiled (USE_ADC T) {[ FEATURE_RSSI_ADC ]}.

(** *** Mixer modes *)

(** The three mixer modes that take their tables from the configuration. *)
Definition is_custom_mixer (mode : mixerMode_e) : Prop :=
  mode = MIXER_CUSTOM ∨ mode = MIXER_CUSTOM_AIRPLANE ∨ mode = MIXER_CUSTOM_TRI.

(** *** Motor protocols *)


End Vocabulary.

Arguments same_runtime {E} w w'.
Arguments same_flags {E} w w'.
Arguments pointers_synced {E} w.
Arguments notch_pairs {E} s.
Arguments features {E} s.
Arguments profile_tags {E} s.
Arguments scan_target {E} T s cellCount.
Arguments switch_by_cell_count {E} T cellCount w.
Arguments timing {E} s.
Arguments adds_only_default {E} T s s'.
Arguments lowers_pwm_rate {E} s s'.
Arguments shrinks_features {E} s s'.
Arguments keeps_feature {E} f s s'.

(** ** A sample build and configuration

    Concrete collaborators, a concrete target and a concrete state, on which
    the definitions above can be evaluated. *)
Module Sample.

Definition E0 : externalTypes :=
  {| serialConfig_t := unit; serialPortIdentifier_e := unit; sensor_align_e := unit;
     sensorAlignment_t := unit; storage_t := unit |}.

Definition profile (tag : Z) : pidProfile_t :=
  {| pid := replicate 5 {| D := 30; F := 60 |};
     dterm_lowpass_hz := 150; dterm_lowpass2_hz := 150;
     dterm_notch_hz := 0; dterm_notch_cutoff := 0;
     dyn_lpf_dterm_min_hz := 70; dyn_lpf_dterm_max_hz := 170;
     motor_output_limit := 100; auto_profile_cell_count := tag;
     d_min := [20; 22; 0]; throttle_boost := 5 |}.

(** A store with [n] PID profiles tagged "stay", DSHOT600 motor output and
    the given feature mask. *)
Definition store (n : nat) (features : featureMask) : pgStore E0 :=
  {| mixerConfig := {| mixerMode := MIXER_FIXED 3 |};
     serialConfig := (tt : serialConfig_t E0);
     gpsConfig := {| provider := GPS_PROVIDER_OTHER 0 |};
     featureConfig := {| enabledFeatures := features |};
     pidProfiles := replicate n (profile 0);
     motorConfig :=
       {| dev := {| motorPwmRate := 480; motorPwmProtocol := PWM_TYPE_DSHOT600;
                    useUnsyncedPwm := false; useBurstDshot := false;
                    useDshotTelemetry := false; useDshotBitbang := DSHOT_BITBANG_AUTO |};
          minthrottle := 1070; mincommand := 1000 |};
     gyroConfig :=
       {| gyro_sync_denom := 1; gyro_hardware_lpf := GYRO_HARDWARE_LPF_OTHER 0;
          gyro_lowpass_hz := 200; gyro_lowpass2_hz := 250;
          gyro_soft_notch_hz_1 := 0; gyro_soft_notch_cutoff_1 := 0;
          gyro_soft_notch_hz_2 := 0; gyro_soft_notch_cutoff_2 := 0;
          dyn_lpf_gyro_min_hz := 200; dyn_lpf_gyro_max_hz := 500 |};
     pidConfig := {| pid_process_denom := 1 |};
     blackboxConfig := {| device := 0 |};
     systemConfig :=
       {| pidProfileIndex := 0; activeRateProfile := 0;
          schedulerOptimizeRate := SCHEDULER_OPTIMIZE_RATE_AUTO;
          configurationState := CONFIGURATION_STATE_DEFAULTS_BARE |};
     compassConfig :=
       {| mag_alignment := (tt : sensor_align_e E0); mag_customAlignment := tt |};
     gyroDeviceConfig :=
       replicate 2 {| alignment := (tt : sensor_align_e E0); customAlignment := tt |};
     batteryConfig :=
       {| voltageMeterSource := VOLTAGE_METER_OTHER 1;
          currentMeterSource := CURRENT_METER_ADC |};
     rxConfig :=
       {| rssi_channel := 0; rssi_src_frame_errors := false;
          rcInterpolationChannels := INTERPOLATION_CHANNELS_RPYT;
          rcInterpolation := 2; rc_smoothing_type := 1 |};
     failsafeConfig := {| failsafe_procedure := FAILSAFE_PROCEDURE_DROP_IT |};
     modeActivationConditions := replicate 20 {| modeId := 0; linkedTo := 0 |};
     beeperDevConfig := {| ioTag := 0; frequency := 0 |};
     beeperConfig :=
       {| beeper_off_flags := 0; dshotBeaconOffFlags := 0; dshotBeaconTone := 1 |};
     osdConfig := {| timers := [0; 1] |};
     vtxSettingsConfig := {| band := 0; channel := 0; power := 0; freq := 0 |};
     vtxTableConfig := {| bands := 5; channels := 8; powerLevels := 5 |};
     throttleCorrectionConfig :=
       {| throttle_correction_angle := 800; throttle_correction_value := 0 |} |}.

Definition X0 : collaborators E0 :=
  {| isSerialConfigValid := λ _, true;
     pgResetFn_serialConfig := λ c, c;
     findSerialPortConfig := λ _ _, None;
     serialRemovePort := λ _ c, c;
     mixers_motorCount := λ _, 4;
     mixers_motor_is_NULL := λ _, false;
     mixers_useServo := λ _, false;
     servoMixers_servoRuleCount := λ _, 0;
     buildAlignmentFromStandardAlignment := λ custom _, custom;
     rcSmoothingIsEnabled :=
       λ rx, negb ((rc_smoothing_type rx =? 0) && (rcInterpolation rx =? 0));
     isModeActivationConditionPresent :=
       λ id macs, existsb (λ m, (modeId m =? id) && negb (linkedTo m =? 0)) macs;
     removeModeActivationCondition :=
       λ id macs, (λ m, if modeId m =? id then {| modeId := 0; linkedTo := 0 |} else m)
                    <$> macs;
     isModeActivationConditionLinked :=
       λ id macs, existsb (λ m, (modeId m =? id) && negb (linkedTo m =? 0)) macs;
     timerGetByTag := λ tag, negb (tag =? 0);
     OSD_TIMER_SRC := λ t, Z.land t 15;
     OSD_TIMER_PRECISION := λ t, Z.land (Z.shiftr t 4) 15;
     osdTimerDefault := λ _, 0;
     HZ_TO_INTERVAL_US := λ hz, 1000000 / hz;
     targetConfiguration := λ s, s;
     targetValidateConfiguration := λ s, s;
     pgResetAll := λ _, store 3 {[ FEATURE_RX_PARALLEL_PWM ]};
     resetConfigToCustomDefaults := λ s, (false, s);
     loadEEPROM := λ _ s, (true, s);
     writeConfigToEEPROM := λ _ image, image;
     isEEPROMStructureValid := λ _, true |}.

(** A build with every optional subsystem compiled in; [softspi] selects
    USE_SOFTSPI. *)
Definition build (pidProfileCount : nat) (softspi : bool) (defaultRx : feature) : target :=
  {| USE_TARGET_CONFIG := false; USE_CUSTOM_DEFAULTS := false;
     TARGET_VALIDATECONFIG := false; USE_ACC := true;
     USE_LED_STRIP_STATUS_MODE := true; USE_QUAD_MIXER_ONLY := false;
     USE_SERVOS := true; USE_GPS := true; USE_GPS_RESCUE := true; USE_DYN_LPF := true;
     USE_RX_SPI := true; USE_SOFTSPI := softspi; STM32F10X := false; STM32F1 := false;
     USE_ADC := true; USE_PWM := true; USE_PPM := true; USE_THROTTLE_BOOST := true;
     USE_ESC_SENSOR := true; USE_DSHOT := true; USE_DSHOT_TELEMETRY := true;
     USE_DSHOT_BITBANG := true; USE_SERIAL_RX := true; USE_SOFTSERIAL1 := true;
     USE_SOFTSERIAL2 := true; USE_RANGEFINDER := true; USE_TELEMETRY := true;
     USE_RX_MSP := true; USE_LED_STRIP := true; USE_DASHBOARD := true; USE_OSD := true;
     USE_TRANSPONDER := true; USE_GYRO_DATA_ANALYSE := true; USE_BEEPER := true;
     USE_TIMER := true; USE_VTX_COMMON := true; USE_VTX_TABLE := true;
     USE_BLACKBOX := true; USE_FLASHFS := true; USE_SDCARD := true;
     USE_MULTI_GYRO := true;
     PID_PROFILE_COUNT := pidProfileCount;
     CONTROL_RATE_PROFILE_COUNT := 6;
     MAX_MODE_ACTIVATION_CONDITION_COUNT := 20;
     OSD_TIMER_COUNT := 2;
     FILTER_FREQUENCY_MAX := 4000;
     MAX_PID_PROCESS_DENOM := 16;
     BRUSHLESS_MOTORS_PWM_RATE := 480;
     MAX_AUTO_DETECT_CELL_COUNT := 8;
     AUTO_PROFILE_CELL_COUNT_STAY := 0;
     AUTO_PROFILE_CELL_COUNT_CHANGE := -1;
     DEFAULT_RX_FEATURE := defaultRx;
     BEEPER_ALLOWED_MODES := 16777215;
     DSHOT_BEACON_ALLOWED_MODES := 6;
     DSHOT_CMD_BEACON1 := 1;
     DSHOT_CMD_BEACON5 := 5;
     OSD_TIMER_SRC_COUNT := 3;
     OSD_TIMER_PREC_COUNT := 3;
     BOXARM := 0;
     BOXGPSRESCUE := 46;
     BLACKBOX_DEVICE_NONE := 0;
     FLOAT_TO_INT_OVERFLOW := 2147483647 |}.

Definition T0 : target := build 3 false FEATURE_RX_PARALLEL_PWM.

(** The state right after start-up with store [s]. *)
Definition boot (s : pgStore E0) : world E0 :=
  {| pg := s; currentPidProfile := pidProfileIndex (systemConfig s);
     currentControlRateProfile := activeRateProfile (systemConfig s);
     gyro_targetLooptime := 125;
     gyroMpuDetectionResult_sensor := MPU_SENSOR_OTHER 0;
     configIsDirty := false; rebootRequired := false; armingDisableFlags := ∅;
     rxSignalSuspended := 0; eeprom := tt; trace := [] |}.

Definition w0 : world E0 := boot (store 3 {[ FEATURE_RX_SERIAL ]}).

(** Motor settings with the given protocol, unsynced-PWM flag and PWM rate. *)
Definition motor (protocol : motorPwmProtocolTypes_e) (unsynced : bool) (rate : Z)
  : motorConfig_t :=
  {| dev := {| motorPwmRate := rate; motorPwmProtocol := protocol;
               useUnsyncedPwm := unsynced; useBurstDshot := false;
               useDshotTelemetry := true; useDshotBitbang := DSHOT_BITBANG_ON |};
     minthrottle := 1070; mincommand := 900 |}.

(** The store [s] with one PID profile for each of the cell-count tags. *)
Definition tagged (tags : list Z) (s : pgStore E0) : pgStore E0 :=
  with_pidProfiles (λ _, profile <$> tags) s.

(** The collaborators [X0] with a serial port for every function. *)
Definition X1 : collaborators E0 :=
  {| isSerialConfigValid := isSerialConfigValid X0;
     pgResetFn_serialConfig := pgResetFn_serialConfig X0;
     findSerialPortConfig := λ _ _, Some tt;
     serialRemovePort := serialRemovePort X0;
     mixers_motorCount := mixers_motorCount X0;
     mixers_motor_is_NULL := mixers_motor_is_NULL X0;
     mixers_useServo := mixers_useServo X0;
     servoMixers_servoRuleCount := servoMixers_servoRuleCount X0;
     buildAlignmentFromStandardAlignment := buildAlignmentFromStandardAlignment X0;
     rcSmoothingIsEnabled := rcSmoothingIsEnabled X0;
     isModeActivationConditionPresent := isModeActivationConditionPresent X0;
     removeModeActivationCondition := removeModeActivationCondition X0;
     isModeActivationConditionLinked := isModeActivationConditionLinked X0;
     timerGetByTag := timerGetByTag X0;
     OSD_TIMER_SRC := OSD_TIMER_SRC X0;
     OSD_TIMER_PRECISION := OSD_TIMER_PRECISION X0;
     osdTimerDefault := osdTimerDefault X0;
     HZ_TO_INTERVAL_US := HZ_TO_INTERVAL_US X0;
     targetConfiguration := targetConfiguration X0;
     targetValidateConfiguration := targetValidateConfiguration X0;
     pgResetAll := pgResetAll X0;
     resetConfigToCustomDefaults := resetConfigToCustomDefaults X0;
     loadEEPROM := loadEEPROM X0;
     writeConfigToEEPROM := writeConfigToEEPROM X0;
     isEEPROMStructureValid := isEEPROMStructureValid X0 |}.

(** The build [T0] with custom defaults and without the OSD, the LED strip and
    the flash file system. *)
Definition lean : target :=
  {| USE_TARGET_CONFIG := USE_TARGET_CONFIG T0;
     USE_CUSTOM_DEFAULTS := true; TARGET_VALIDATECONFIG := TARGET_VALIDATECONFIG T0;
     USE_ACC := USE_ACC T0; USE_LED_STRIP_STATUS_MODE := USE_LED_STRIP_STATUS_MODE T0;
     USE_QUAD_MIXER_ONLY := USE_QUAD_MIXER_ONLY T0; USE_SERVOS := USE_SERVOS T0;
     USE_GPS := USE_GPS T0; USE_GPS_RESCUE := USE_GPS_RESCUE T0;
     USE_DYN_LPF := USE_DYN_LPF T0; USE_RX_SPI := USE_RX_SPI T0;
     USE_SOFTSPI := USE_SOFTSPI T0; STM32F10X := STM32F10X T0; STM32F1 := STM32F1 T0;
     USE_ADC := USE_ADC T0; USE_PWM := USE_PWM T0; USE_PPM := USE_PPM T0;
     USE_THROTTLE_BOOST := USE_THROTTLE_BOOST T0; USE_ESC_SENSOR := USE_ESC_SENSOR T0;
     USE_DSHOT := USE_DSHOT T0; USE_DSHOT_TELEMETRY := USE_DSHOT_TELEMETRY T0;
     USE_DSHOT_BITBANG := USE_DSHOT_BITBANG T0; USE_SERIAL_RX := USE_SERIAL_RX T0;
     USE_SOFTSERIAL1 := USE_SOFTSERIAL1 T0; USE_SOFTSERIAL2 := USE_SOFTSERIAL2 T0;
     USE_RANGEFINDER := USE_RANGEFINDER T0; USE_TELEMETRY := USE_TELEMETRY T0;
     USE_RX_MSP := USE_RX_MSP T0; USE_LED_STRIP := false;
     USE_DASHBOARD := USE_DASHBOARD T0; USE_OSD := false;
     USE_TRANSPONDER := USE_TRANSPONDER T0;
     USE_GYRO_DATA_ANALYSE := USE_GYRO_DATA_ANALYSE T0; USE_BEEPER := USE_BEEPER T0;
     USE_TIMER := USE_TIMER T0; USE_VTX_COMMON := USE_VTX_COMMON T0;
     USE_VTX_TABLE := USE_VTX_TABLE T0; USE_BLACKBOX := USE_BLACKBOX T0;
     USE_FLASHFS := false; USE_SDCARD := USE_SDCARD T0;
     USE_MULTI_GYRO := USE_MULTI_GYRO T0; PID_PROFILE_COUNT := PID_PROFILE_COUNT T0;
     CONTROL_RATE_PROFILE_COUNT := CONTROL_RATE_PROFILE_COUNT T0;
     MAX_MODE_ACTIVATION_CONDITION_COUNT := MAX_MODE_ACTIVATION_CONDITION_COUNT T0;
     OSD_TIMER_COUNT := OSD_TIMER_COUNT T0;
     FILTER_FREQUENCY_MAX := FILTER_FREQUENCY_MAX T0;
     MAX_PID_PROCESS_DENOM := MAX_PID_PROCESS_DENOM T0;
     BRUSHLESS_MOTORS_PWM_RATE := BRUSHLESS_MOTORS_PWM_RATE T0;
     MAX_AUTO_DETECT_CELL_COUNT := MAX_AUTO_DETECT_CELL_COUNT T0;
     AUTO_PROFILE_CELL_COUNT_STAY := AUTO_PROFILE_CELL_COUNT_STAY T0;
     AUTO_PROFILE_CELL_COUNT_CHANGE := AUTO_PROFILE_CELL_COUNT_CHANGE T0;
     DEFAULT_RX_FEATURE := DEFAULT_RX_FEATURE T0;
     BEEPER_ALLOWED_MODES := BEEPER_ALLOWED_MODES T0;
     DSHOT_BEACON_ALLOWED_MODES := DSHOT_BEACON_ALLOWED_MODES T0;
     DSHOT_CMD_BEACON1 := DSHOT_CMD_BEACON1 T0;
     DSHOT_CMD_BEACON5 := DSHOT_CMD_BEACON5 T0;
     OSD_TIMER_SRC_COUNT := OSD_TIMER_SRC_COUNT T0;
     OSD_TIMER_PREC_COUNT := OSD_TIMER_PREC_COUNT T0; BOXARM := BOXARM T0;
     BOXGPSRESCUE := BOXGPSRESCUE T0; BLACKBOX_DEVICE_NONE := BLACKBOX_DEVICE_NONE T0;
     FLOAT_TO_INT_OVERFLOW := FLOAT_TO_INT_OVERFLOW T0 |}.

(** The build [T0] with a target-specific validation hook (lines 547-549). *)
Definition hooked : target :=
  {| USE_TARGET_CONFIG := USE_TARGET_CONFIG T0;
     USE_CUSTOM_DEFAULTS := USE_CUSTOM_DEFAULTS T0; TARGET_VALIDATECONFIG := true;
     USE_ACC := USE_ACC T0; USE_LED_STRIP_STATUS_MODE := USE_LED_STRIP_STATUS_MODE T0;
     USE_QUAD_MIXER_ONLY := USE_QUAD_MIXER_ONLY T0; USE_SERVOS := USE_SERVOS T0;
     USE_GPS := USE_GPS T0; USE_GPS_RESCUE := USE_GPS_RESCUE T0;
     USE_DYN_LPF := USE_DYN_LPF T0; USE_RX_SPI := USE_RX_SPI T0;
     USE_SOFTSPI := USE_SOFTSPI T0; STM32F10X := STM32F10X T0; STM32F1 := STM32F1 T0;
     USE_ADC := USE_ADC T0; USE_PWM := USE_PWM T0; USE_PPM := USE_PPM T0;
     USE_THROTTLE_BOOST := USE_THROTTLE_BOOST T0; USE_ESC_SENSOR := USE_ESC_SENSOR T0;
     USE_DSHOT := USE_DSHOT T0; USE_DSHOT_TELEMETRY := USE_DSHOT_TELEMETRY T0;
     USE_DSHOT_BITBANG := USE_DSHOT_BITBANG T0; USE_SERIAL_RX := USE_SERIAL_RX T0;
     USE_SOFTSERIAL1 := USE_SOFTSERIAL1 T0; USE_SOFTSERIAL2 := USE_SOFTSERIAL2 T0;
     USE_RANGEFINDER := USE_RANGEFINDER T0; USE_TELEMETRY := USE_TELEMETRY T0;
     USE_RX_MSP := USE_RX_MSP T0; USE_LED_STRIP := USE_LED_STRIP T0;
     USE_DASHBOARD := USE_DASHBOARD T0; USE_OSD := USE_OSD T0;
     USE_TRANSPONDER := USE_TRANSPONDER T0;
     USE_GYRO_DATA_ANALYSE := USE_GYRO_DATA_ANALYSE T0; USE_BEEPER := USE_BEEPER T0;
     USE_TIMER := USE_TIMER T0; USE_VTX_COMMON := USE_VTX_COMMON T0;
     USE_VTX_TABLE := USE_VTX_TABLE T0; USE_BLACKBOX := USE_BLACKBOX T0;
     USE_FLASHFS := USE_FLASHFS T0; USE_SDCARD := USE_SDCARD T0;
     USE_MULTI_GYRO := USE_MULTI_GYRO T0; PID_PROFILE_COUNT := PID_PROFILE_COUNT T0;
     CONTROL_RATE_PROFILE_COUNT := CONTROL_RATE_PROFILE_COUNT T0;
     MAX_MODE_ACTIVATION_CONDITION_COUNT := MAX_MODE_ACTIVATION_CONDITION_COUNT T0;
     OSD_TIMER_COUNT := OSD_TIMER_COUNT T0;
     FILTER_FREQUENCY_MAX := FILTER_FREQUENCY_MAX T0;
     MAX_PID_PROCESS_DENOM := MAX_PID_PROCESS_DENOM T0;
     BRUSHLESS_MOTORS_PWM_RATE := BRUSHLESS_MOTORS_PWM_RATE T0;
     MAX_AUTO_DETECT_CELL_COUNT := MAX_AUTO_DETECT_CELL_COUNT T0;
     AUTO_PROFILE_CELL_COUNT_STAY := AUTO_PROFILE_CELL_COUNT_STAY T0;
     AUTO_PROFILE_CELL_COUNT_CHANGE := AUTO_PROFILE_CELL_COUNT_CHANGE T0;
     DEFAULT_RX_FEATURE := DEFAULT_RX_FEATURE T0;
     BEEPER_ALLOWED_MODES := BEEPER_ALLOWED_MODES T0;
     DSHOT_BEACON_ALLOWED_MODES := DSHOT_BEACON_ALLOWED_MODES T0;
     DSHOT_CMD_BEACON1 := DSHOT_CMD_BEACON1 T0;
     DSHOT_CMD_BEACON5 := DSHOT_CMD_BEACON5 T0;
     OSD_TIMER_SRC_COUNT := OSD_TIMER_SRC_COUNT T0;
     OSD_TIMER_PREC_COUNT := OSD_TIMER_PREC_COUNT T0; BOXARM := BOXARM T0;
     BOXGPSRESCUE := BOXGPSRESCUE T0; BLACKBOX_DEVICE_NONE := BLACKBOX_DEVICE_NONE T0;
     FLOAT_TO_INT_OVERFLOW := FLOAT_TO_INT_OVERFLOW T0 |}.


(** The collaborators [X0] with a target hook that sets up a D-term notch in
    the first PID profile: centre 100, cutoff 150. *)
Definition X_notch : collaborators E0 :=
  {| isSerialConfigValid := isSerialConfigValid X0;
     pgResetFn_serialConfig := pgResetFn_serialConfig X0;
     findSerialPortConfig := findSerialPortConfig X0;
     serialRemovePort := serialRemovePort X0;
     mixers_motorCount := mixers_motorCount X0;
     mixers_motor_is_NULL := mixers_motor_is_NULL X0;
     mixers_useServo := mixers_useServo X0;
     servoMixers_servoRuleCount := servoMixers_servoRuleCount X0;
     buildAlignmentFromStandardAlignment := buildAlignmentFromStandardAlignment X0;
     rcSmoothingIsEnabled := rcSmoothingIsEnabled X0;
     isModeActivationConditionPresent := isModeActivationConditionPresent X0;
     removeModeActivationCondition := removeModeActivationCondition X0;
     isModeActivationConditionLinked := isModeActivationConditionLinked X0;
     timerGetByTag := timerGetByTag X0;
     OSD_TIMER_SRC := OSD_TIMER_SRC X0;
     OSD_TIMER_PRECISION := OSD_TIMER_PRECISION X0;
     osdTimerDefault := osdTimerDefault X0;
     HZ_TO_INTERVAL_US := HZ_TO_INTERVAL_US X0;
     targetConfiguration := targetConfiguration X0;
     targetValidateConfiguration :=
       pidProfilesMutable 0 (λ p, set_dterm_notch_cutoff 150 (set_dterm_notch_hz 100 p));
     pgResetAll := pgResetAll X0;
     resetConfigToCustomDefaults := resetConfigToCustomDefaults X0;
     loadEEPROM := loadEEPROM X0;
     writeConfigToEEPROM := writeConfigToEEPROM X0;
     isEEPROMStructureValid := isEEPROMStructureValid X0 |}.


End Sample.

(** * Properties *)

Section Properties.

Variable E : externalTypes.
Variable X : collaborators E.
Variable T : target.

Implicit Types (w : world E) (s : pgStore E) (p : pidProfile_t) (fs : featureMask).

(** ** Loops *)

Lemma for_loop_S {S : Type} n (body : nat -> S -> S) (st : S) :
  for_loop (Datatypes.S n) body st = body n (for_loop n body st).
Proof. unfold for_loop. by rewrite seq_S, foldl_app. Qed.

(** A property that every iteration keeps is kept by the loop. *)
Lemma for_loop_preserves {S : Type} (P : S -> Prop) n (body : nat -> S -> S) (st : S) :
  (∀ i st, P st -> P (body i st)) -> P st -> P (for_loop n body st).
Proof.
  intros Hbody Hst. induction n as [|n IH]; [exact Hst|].
  rewrite for_loop_S. by apply Hbody.
Qed.

(** A loop that alters slot [i] at iteration [i] applies [f] to each of the
    first [n] slots, once. *)
Lemma foldl_alter_seq_lookup {A : Type} (f : A -> A) (l : list A) n j :
  foldl (λ l i, alter f i l) l (seq 0 n) !! j
  = if decide (j < n)%nat then f <$> l !! j else l !! j.
Proof.
  induction n as [|n IH]; [done|].
  rewrite seq_S, foldl_app. simpl. rewrite list_lookup_alter.
  destruct (decide (n = j)) as [->|Hne].
  - rewrite IH. rewrite decide_False by lia. by rewrite decide_True by lia.
  - rewrite IH. destruct (decide (j < n)%nat).
    + by rewrite decide_True by lia.
    + by rewrite decide_False by lia.
Qed.

Lemma foldl_alter_all {A : Type} (f : A -> A) (l : list A) n :
  length l = n -> foldl (λ l i, alter f i l) l (seq 0 n) = f <$> l.
Proof.
  intros Hn. apply list_eq. intros j.
  rewrite foldl_alter_seq_lookup, list_lookup_fmap.
  destruct (decide (j < n)%nat); [done|].
  by rewrite lookup_ge_None_2 by lia.
Qed.


(** ** What validation leaves alone

    Validation rewrites the store and the two profile pointers; the rest of the
    state is untouched. *)
Lemma same_runtime_refl w : same_runtime w w.
Proof. by repeat split. Qed.

Lemma same_runtime_trans w1 w2 w3 :
  same_runtime w1 w2 -> same_runtime w2 w3 -> same_runtime w1 w3.
Proof. unfold same_runtime. intuition congruence. Qed.

Lemma same_runtime_with_pg f w : same_runtime w (with_pg f w).
Proof. by repeat split. Qed.

Lemma same_runtime_loadPidProfile w : same_runtime w (loadPidProfile w).
Proof. by repeat split. Qed.

Lemma same_runtime_loadControlRateProfile w : same_runtime w (loadControlRateProfile w).
Proof. by repeat split. Qed.

Lemma same_runtime_validateAndFixGyroConfig w :
  same_runtime w (validateAndFixGyroConfig X T w).
Proof.
  unfold validateAndFixGyroConfig. cbv zeta.
  repeat lazymatch goal with
         | |- same_runtime ?w (loadPidProfile ?w1) =>
             apply (same_runtime_trans w w1); [|apply same_runtime_loadPidProfile]
         | |- same_runtime ?w (loadControlRateProfile ?w1) =>
             apply (same_runtime_trans w w1); [|apply same_runtime_loadControlRateProfile]
         | |- same_runtime ?w (with_pg ?f ?w1) =>
             apply (same_runtime_trans w w1); [|apply same_runtime_with_pg]
         end.
  apply same_runtime_refl.
Qed.

Lemma same_runtime_validateAndFixConfig w :
  same_runtime w (validateAndFixConfig X T w).
Proof.
  unfold validateAndFixConfig. cbv zeta.
  repeat lazymatch goal with
         | |- same_runtime ?w (validateAndFixGyroConfig X T ?w1) =>
             apply (same_runtime_trans w w1);
             [|apply same_runtime_validateAndFixGyroConfig]
         | |- same_runtime ?w (with_pg ?f ?w1) =>
             apply (same_runtime_trans w w1); [|apply same_runtime_with_pg]
         end.
  apply same_runtime_refl.
Qed.

(** ** Validation as a rewrite of the store *)

(** The store after [validateAndFixGyroConfig]: seven rewrites, which read
    the two run-time values of the gyro driver. *)
Lemma validateAndFixGyroConfig_pg w :
  pg (validateAndFixGyroConfig X T w)
  = fixPidProfileIndex T
      (fixActiveRateProfile T
         (fixBlackboxDevice T
            (fixLoopTime T (gyroMpuDetectionResult_sensor w)
               (fixSyncDenominators T
                  (gyroConfigMutable (fixGyroFilters T)
                     (fixDynamicFilter X T (gyro_targetLooptime w) (pg w))))))).
Proof. reflexivity. Qed.

Lemma validateAndFixGyroConfig_pointers w :
  currentControlRateProfile (validateAndFixGyroConfig X T w)
  = activeRateProfile (systemConfig (pg (validateAndFixGyroConfig X T w)))
  ∧ currentPidProfile (validateAndFixGyroConfig X T w)
    = pidProfileIndex (systemConfig (pg (validateAndFixGyroConfig X T w))).
Proof.
  unfold validateAndFixGyroConfig. cbv zeta.
  match goal with |- context [with_pg (fixActiveRateProfile T) ?w1] =>
    generalize w1 end.
  intros w1. split; [|reflexivity].
  unfold loadPidProfile, loadControlRateProfile, fixPidProfileIndex.
  cbn [currentControlRateProfile with_currentPidProfile with_currentControlRateProfile
       with_pg pg].
  by case_bool_decide.
Qed.

(** The store after [validateAndFixConfig]. *)
Lemma validateAndFixConfig_pg w :
  pg (validateAndFixConfig X T w)
  = runTargetValidation X T
     (fixVtx T
      (fixOsdTimers X T
       (fixDshot T
        (fixBeeper X T
         (pruneFeatures T
          (fixDshotBitbang T
           (fixLinkedModes X T
            (fixEscSensor X T
             (fixGpsRescue X T
              (fixFeedForward X T
               (fixRssi T
                (fixSoftSpi T
                 (fixRxFeatures T
                  (fixAlignments X T
                   (fixPidProfileIndex T
                    (fixActiveRateProfile T
                     (fixBlackboxDevice T
                      (fixLoopTime T (gyroMpuDetectionResult_sensor w)
                       (fixSyncDenominators T
                        (gyroConfigMutable (fixGyroFilters T)
                         (fixDynamicFilter X T (gyro_targetLooptime w)
                          (fixMotorConfig T
                           (fixPidProfiles T
                            (fixGpsSerial X T
                             (fixSerialConfig X
                              (fixMixerMode X T (pg w))))))))))))))))))))))))))).
Proof. reflexivity. Qed.

(** ** Walking through a sequence of rewrites

    The tactic [walk base] proves [R s (f s)] for a transitive [R] by going
    through the statements of [f] one at a time: an intermediate state becomes
    a variable, a conditional is split, and [base] closes the goals
    [R x (u x)] for the elementary updates [u]. *)
#[local] Instance keeps_preorder {A B : Type} (proj : A -> B) : PreOrder (keeps proj).
Proof. split; unfold keeps; [by intros ?|intros ? ? ?; congruence]. Qed.

Lemma rel_let {A : Type} (R : relation A) `{!Transitive R} (x0 a : A) (b : A -> A) :
  R x0 a -> (∀ x, R x (b x)) -> R x0 (let x := a in b x).
Proof. intros Ha Hb. cbv zeta. by transitivity a. Qed.

Lemma rel_for_loop {A : Type} (R : relation A) `{!Transitive R} n body (x0 a : A) :
  R x0 a -> (∀ i x, R x (body i x)) -> R x0 (for_loop n body a).
Proof.
  intros Ha Hbody. apply (for_loop_preserves (R x0)); [|done].
  intros i st Hst. by transitivity st.
Qed.

Lemma rel_app {A : Type} (R : relation A) `{!Transitive R} (x0 a : A) (f : A -> A) :
  R x0 a -> (∀ x, R x (f x)) -> R x0 (f a).
Proof. intros Ha Hf. by transitivity a. Qed.

Ltac walk base :=
  cbv beta;
  lazymatch goal with
  | |- ?R ?s ?s => reflexivity
  | |- ?R ?s (let x := ?a in @?b x) =>
      first
        [ refine (rel_let R s a b _ _); [walk base | intros ?; walk base]
        | change (R s (b a)); walk base ]
  | |- ?R ?s (if ?c then _ else _) => destruct c; walk base
  | |- ?R ?s (match ?o with _ => _ end) => destruct o; walk base
  | |- ?R ?s (for_loop ?n ?body ?a) =>
      refine (rel_for_loop R n body s a _ _); [walk base | intros ? ?; walk base]
  | |- _ => base
  end.

(** The elementary updates keep every record field they do not name. *)
Ltac keeps_base := unfold keeps; reflexivity.


(** Unfold the rewrites of the store, keeping their [let]s. *)
Ltac unfold_steps :=
  cbv beta delta
    [fixMixerMode fixSerialConfig fixGpsSerial fixPidProfiles fixMotorConfig
     fixDynamicFilter fixSyncDenominators fixLoopTime fixBlackboxDevice
     fixActiveRateProfile fixPidProfileIndex fixAlignments fixRxFeatures fixSoftSpi
     fixRssi fixFeedForward fixGpsRescue fixEscSensor fixLinkedModes fixDshotBitbang
     pruneFeatures unlessCompiled fixBeeper fixDshot fixOsdTimers fixVtx
     runTargetValidation].

(** [through step] proves [R s (f1 (f2 (... s)))] when [step] proves
    [R x (fi x)] for each rewrite [fi]. *)
Ltac through step :=
  lazymatch goal with
  | |- ?R ?s ?s => reflexivity
  | |- ?R ?s (?f ?a) => refine (rel_app R s a f _ _); [through step | intros ?; step]
  end.

Ltac keeps_step := unfold_steps; walk keeps_base.

(** C7.  After [validateAndFixGyroConfig] both active profile indices are
    within their arrays: an index at or beyond its bound has become 0, any
    other index is kept, and both active-profile pointers have been reloaded
    from the resulting indices.  (The two counts are positive constants.) *)
Theorem validateAndFixGyroConfig_profile_bounds w :
  (0 < CONTROL_RATE_PROFILE_COUNT T)%nat ->
  (0 < PID_PROFILE_COUNT T)%nat ->
  let w' := validateAndFixGyroConfig X T w in
  let rate := activeRateProfile (systemConfig (pg w)) in
  let index := pidProfileIndex (systemConfig (pg w)) in
  (activeRateProfile (systemConfig (pg w')) < CONTROL_RATE_PROFILE_COUNT T)%nat
  ∧ (pidProfileIndex (systemConfig (pg w')) < PID_PROFILE_COUNT T)%nat
  ∧ activeRateProfile (systemConfig (pg w'))
    = (if bool_decide (CONTROL_RATE_PROFILE_COUNT T ≤ rate)%nat then 0%nat else rate)
  ∧ pidProfileIndex (systemConfig (pg w'))
    = (if bool_decide (PID_PROFILE_COUNT T ≤ index)%nat then 0%nat else index)
  ∧ currentControlRateProfile w' = activeRateProfile (systemConfig (pg w'))
  ∧ currentPidProfile w' = pidProfileIndex (systemConfig (pg w')).
Proof.
  intros Hrate Hpid w' rate index.
  destruct (validateAndFixGyroConfig_pointers w) as [Hcr Hcp].
  subst w'. rewrite Hcr, Hcp, validateAndFixGyroConfig_pg. clear Hcr Hcp.
  match goal with |- context [fixActiveRateProfile T ?s1] =>
    assert (Hsys : keeps (@systemConfig E) (pg w) s1) by through keeps_step;
    revert Hsys; generalize s1
  end.
  unfold keeps. intros s1 Hsys. subst rate index. rewrite <- Hsys. clear Hsys.
  unfold fixPidProfileIndex, fixActiveRateProfile.
  repeat case_bool_decide; cbn in *; repeat split; lia.
Qed.


(** ** Profile selection *)

Lemma uint8_t_lt n : (uint8_t n < 256)%nat.
Proof. unfold uint8_t. apply Nat.mod_upper_bound. lia. Qed.

(** C9.  [changePidProfile index], where [i] is [index] as the [uint8_t]
    parameter holds it ([index] itself when it is below 256): with [i] outside
    the array the store and the current-profile pointer stay as they are and
    the confirmation beeps are still emitted; with [i] inside the array [i]
    becomes the active profile, the pointer is reloaded, and the PID
    controller is re-initialised with that profile, then the ESC endpoints, in
    that order, before the beeps.  The beep count is [i + 1] as a [uint8_t]:
    [i + 1] for every index but 255, where it is 0. *)
Theorem changePidProfile_spec index w :
  let i := uint8_t index in
  let w' := changePidProfile T index w in
  let beeps := Ev_beeperConfirmationBeeps (Z.of_nat (uint8_t (i + 1))) in
  ((PID_PROFILE_COUNT T ≤ i)%nat ->
     pg w' = pg w
     ∧ currentPidProfile w' = currentPidProfile w
     ∧ trace w' = trace w ++ [beeps])
  ∧ ((i < PID_PROFILE_COUNT T)%nat ->
     pidProfileIndex (systemConfig (pg w')) = i
     ∧ currentPidProfile w' = i
     ∧ trace w' = trace w ++ [Ev_pidInit i; Ev_initEscEndpoints; beeps])
  ∧ ((index < 256)%nat -> i = index)
  ∧ ((i < 255)%nat -> Z.of_nat (uint8_t (i + 1)) = (Z.of_nat i + 1)%Z)
  ∧ (i = 255%nat -> uint8_t (i + 1) = 0%nat).
Proof.
  cbv zeta. unfold changePidProfile, loadPidProfile, emit.
  generalize (uint8_t_lt index).
  assert (Hsmall : (index < 256)%nat -> uint8_t index = index)
    by (unfold uint8_t; apply Nat.mod_small).
  revert Hsmall. generalize (uint8_t index). intros i Hsmall Hi8.
  split; [|split; [|split; [|split]]].
  - intros Hi. rewrite (proj2 (Nat.ltb_ge _ _) Hi). by cbn.
  - intros Hi. rewrite (proj2 (Nat.ltb_lt _ _) Hi). cbn.
    by rewrite <- !(assoc_L (++)).
  - exact Hsmall.
  - intros Hi. unfold uint8_t. rewrite Nat.mod_small by lia. lia.
  - intros ->. reflexivity.
Qed.

(** ** Persistence *)

(** Activation only appends calls to the trace, none of them to the receiver
    sampler or to the storage engine. *)
Lemma activateConfig_trace w :
  ∃ calls, trace (activateConfig T w) = trace w ++ calls
           ∧ Forall (λ e, ¬ rx_sampling_event e ∧ ¬ storage_event e) calls.
Proof.
  unfold activateConfig, emit, loadPidProfile, loadControlRateProfile.
  destruct (USE_ACC T), (USE_LED_STRIP_STATUS_MODE T); cbn;
    rewrite <- !(assoc_L (++)); cbn; (eexists; split; [reflexivity|]);
    repeat constructor;
    unfold rx_sampling_event, storage_event; intros [?|?]; try discriminate;
    match goal with H : ∃ _, _ |- _ => destruct H; discriminate end.
Qed.

Lemma activateConfig_rxSignalSuspended w :
  rxSignalSuspended (activateConfig T w) = rxSignalSuspended w.
Proof.
  unfold activateConfig, emit, loadPidProfile, loadControlRateProfile.
  by destruct (USE_ACC T), (USE_LED_STRIP_STATUS_MODE T).
Qed.

Lemma suspendRxPwmPpmSignal_spec w :
  rxSignalSuspended (suspendRxPwmPpmSignal w) = rxSignalSuspended w + 1
  ∧ trace (suspendRxPwmPpmSignal w) = trace w ++ [Ev_suspendRxPwmPpmSignal].
Proof. done. Qed.

Lemma resumeRxPwmPpmSignal_spec w :
  rxSignalSuspended (resumeRxPwmPpmSignal w) = rxSignalSuspended w - 1
  ∧ trace (resumeRxPwmPpmSignal w) = trace w ++ [Ev_resumeRxPwmPpmSignal].
Proof. done. Qed.

(** C8.  [readEEPROM] and [writeUnmodifiedConfigToEEPROM] suspend
    receiver-signal sampling before they touch the storage engine and resume
    it before they return, whatever [loadEEPROM] reports; nothing between the
    two calls touches the sampler, so the suspend counter is back at its value
    before the call. *)
Theorem persistence_suspends_and_resumes w :
  (let success := fst (loadEEPROM X (eeprom w) (pg w)) in
   let w' := snd (readEEPROM X T w) in
   fst (readEEPROM X T w) = success
   ∧ rxSignalSuspended w' = rxSignalSuspended w
   ∧ ∃ calls,
       trace w' = trace w ++ [Ev_suspendRxPwmPpmSignal; Ev_loadEEPROM success]
                          ++ calls ++ [Ev_resumeRxPwmPpmSignal]
       ∧ Forall (λ e, ¬ rx_sampling_event e ∧ ¬ storage_event e) calls)
  ∧ (let w' := writeUnmodifiedConfigToEEPROM X T w in
     rxSignalSuspended w' = rxSignalSuspended w
     ∧ trace w' = trace w ++ [Ev_suspendRxPwmPpmSignal; Ev_writeConfigToEEPROM;
                              Ev_resumeRxPwmPpmSignal]).
Proof.
  split.
  - unfold readEEPROM.
    change (eeprom (suspendRxPwmPpmSignal w)) with (eeprom w).
    change (pg (suspendRxPwmPpmSignal w)) with (pg w).
    destruct (loadEEPROM X (eeprom w) (pg w)) as [success s]. cbv zeta. cbn [fst snd].
    destruct (suspendRxPwmPpmSignal_spec w) as [Hn1 Ht1].
    revert Hn1 Ht1. generalize (suspendRxPwmPpmSignal w). intros w1 Hn1 Ht1.
    assert (Hn2 : rxSignalSuspended (emit (Ev_loadEEPROM success) (with_pg (λ _, s) w1))
                  = rxSignalSuspended w1) by done.
    assert (Ht2 : trace (emit (Ev_loadEEPROM success) (with_pg (λ _, s) w1))
                  = trace w1 ++ [Ev_loadEEPROM success]) by done.
    revert Hn2 Ht2. generalize (emit (Ev_loadEEPROM success) (with_pg (λ _, s) w1)).
    intros w2 Hn2 Ht2.
    destruct (same_runtime_validateAndFixConfig w2) as (_&_&_&_&_&Hn3&_&Ht3).
    revert Hn3 Ht3. generalize (validateAndFixConfig X T w2). intros w3 Hn3 Ht3.
    destruct (activateConfig_trace w3) as (calls & Ht4 & Hcalls).
    pose proof (activateConfig_rxSignalSuspended w3) as Hn4.
    revert Hn4 Ht4. generalize (activateConfig T w3). intros w4 Hn4 Ht4.
    destruct (resumeRxPwmPpmSignal_spec w4) as [Hn5 Ht5].
    split; [done|]. split; [lia|].
    exists calls. split; [|done].
    rewrite Ht5, Ht4, Ht3, Ht2, Ht1. by rewrite <- !(assoc_L (++)).
  - unfold writeUnmodifiedConfigToEEPROM. cbv zeta.
    destruct (same_runtime_validateAndFixConfig w) as (_&_&_&_&_&Hn1&_&Ht1).
    revert Hn1 Ht1. generalize (validateAndFixConfig X T w). intros w1 Hn1 Ht1.
    cbn. rewrite Hn1, Ht1. split; [lia|]. by rewrite <- !(assoc_L (++)).
Qed.

(** ** The reboot-required flag *)

Lemma same_flags_refl w : same_flags w w.
Proof. by split. Qed.

Lemma same_flags_trans w1 w2 w3 : same_flags w1 w2 -> same_flags w2 w3 -> same_flags w1 w3.
Proof. unfold same_flags. intuition congruence. Qed.

Lemma same_flags_of_runtime w w' : same_runtime w w' -> same_flags w w'.
Proof. unfold same_runtime, same_flags. tauto. Qed.

Lemma same_flags_with_pg f w : same_flags w (with_pg f w).
Proof. by split. Qed.

Lemma same_flags_emit e w : same_flags w (emit e w).
Proof. by split. Qed.

Lemma same_flags_with_eeprom f w : same_flags w (with_eeprom f w).
Proof. by split. Qed.

Lemma same_flags_with_configIsDirty f w : same_flags w (with_configIsDirty f w).
Proof. by split. Qed.

Lemma same_flags_loadPidProfile w : same_flags w (loadPidProfile w).
Proof. by split. Qed.

Lemma same_flags_loadControlRateProfile w : same_flags w (loadControlRateProfile w).
Proof. by split. Qed.

Lemma same_flags_suspendRxPwmPpmSignal w : same_flags w (suspendRxPwmPpmSignal w).
Proof. by split. Qed.

Lemma same_flags_resumeRxPwmPpmSignal w : same_flags w (resumeRxPwmPpmSignal w).
Proof. by split. Qed.

Lemma same_flags_validateAndFixConfig w : same_flags w (validateAndFixConfig X T w).
Proof. apply same_flags_of_runtime, same_runtime_validateAndFixConfig. Qed.

Lemma same_flags_validateAndFixGyroConfig w :
  same_flags w (validateAndFixGyroConfig X T w).
Proof. apply same_flags_of_runtime, same_runtime_validateAndFixGyroConfig. Qed.

Ltac flags_call lemmas :=
  lazymatch goal with
  | |- same_flags _ (with_pg _ _) => apply same_flags_with_pg
  | |- same_flags _ (emit _ _) => apply same_flags_emit
  | |- same_flags _ (with_eeprom _ _) => apply same_flags_with_eeprom
  | |- same_flags _ (with_configIsDirty _ _) => apply same_flags_with_configIsDirty
  | |- same_flags _ (loadPidProfile _) => apply same_flags_loadPidProfile
  | |- same_flags _ (loadControlRateProfile _) => apply same_flags_loadControlRateProfile
  | |- same_flags _ (suspendRxPwmPpmSignal _) => apply same_flags_suspendRxPwmPpmSignal
  | |- same_flags _ (resumeRxPwmPpmSignal _) => apply same_flags_resumeRxPwmPpmSignal
  | |- same_flags _ (validateAndFixConfig _ _ _) => apply same_flags_validateAndFixConfig
  | |- _ => lemmas
  end.

(** Peel the outermost call off the final state, one call at a time. *)
Ltac flags lemmas :=
  cbv zeta;
  repeat lazymatch goal with
         | |- same_flags ?w ?w => apply same_flags_refl
         | |- same_flags _ (if ?c then _ else _) => destruct c
         | |- same_flags _ (snd (_, _)) => cbn [snd]
         | |- same_flags ?w (?f ?w1) =>
             apply (same_flags_trans w w1 (f w1)); [|flags_call lemmas]
         end.

Lemma same_flags_activateConfig w : same_flags w (activateConfig T w).
Proof. unfold activateConfig. flags fail. Qed.

Lemma same_flags_resetConfig w : same_flags w (resetConfig X T w).
Proof. unfold resetConfig. flags fail. Qed.

Lemma same_flags_readEEPROM w : same_flags w (snd (readEEPROM X T w)).
Proof.
  unfold readEEPROM. destruct (loadEEPROM X _ _) as [success s].
  flags ltac:(apply same_flags_activateConfig).
Qed.

Lemma same_flags_writeUnmodifiedConfigToEEPROM w :
  same_flags w (writeUnmodifiedConfigToEEPROM X T w).
Proof. unfold writeUnmodifiedConfigToEEPROM. flags fail. Qed.

Lemma same_flags_writeEEPROM w : same_flags w (writeEEPROM X T w).
Proof.
  unfold writeEEPROM. flags ltac:(apply same_flags_writeUnmodifiedConfigToEEPROM).
Qed.

Lemma same_flags_writeEEPROMWithFeatures fs w :
  same_flags w (writeEEPROMWithFeatures X T fs w).
Proof. unfold writeEEPROMWithFeatures. flags ltac:(apply same_flags_writeEEPROM). Qed.

Lemma same_flags_resetEEPROM b w : same_flags w (snd (resetEEPROM X T b w)).
Proof.
  unfold resetEEPROM. destruct (USE_CUSTOM_DEFAULTS T && b).
  - destruct (resetConfigToCustomDefaults X (pg w)) as [[] s]; cbn [negb];
      flags ltac:(apply same_flags_writeUnmodifiedConfigToEEPROM).
  - flags ltac:(first [apply same_flags_writeUnmodifiedConfigToEEPROM
                      |apply same_flags_resetConfig]).
Qed.

Lemma same_flags_ensureEEPROMStructureIsValid w :
  same_flags w (ensureEEPROMStructureIsValid X T w).
Proof.
  unfold ensureEEPROMStructureIsValid.
  destruct (isEEPROMStructureValid X _); [apply same_flags_refl|].
  apply same_flags_resetEEPROM.
Qed.

Lemma same_flags_saveConfigAndNotify w : same_flags w (saveConfigAndNotify X T w).
Proof.
  unfold saveConfigAndNotify. cbv zeta.
  eapply same_flags_trans; [|apply same_flags_emit].
  eapply same_flags_trans; [|apply same_flags_readEEPROM].
  apply same_flags_writeEEPROM.
Qed.

Lemma same_flags_changePidProfile i w : same_flags w (changePidProfile T i w).
Proof. unfold changePidProfile. flags fail. Qed.

Lemma same_flags_changePidProfileFromCellCount fuel cellCount w w' :
  changePidProfileFromCellCount T fuel cellCount w = Some w' -> same_flags w w'.
Proof.
  unfold changePidProfileFromCellCount. intros H.
  repeat case_match; simplify_eq; try apply same_flags_refl.
  apply same_flags_changePidProfile.
Qed.

(** No operation of the module lowers either flag. *)
Lemma run_keeps_reboot_required op w w' :
  run X T op w w' ->
  rebootRequired w = true ->
  ARMING_DISABLED_REBOOT_REQUIRED ∈ armingDisableFlags w ->
  rebootRequired w' = true ∧ ARMING_DISABLED_REBOOT_REQUIRED ∈ armingDisableFlags w'.
Proof.
  intros Hrun Hr Ha.
  assert (Hsame : ∀ w2, same_flags w w2 ->
    rebootRequired w2 = true ∧ ARMING_DISABLED_REBOOT_REQUIRED ∈ armingDisableFlags w2).
  { intros w2 [H1 H2]. rewrite H1, H2. by split. }
  destruct Hrun.
  - apply Hsame, same_flags_resetConfig.
  - apply Hsame, same_flags_validateAndFixGyroConfig.
  - apply Hsame, same_flags_readEEPROM.
  - apply Hsame, same_flags_writeUnmodifiedConfigToEEPROM.
  - apply Hsame, same_flags_writeEEPROM.
  - apply Hsame, same_flags_writeEEPROMWithFeatures.
  - apply Hsame, same_flags_resetEEPROM.
  - apply Hsame, same_flags_ensureEEPROMStructureIsValid.
  - apply Hsame, same_flags_saveConfigAndNotify.
  - by apply Hsame.
  - apply Hsame. eapply same_flags_changePidProfileFromCellCount. eassumption.
  - apply Hsame, same_flags_changePidProfile.
  - clear Hsame. unfold setRebootRequired, setArmingDisabled. cbn.
    split; [done|set_solver].
Qed.

Lemma runs_keep_reboot_required ops w w' :
  runs X T ops w w' ->
  rebootRequired w = true ->
  ARMING_DISABLED_REBOOT_REQUIRED ∈ armingDisableFlags w ->
  rebootRequired w' = true ∧ ARMING_DISABLED_REBOOT_REQUIRED ∈ armingDisableFlags w'.
Proof.
  induction 1 as [|op ops w1 w2 w3 Hrun _ IH]; [done|].
  intros Hr Ha. destruct (run_keeps_reboot_required _ _ _ Hrun Hr Ha). by apply IH.
Qed.

(** C10.  Once [setRebootRequired] has been called, after any sequence of
    operations of this module [getRebootRequired] returns true and
    ARMING_DISABLED_REBOOT_REQUIRED is among the arming-disable flags: no
    operation of the module clears either. *)
Theorem reboot_required_is_sticky ops w w' :
  runs X T ops (setRebootRequired w) w' ->
  getRebootRequired w' = true
  ∧ ARMING_DISABLED_REBOOT_REQUIRED ∈ armingDisableFlags w'.
Proof.
  intros Hruns. unfold getRebootRequired.
  apply (runs_keep_reboot_required _ _ _ Hruns).
  - reflexivity.
  - unfold setRebootRequired, setArmingDisabled. cbn. set_solver.
Qed.


(** ** The D-term notch of every PID profile *)

Lemma fixDtermFilters_notch p :
  let p' := fixDtermFilters T p in
  (0 < dterm_notch_hz p' -> dterm_notch_cutoff p' < dterm_notch_hz p')
  ∧ (dterm_notch_hz p' = 0
     ∨ dterm_notch_hz p' = adjustFilterLimit T (dterm_notch_hz p) (FILTER_FREQUENCY_MAX T)).
Proof.
  unfold fixDtermFilters. cbn.
  destruct (_ >=? _) eqn:Hge; cbn; [split; [lia|by left]|].
  split; [lia|by right].
Qed.

Lemma keeps_notch_fixProfileLimits p : keeps notch_pair p (fixProfileLimits T p).
Proof. cbv beta delta [fixProfileLimits]. walk keeps_base. Qed.

Lemma keeps_notch_fixDMin axis p : keeps notch_pair p (fixDMin axis p).
Proof. cbv beta delta [fixDMin]. walk keeps_base. Qed.

Lemma notch_pair_fixPidProfile p :
  notch_pair (fixPidProfile T p) = notch_pair (fixDtermFilters T p).
Proof.
  change (keeps notch_pair (fixDtermFilters T p) (fixPidProfile T p)).
  unfold fixPidProfile. cbv zeta.
  apply rel_for_loop; [typeclasses eauto|apply keeps_notch_fixProfileLimits|].
  intros. apply keeps_notch_fixDMin.
Qed.

Lemma notch_pair_zeroF item p : notch_pair (zeroF item p) = notch_pair p.
Proof. reflexivity. Qed.

Lemma notch_pair_set_throttle_boost v p : notch_pair (set_throttle_boost v p) = notch_pair p.
Proof. reflexivity. Qed.

(** Altering a slot with a function that keeps the notch keeps all notches. *)
Lemma notch_pairs_pidProfilesMutable i f s :
  (∀ p, notch_pair (f p) = notch_pair p) ->
  keeps notch_pairs s (pidProfilesMutable i f s).
Proof.
  intros Hf. unfold keeps, notch_pairs, pidProfilesMutable. cbn.
  apply list_eq. intros j. rewrite !list_lookup_fmap, list_lookup_alter.
  case_decide; [subst j|done].
  destruct (pidProfiles s !! i); cbn; by rewrite ?Hf.
Qed.

Ltac notch_base :=
  first
    [ unfold keeps, notch_pairs; reflexivity
    | apply notch_pairs_pidProfilesMutable; intros ?; reflexivity
    | etransitivity;
      apply notch_pairs_pidProfilesMutable; intros ?; reflexivity ].

Ltac notch_step := unfold_steps; walk notch_base.

(** The profiles after the loop of lines 219-253. *)
Lemma pidProfiles_fixPidProfiles s :
  length (pidProfiles s) = PID_PROFILE_COUNT T ->
  pidProfiles (fixPidProfiles T s) = fixPidProfile T <$> pidProfiles s.
Proof.
  intros Hlen. unfold fixPidProfiles.
  rewrite <- (foldl_alter_all (fixPidProfile T) (pidProfiles s) _ Hlen).
  generalize (PID_PROFILE_COUNT T). intros n.
  induction n as [|n IH]; [done|].
  rewrite for_loop_S, seq_S, foldl_app. cbn. by rewrite IH.
Qed.

Lemma runTargetValidation_off s :
  TARGET_VALIDATECONFIG T = false -> runTargetValidation X T s = s.
Proof. unfold runTargetValidation. by intros ->. Qed.

(** The hook of lines 547-549 runs last: what it leaves is what
    [validateAndFixConfig] leaves. *)
Lemma notch_pairs_runTargetValidation s :
  (TARGET_VALIDATECONFIG T = true ->
   ∀ s, notch_pairs (targetValidateConfiguration X s) = notch_pairs s) ->
  notch_pairs (runTargetValidation X T s) = notch_pairs s.
Proof.
  intros Hhook. unfold runTargetValidation.
  destruct (TARGET_VALIDATECONFIG T); [by apply Hhook|done].
Qed.

(** The notch of one profile after lines 222-230. *)
Lemma fixDtermFilters_notch_pair p :
  let hz := adjustFilterLimit T (dterm_notch_hz p) (FILTER_FREQUENCY_MAX T) in
  let cutoff := adjustFilterLimit T (dterm_notch_cutoff p) 0 in
  notch_pair (fixDtermFilters T p) = (if cutoff >=? hz then 0 else hz, cutoff).
Proof. unfold fixDtermFilters. cbn. by destruct (_ >=? _). Qed.

(** C6 (as amended).  On a build without a target-specific validation hook,
    or whose hook leaves the D-term notch settings of the profiles as they
    are, every PID profile ends [validateAndFixConfig] with the notch that
    lines 222-230 give it: the cutoff and the centre frequency are first
    limited ([adjustFilterLimit], reset values 0 and FILTER_FREQUENCY_MAX),
    and the notch is then disabled, [dterm_notch_hz = 0], exactly when the
    cutoff is not below the centre.  So an enabled notch has its cutoff
    strictly below its centre, and a notch whose cutoff is not below its
    centre is disabled. *)
Theorem dterm_notch_consistent w i p0 :
  (TARGET_VALIDATECONFIG T = true ->
   ∀ s, notch_pairs (targetValidateConfiguration X s) = notch_pairs s) ->
  length (pidProfiles (pg w)) = PID_PROFILE_COUNT T ->
  pidProfiles (pg w) !! i = Some p0 ->
  let hz := adjustFilterLimit T (dterm_notch_hz p0) (FILTER_FREQUENCY_MAX T) in
  let cutoff := adjustFilterLimit T (dterm_notch_cutoff p0) 0 in
  ∃ p, pidProfiles (pg (validateAndFixConfig X T w)) !! i = Some p
       ∧ dterm_notch_cutoff p = cutoff
       ∧ dterm_notch_hz p = (if cutoff >=? hz then 0 else hz)
       ∧ (0 < dterm_notch_hz p -> dterm_notch_cutoff p < dterm_notch_hz p)
       ∧ (hz ≤ cutoff -> dterm_notch_hz p = 0)
       ∧ (dterm_notch_cutoff p0 ≤ FILTER_FREQUENCY_MAX T ->
          dterm_notch_hz p0 ≤ dterm_notch_cutoff p0 ->
          dterm_notch_hz p = 0 ∧ dterm_notch_cutoff p = dterm_notch_cutoff p0).
Proof.
  intros Hhook Hlen Hp0. cbv zeta.
  rewrite validateAndFixConfig_pg.
  match goal with |- context [fixMotorConfig T ?s1] =>
    assert (Hafter : keeps notch_pairs s1 (fixVtx T
      (fixOsdTimers X T (fixDshot T (fixBeeper X T (pruneFeatures T
      (fixDshotBitbang T (fixLinkedModes X T (fixEscSensor X T (fixGpsRescue X T
      (fixFeedForward X T (fixRssi T (fixSoftSpi T (fixRxFeatures T
      (fixAlignments X T (fixPidProfileIndex T (fixActiveRateProfile T
      (fixBlackboxDevice T (fixLoopTime T (gyroMpuDetectionResult_sensor w)
      (fixSyncDenominators T (gyroConfigMutable (fixGyroFilters T)
      (fixDynamicFilter X T (gyro_targetLooptime w) (fixMotorConfig T s1)))))))))))))))))))))))
      by through notch_step
  end.
  assert (Hbefore : keeps (@pidProfiles E) (pg w)
            (fixGpsSerial X T (fixSerialConfig X (fixMixerMode X T (pg w)))))
    by through keeps_step.
  match goal with |- context [runTargetValidation X T ?s] =>
    pose proof (notch_pairs_runTargetValidation s Hhook) as Hlast
  end.
  revert Hafter Hbefore Hlast.
  generalize (fixGpsSerial X T (fixSerialConfig X (fixMixerMode X T (pg w)))).
  intros s0 Hafter Hbefore. unfold keeps in Hbefore.
  rewrite <- Hbefore in Hlen, Hp0. clear Hbefore.
  pose proof (pidProfiles_fixPidProfiles s0 Hlen) as Hfix.
  revert Hafter Hfix. generalize (fixPidProfiles T s0). intros s1 Hafter Hfix.
  revert Hafter. match goal with |- keeps _ _ ?s2 -> _ => generalize s2 end.
  intros s2 Hafter. unfold keeps in Hafter.
  generalize (runTargetValidation X T s2). intros s3 Hlast.
  rewrite <- Hlast in Hafter. clear Hlast. unfold notch_pairs in Hafter.
  assert (Hi : (notch_pair <$> pidProfiles s3) !! i
               = Some (notch_pair (fixDtermFilters T p0))).
  { rewrite Hafter, Hfix, <- list_fmap_compose, list_lookup_fmap, Hp0.
    change (Some (notch_pair (fixPidProfile T p0))
            = Some (notch_pair (fixDtermFilters T p0))).
    by rewrite notch_pair_fixPidProfile. }
  rewrite list_lookup_fmap in Hi.
  destruct (pidProfiles s3 !! i) as [p|]; [|done].
  exists p. split; [done|]. cbn [fmap option_fmap option_map] in Hi.
  apply (inj Some) in Hi. rewrite fixDtermFilters_notch_pair in Hi.
  unfold notch_pair in Hi. injection Hi as Hhz Hcut.
  rewrite Hhz, Hcut. clear.
  unfold adjustFilterLimit.
  split; [reflexivity|]. split; [reflexivity|]. split; [|split].
  - destruct (_ >=? _) eqn:Hge; [lia|]. rewrite Z.geb_leb, Z.leb_gt in Hge. lia.
  - intros Hle. destruct (_ >=? _) eqn:Hge; [done|].
    rewrite Z.geb_leb, Z.leb_gt in Hge. lia.
  - intros Hmax Hviol.
    destruct (dterm_notch_cutoff p0 >? _) eqn:H1; [lia|].
    destruct (dterm_notch_hz p0 >? _) eqn:H2; [lia|].
    split; [|done].
    destruct (_ >=? _) eqn:Hge; [done|].
    rewrite Z.geb_leb, Z.leb_gt in Hge. lia.
Qed.

(** ** Receiver-input features *)

Ltac features_simpl :=
  cbn [features enabledFeatures featureConfig featureEnable featureDisable
       featureDisableAll featureConfigMutable set_enabledFeatures
       mixerConfigMutable serialConfigMutable with_pidProfiles pidProfilesMutable
       motorConfigMutable gyroConfigMutable pidConfigMutable blackboxConfigMutable
       systemConfigMutable compassConfigMutable with_gyroDeviceConfig
       gyroDeviceConfigMutable batteryConfigMutable rxConfigMutable failsafeConfigMutable
       with_modeActivationConditions beeperDevConfigMutable beeperConfigMutable
       osdConfigMutable vtxSettingsConfigMutable] in *.

Lemma featureIsEnabled_singleton f s :
  featureIsEnabled {[ f ]} s = bool_decide (f ∈ features s).
Proof.
  unfold featureIsEnabled, features. apply bool_decide_ext. split.
  - intros Hne. destruct (decide (f ∈ enabledFeatures (featureConfig s))); [done|].
    exfalso. apply Hne. set_solver.
  - set_solver.
Qed.

Lemma features_featureDisable mask s : features (featureDisable mask s) = features s ∖ mask.
Proof. reflexivity. Qed.

Lemma features_featureEnable mask s : features (featureEnable mask s) = features s ∪ mask.
Proof. reflexivity. Qed.

(** Later rules only ever clear features. *)
#[local] Instance shrinks_features_preorder : PreOrder (@shrinks_features E).
Proof.
  split.
  - intros s. by unfold shrinks_features.
  - intros s1 s2 s3. unfold shrinks_features. intros H12 H23. by transitivity (features s2).
Qed.

#[local] Instance keeps_feature_preorder f : PreOrder (@keeps_feature E f).
Proof. split; unfold keeps_feature; [by intros ?|intros ? ? ?; tauto]. Qed.

Ltac shrinks_base := unfold shrinks_features; features_simpl; set_solver.

(** A statement that binds an intermediate state: establish [Q] for the state
    bound, then continue from any state with [Q]. *)
Lemma hoare_let {A : Type} (Q P : A -> Prop) (a : A) (b : A -> A) :
  Q a -> (∀ x, Q x -> P (b x)) -> P (let x := a in b x).
Proof. intros Ha Hb. by apply Hb. Qed.

Lemma rx_resolved_shrink resolved fs fs' :
  fs' ⊆ fs -> rx_resolved resolved fs -> rx_resolved resolved fs'.
Proof. unfold rx_resolved. intros Hsub H f g ? ? ? ?. apply H; set_solver. Qed.

(** One of the conditionals of lines 279-299: if [f] is enabled, the other
    receiver-input features are disabled. *)
Lemma rx_resolved_step resolved f mask s :
  f ∉ mask -> RX_FEATURES ⊆ mask ∪ {[ f ]} ->
  rx_resolved resolved (features s) ->
  rx_resolved (resolved ∪ {[ f ]})
    (features (if featureIsEnabled {[ f ]} s then featureDisable mask s else s)).
Proof.
  intros Hf Hmask Hres. rewrite featureIsEnabled_singleton.
  case_bool_decide as Hin.
  - rewrite features_featureDisable. intros f' g Hf' Hin' Hg Hgin.
    apply elem_of_union in Hf' as [Hf'|Hf'].
    + eapply (rx_resolved_shrink _ (features s)); [|done|done|done|done|done].
      set_solver.
    + apply elem_of_singleton in Hf' as ->.
      assert (g ∈ mask ∪ {[f]}) by (by apply Hmask).
      clear Hres Hmask Hg. set_solver.
  - intros f' g Hf' Hin' Hg Hgin.
    apply elem_of_union in Hf' as [Hf'|Hf']; [by eapply Hres|].
    apply elem_of_singleton in Hf' as ->. done.
Qed.

Lemma rx_resolved_at_most_one fs :
  rx_resolved {[ FEATURE_RX_PPM; FEATURE_RX_MSP; FEATURE_RX_SERIAL;
                 FEATURE_RX_PARALLEL_PWM ]} fs ->
  at_most_one_rx fs.
Proof.
  intros Hres f g Hf Hg Hfin Hgin.
  destruct (decide (f = FEATURE_RX_SPI)) as [->|Hfs].
  - destruct (decide (g = FEATURE_RX_SPI)) as [->|Hgs]; [done|].
    apply (Hres g); [|done|done|done]. unfold RX_FEATURES in Hg. set_solver.
  - symmetry. apply (Hres f); [|done|done|done]. unfold RX_FEATURES in Hf. set_solver.
Qed.

(** [hoare_step Q]: at the outermost [let] of the goal, establish [Q] for the
    state it binds and continue from an arbitrary state with [Q]. *)
Ltac hoare_step Q :=
  lazymatch goal with
  | |- context G [let x := ?a in @?b x] =>
      let P := constr:(λ y : pgStore E, ltac:(let g := context G [y] in exact g)) in
      refine (hoare_let Q P a b _ _); cbv beta
  end.

(** After lines 275-299 at most one receiver-input feature is enabled. *)
Lemma fixRxFeatures_at_most_one s : at_most_one_rx (features (fixRxFeatures T s)).
Proof.
  cbv beta delta [fixRxFeatures].
  hoare_step (λ _ : pgStore E, True); [done|]. intros s1 _.
  hoare_step (λ x : pgStore E, rx_resolved {[ FEATURE_RX_PPM ]} (features x)).
  { replace ({[FEATURE_RX_PPM]} : featureMask)
      with ((∅ : featureMask) ∪ {[FEATURE_RX_PPM]}) by set_solver.
    apply rx_resolved_step; [set_solver|unfold RX_FEATURES; set_solver|].
    intros f g Hf. set_solver. }
  intros s2 H2.
  hoare_step (λ x : pgStore E, rx_resolved {[ FEATURE_RX_PPM; FEATURE_RX_MSP ]} (features x)).
  { apply rx_resolved_step; [set_solver|unfold RX_FEATURES; set_solver|done]. }
  intros s3 H3.
  hoare_step (λ x : pgStore E, rx_resolved {[ FEATURE_RX_PPM; FEATURE_RX_MSP; FEATURE_RX_SERIAL ]}
                     (features x)).
  { apply rx_resolved_step; [set_solver|unfold RX_FEATURES; set_solver|done]. }
  intros s4 H4.
  hoare_step (λ x : pgStore E, rx_resolved {[ FEATURE_RX_PPM; FEATURE_RX_MSP; FEATURE_RX_SERIAL ]}
                     (features x)).
  { destruct (_ && _); [|done].
    eapply rx_resolved_shrink; [|exact H4]. rewrite features_featureDisable. set_solver. }
  intros s5 H5.
  apply rx_resolved_at_most_one.
  apply rx_resolved_step; [set_solver|unfold RX_FEATURES; set_solver|done].
Qed.

(** With no receiver-input feature on entry, lines 275-299 enable the default
    one and change nothing else. *)
Lemma fixRxFeatures_default s :
  features s ∩ RX_FEATURES = ∅ ->
  features (fixRxFeatures T s) = features s ∪ {[ DEFAULT_RX_FEATURE T ]}.
Proof.
  intros Hnone.
  assert (Hrx : ∀ f, f ∈ RX_FEATURES -> f ∉ features s) by set_solver.
  assert (Hstep : ∀ f mask (x : pgStore E),
    f ∈ RX_FEATURES -> f ∉ mask -> mask ⊆ RX_FEATURES ->
    features x = features s ∪ {[ DEFAULT_RX_FEATURE T ]} ->
    features (if featureIsEnabled {[ f ]} x then featureDisable mask x else x)
    = features s ∪ {[ DEFAULT_RX_FEATURE T ]}).
  { intros f mask x Hf Hfm Hmask Hx. rewrite featureIsEnabled_singleton.
    case_bool_decide as Hin; [|done].
    rewrite features_featureDisable, Hx. rewrite Hx in Hin.
    assert (f = DEFAULT_RX_FEATURE T) as <- by (specialize (Hrx f Hf); set_solver).
    assert (∀ g, g ∈ mask -> g ∉ features s) by (intros g Hg; apply Hrx; set_solver).
    clear Hrx Hnone Hmask Hf. set_solver. }
  cbv beta delta [fixRxFeatures].
  hoare_step (λ x : pgStore E, features x = features s ∪ {[ DEFAULT_RX_FEATURE T ]}).
  { rewrite !featureIsEnabled_singleton.
    rewrite !bool_decide_eq_false_2 by (apply Hrx; unfold RX_FEATURES; set_solver).
    done. }
  intros s1 H1.
  hoare_step (λ x : pgStore E, features x = features s ∪ {[ DEFAULT_RX_FEATURE T ]}).
  { apply Hstep; [unfold RX_FEATURES; set_solver..|done]. }
  intros s2 H2.
  hoare_step (λ x : pgStore E, features x = features s ∪ {[ DEFAULT_RX_FEATURE T ]}).
  { apply Hstep; [unfold RX_FEATURES; set_solver..|done]. }
  intros s3 H3.
  hoare_step (λ x : pgStore E, features x = features s ∪ {[ DEFAULT_RX_FEATURE T ]}).
  { apply Hstep; [unfold RX_FEATURES; set_solver..|done]. }
  intros s4 H4.
  hoare_step (λ x : pgStore E, features x = features s ∪ {[ DEFAULT_RX_FEATURE T ]}).
  { destruct (USE_RX_SPI T); [|done]. cbn [andb].
    apply Hstep; [unfold RX_FEATURES; set_solver..|done]. }
  intros s5 H5.
  apply Hstep; [unfold RX_FEATURES; set_solver..|done].
Qed.

(** Lines 301-315 leave a receiver-input feature alone unless soft SPI is in
    use and the feature is PPM or parallel PWM. *)
Lemma fixSoftSpi_keeps_rx f s :
  f ∈ RX_FEATURES ->
  ¬ (USE_SOFTSPI T = true ∧ FEATURE_SOFTSPI ∈ features s
     ∧ (f = FEATURE_RX_PPM ∨ f = FEATURE_RX_PARALLEL_PWM)) ->
  keeps_feature f s (fixSoftSpi T s).
Proof.
  intros Hf Hconflict Hin. unfold fixSoftSpi.
  rewrite featureIsEnabled_singleton.
  destruct (USE_SOFTSPI T); [|done]. cbn [andb].
  case_bool_decide as Hspi; [|done].
  assert (f ≠ FEATURE_RX_PPM ∧ f ≠ FEATURE_RX_PARALLEL_PWM) as [? ?] by tauto.
  unfold RX_FEATURES in Hf. clear Hconflict.
  repeat case_match; features_simpl; set_solver.
Qed.

Ltac keeps_feature_base :=
  first [ congruence
        | unfold keeps_feature; features_simpl; set_solver ].

(** The rules after the soft-SPI rule leave a receiver-input feature alone if
    its driver is compiled in. *)
Lemma later_rules_keep_rx f (s : pgStore E) :
  f ∈ RX_FEATURES -> rx_compiled T f = true ->
  keeps_feature f s
    (fixVtx T (fixOsdTimers X T (fixDshot T (fixBeeper X T (pruneFeatures T
      (fixDshotBitbang T (fixLinkedModes X T (fixEscSensor X T (fixGpsRescue X T
        (fixFeedForward X T (fixRssi T s))))))))))).
Proof.
  intros Hf Hcompiled. unfold RX_FEATURES in Hf.
  assert (f = FEATURE_RX_PPM ∨ f = FEATURE_RX_PARALLEL_PWM ∨ f = FEATURE_RX_SERIAL
          ∨ f = FEATURE_RX_MSP ∨ f = FEATURE_RX_SPI) as Hcases by set_solver.
  clear Hf.
  destruct Hcases as [->|[->|[->|[->| ->]]]]; cbn [rx_compiled] in Hcompiled;
    through ltac:(unfold_steps; walk keeps_feature_base).
Qed.

(** The rules before the receiver-input rule do not touch the receiver-input
    features nor the soft-SPI feature. *)
Lemma earlier_rules_keep_rx (s : pgStore E) looptime sensor :
  keeps (λ s : pgStore E, features s ∩ (RX_FEATURES ∪ {[ FEATURE_SOFTSPI ]})) s
    (fixAlignments X T (fixPidProfileIndex T (fixActiveRateProfile T
      (fixBlackboxDevice T (fixLoopTime T sensor (fixSyncDenominators T
        (gyroConfigMutable (fixGyroFilters T) (fixDynamicFilter X T looptime
          (fixMotorConfig T (fixPidProfiles T (fixGpsSerial X T
            (fixSerialConfig X (fixMixerMode X T s))))))))))))).
Proof.
  through ltac:(unfold_steps;
                walk ltac:(unfold keeps, RX_FEATURES; features_simpl; set_solver)).
Qed.

Lemma later_rules_shrink (s : pgStore E) :
  shrinks_features s
    (fixVtx T (fixOsdTimers X T (fixDshot T (fixBeeper X T (pruneFeatures T
      (fixDshotBitbang T (fixLinkedModes X T (fixEscSensor X T (fixGpsRescue X T
        (fixFeedForward X T (fixRssi T (fixSoftSpi T s)))))))))))).
Proof. through ltac:(unfold_steps; walk shrinks_base). Qed.

(** The hook of lines 547-549 runs last. *)
Lemma rx_features_runTargetValidation s :
  (TARGET_VALIDATECONFIG T = true ->
   ∀ s, features (targetValidateConfiguration X s) ∩ RX_FEATURES
        = features s ∩ RX_FEATURES) ->
  features (runTargetValidation X T s) ∩ RX_FEATURES = features s ∩ RX_FEATURES.
Proof.
  intros Hhook. unfold runTargetValidation.
  destruct (TARGET_VALIDATECONFIG T); [by apply Hhook|done].
Qed.

Lemma rx_feature_runTargetValidation s :
  (TARGET_VALIDATECONFIG T = true ->
   ∀ s, features (targetValidateConfiguration X s) ∩ RX_FEATURES
        = features s ∩ RX_FEATURES) ->
  ∀ f, f ∈ RX_FEATURES -> f ∈ features (runTargetValidation X T s) <-> f ∈ features s.
Proof.
  intros Hhook f Hf. pose proof (rx_features_runTargetValidation s Hhook) as Hlast.
  revert Hlast. generalize (runTargetValidation X T s). intros s' Hlast.
  clear -Hlast Hf. set_solver.
Qed.

(** C2 (as amended).  On a build without a target-specific validation hook,
    or whose hook leaves the receiver-input feature bits as they are: after
    [validateAndFixConfig] at most one receiver-input feature is enabled.  If
    none was enabled on entry, the only one that can be enabled on return is
    the default, and the default is enabled on return when its driver is
    compiled in and it is not PPM or parallel PWM on a soft-SPI build with the
    soft-SPI feature set, the case in which lines 301-315 clear it again. *)
Theorem rx_feature_exclusive w :
  (TARGET_VALIDATECONFIG T = true ->
   ∀ s, features (targetValidateConfiguration X s) ∩ RX_FEATURES
        = features s ∩ RX_FEATURES) ->
  let fs := features (pg w) in
  let fs' := features (pg (validateAndFixConfig X T w)) in
  let default := DEFAULT_RX_FEATURE T in
  at_most_one_rx fs'
  ∧ (fs ∩ RX_FEATURES = ∅ -> fs' ∩ RX_FEATURES ⊆ {[ default ]})
  ∧ (fs ∩ RX_FEATURES = ∅ ->
     default ∈ RX_FEATURES ->
     rx_compiled T default = true ->
     ¬ (USE_SOFTSPI T = true ∧ FEATURE_SOFTSPI ∈ fs
        ∧ (default = FEATURE_RX_PPM ∨ default = FEATURE_RX_PARALLEL_PWM)) ->
     default ∈ fs').
Proof.
  intros Hhook fs fs' default. subst fs fs' default.
  rewrite validateAndFixConfig_pg.
  match goal with |- context [runTargetValidation X T ?s] =>
    pose proof (rx_feature_runTargetValidation s Hhook) as Hin5;
    revert Hin5; generalize (runTargetValidation X T s)
  end.
  intros s5 Hin5. revert Hin5.
  pose proof (earlier_rules_keep_rx (pg w) (gyro_targetLooptime w)
                (gyroMpuDetectionResult_sensor w)) as Hbefore.
  revert Hbefore.
  match goal with |- keeps _ _ ?s1 -> _ => generalize s1 end.
  intros s1 Hbefore. unfold keeps in Hbefore.
  pose proof (fixRxFeatures_at_most_one s1) as Hone.
  pose proof (fixRxFeatures_default s1) as Hdefault.
  revert Hone Hdefault. generalize (fixRxFeatures T s1). intros s2 Hone Hdefault.
  pose proof (later_rules_shrink s2) as Hshrink.
  pose proof (λ f, fixSoftSpi_keeps_rx f s2) as Hspi.
  pose proof (λ f, later_rules_keep_rx f (fixSoftSpi T s2)) as Hlater.
  revert Hshrink Hspi Hlater.
  generalize (fixSoftSpi T s2). intros s3.
  match goal with |- shrinks_features _ ?s4 -> _ => generalize s4 end.
  intros s4 Hshrink Hspi Hlater.
  unfold shrinks_features, keeps_feature in *.
  intros Hin5.
  cut (at_most_one_rx (features s4)
       ∧ (features (pg w) ∩ RX_FEATURES = ∅ ->
          features s4 ∩ RX_FEATURES ⊆ {[ DEFAULT_RX_FEATURE T ]})
       ∧ (features (pg w) ∩ RX_FEATURES = ∅ ->
          DEFAULT_RX_FEATURE T ∈ RX_FEATURES ->
          rx_compiled T (DEFAULT_RX_FEATURE T) = true ->
          ¬ (USE_SOFTSPI T = true ∧ FEATURE_SOFTSPI ∈ features (pg w)
             ∧ (DEFAULT_RX_FEATURE T = FEATURE_RX_PPM
                ∨ DEFAULT_RX_FEATURE T = FEATURE_RX_PARALLEL_PWM)) ->
          DEFAULT_RX_FEATURE T ∈ features s4)).
  { intros (H1 & H2 & H3). split; [|split].
    - intros f g Hf Hg Hfin Hgin.
      apply H1; [done|done|by apply Hin5|by apply Hin5].
    - intros Hentry f Hf. apply elem_of_intersection in Hf as [Hf5 Hfrx].
      apply (H2 Hentry). apply elem_of_intersection. split; [by apply Hin5|done].
    - intros Hentry Hrx Hc Hconflict. apply Hin5; [done|]. by apply H3. }
  clear Hin5 s5.
  assert (Hnone : features (pg w) ∩ RX_FEATURES = ∅ -> features s1 ∩ RX_FEATURES = ∅).
  { intros Hnone. clear -Hnone Hbefore.
    unfold RX_FEATURES in *. set_solver. }
  split; [|split].
  - intros f g Hf Hg Hfin Hgin. apply Hone; auto.
  - intros Hentry. specialize (Hdefault (Hnone Hentry)).
    apply Hnone in Hentry.
    intros f Hf. apply elem_of_intersection in Hf as [Hf4 Hfrx].
    apply Hshrink in Hf4. rewrite Hdefault in Hf4.
    apply elem_of_union in Hf4 as [Hf1|Hfd]; [|done].
    exfalso. clear -Hentry Hf1 Hfrx. set_solver.
  - intros Hentry Hrx Hcompiled Hconflict.
    specialize (Hdefault (Hnone Hentry)).
    apply Hlater; [done|done|]. apply Hspi; [done| |].
    + intros (Hsoft & Hin & Hd). apply Hconflict. split; [done|]. split; [|done].
      rewrite Hdefault in Hin. apply elem_of_union in Hin as [Hin|Hin].
      * assert (FEATURE_SOFTSPI ∈ features s1 ∩ (RX_FEATURES ∪ {[FEATURE_SOFTSPI]}))
          as Hin' by (apply elem_of_intersection; split; [done|set_solver]).
        rewrite Hbefore in Hin'. by apply elem_of_intersection in Hin' as [? _].
      * apply elem_of_singleton in Hin. destruct Hd as [Hd|Hd]; congruence.
    + rewrite Hdefault. set_solver.
Qed.

(** ** The loop-time rule *)

Lemma Qltb_lt x y : Qltb x y = true <-> (x < y)%Q.
Proof.
  unfold Qltb. rewrite negb_true_iff, <- not_true_iff_false, Qle_bool_iff.
  split; [apply Qnot_le_lt|apply Qlt_not_le].
Qed.




(** Truncation never moves away from zero. *)
Lemma float_to_int_le q : (0 <= q)%Q -> (inject_Z (float_to_int q) <= q)%Q.
Proof.
  destruct q as [n d]. unfold float_to_int, Qle. cbn. rewrite !Z.mul_1_r.
  intros Hn. rewrite Z.mul_comm. apply Z.mul_quot_le; lia.
Qed.


Lemma fixGyroFilters_keeps g :
  keeps (λ g, (gyro_hardware_lpf g, gyro_sync_denom g)) g (fixGyroFilters T g).
Proof. cbv beta delta [fixGyroFilters]. walk keeps_base. Qed.

(** What lines 584-591 do to the inputs of the loop-time rule. *)
Lemma fixSyncDenominators_timing s proto uns lpf sync denom :
  timing s = (proto, uns, lpf, sync, denom) ->
  timing (fixSyncDenominators T s)
  = (proto, uns, lpf,
     (let sync := if bool_decide (lpf = GYRO_HARDWARE_LPF_1KHZ_SAMPLE) then 1 else sync in
      if STM32F1 T then Z.max sync 3 else sync),
     if bool_decide (lpf = GYRO_HARDWARE_LPF_1KHZ_SAMPLE) then 1 else denom).
Proof.
  unfold timing, fixSyncDenominators. intros [= <- <- <- <- <-].
  destruct (bool_decide _), (STM32F1 T); reflexivity.
Qed.

(** What lines 642-654 do to the inputs of the loop-time rule. *)
Lemma fixLoopTime_timing sensor s proto uns lpf sync denom :
  timing s = (proto, uns, lpf, sync, denom) ->
  timing (fixLoopTime T sensor s)
  = (proto, uns, lpf, sync,
     if uns then denom
     else if Qltb (samplingTime sensor lpf * inject_Z sync * inject_Z denom)
                  (motorUpdateRestriction T proto)
          then Z.max denom
                 (constrain
                    (float_div_to_int T (motorUpdateRestriction T proto)
                       (samplingTime sensor lpf * inject_Z sync))
                    1 (MAX_PID_PROCESS_DENOM T))
          else denom).
Proof.
  unfold timing, fixLoopTime. intros [= <- <- <- <- <-].
  destruct (useUnsyncedPwm (dev (motorConfig s))) eqn:Hu;
    [destruct (_ && _)|destruct (Qltb _ _)]; cbn; rewrite ?Hu; reflexivity.
Qed.

Ltac timing_base :=
  first [ unfold keeps, timing; reflexivity
        | unfold keeps, timing;
          cbn [gyroConfigMutable gyroConfig motorConfig pidConfig];
          match goal with
          | |- context [fixGyroFilters T ?g] =>
              pose proof (fixGyroFilters_keeps g) as Hg; unfold keeps in Hg;
              injection Hg as -> ->; reflexivity
          end ].

(** The inputs of the loop-time rule after the rewrites of
    [validateAndFixGyroConfig]. *)
Lemma gyro_rules_timing s looptime sensor proto uns lpf sync denom :
  timing s = (proto, uns, lpf, sync, denom) ->
  let sync' := (let sync := if bool_decide (lpf = GYRO_HARDWARE_LPF_1KHZ_SAMPLE)
                            then 1 else sync in
                if STM32F1 T then Z.max sync 3 else sync) in
  let denom1 := if bool_decide (lpf = GYRO_HARDWARE_LPF_1KHZ_SAMPLE) then 1 else denom in
  let sampling := samplingTime sensor lpf in
  timing (fixPidProfileIndex T (fixActiveRateProfile T (fixBlackboxDevice T
            (fixLoopTime T sensor (fixSyncDenominators T
               (gyroConfigMutable (fixGyroFilters T)
                  (fixDynamicFilter X T looptime s)))))))
  = (proto, uns, lpf, sync',
     if uns then denom1
     else if Qltb (sampling * inject_Z sync' * inject_Z denom1)
                  (motorUpdateRestriction T proto)
          then Z.max denom1
                 (constrain
                    (float_div_to_int T (motorUpdateRestriction T proto)
                       (sampling * inject_Z sync'))
                    1 (MAX_PID_PROCESS_DENOM T))
          else denom1).
Proof.
  intros Htiming sync' denom1 sampling.
  assert (H1 : keeps timing s
                 (gyroConfigMutable (fixGyroFilters T) (fixDynamicFilter X T looptime s)))
    by through ltac:(unfold_steps; walk timing_base).
  revert H1. match goal with |- keeps _ _ ?s1 -> _ => generalize s1 end.
  intros s1 H1. unfold keeps in H1. rewrite Htiming in H1.
  apply fixSyncDenominators_timing in H1.
  apply (fixLoopTime_timing sensor) in H1.
  revert H1. generalize (fixLoopTime T sensor (fixSyncDenominators T s1)).
  intros s3 H3.
  assert (H4 : keeps timing s3
                 (fixPidProfileIndex T (fixActiveRateProfile T (fixBlackboxDevice T s3))))
    by through ltac:(unfold_steps; walk timing_base).
  unfold keeps in H4. by rewrite H4, H3.
Qed.

Lemma timing_inv s proto uns lpf sync denom :
  timing s = (proto, uns, lpf, sync, denom) ->
  motorPwmProtocol (dev (motorConfig s)) = proto
  ∧ useUnsyncedPwm (dev (motorConfig s)) = uns
  ∧ gyro_hardware_lpf (gyroConfig s) = lpf
  ∧ gyro_sync_denom (gyroConfig s) = sync
  ∧ pid_process_denom (pidConfig s) = denom.
Proof. unfold timing. by intros [= -> -> -> -> ->]. Qed.


(** ** A second validation pass *)

(** Whether lines 495-505 take the motor protocol for a DSHOT protocol. *)
Lemma fixDshot_timing s proto uns lpf sync denom :
  timing s = (proto, uns, lpf, sync, denom) ->
  timing (fixDshot T s)
  = (proto,
     (if USE_DSHOT T
         && match proto with
            | PWM_TYPE_PROSHOT1000 | PWM_TYPE_DSHOT600 | PWM_TYPE_DSHOT300
            | PWM_TYPE_DSHOT150 => true
            | _ => false
            end
      then false else uns),
     lpf, sync, denom).
Proof.
  unfold timing, fixDshot. intros [= <- <- <- <- <-].
  destruct (USE_DSHOT T); [|reflexivity]. cbn [andb].
  destruct (motorPwmProtocol (dev (motorConfig s))) eqn:Hp;
    cbn [motorConfigMutable motorConfig with_dev dev set_useUnsyncedPwm
         useUnsyncedPwm motorPwmProtocol];
    destruct (USE_DSHOT_TELEMETRY T && _); cbn; rewrite ?Hp; reflexivity.
Qed.

(** The inputs of the loop-time rule after [validateAndFixConfig]: the gyro
    rules run first, with the unsynced-PWM flag as found; the flag is cleared
    for DSHOT protocols only afterwards. *)
Lemma validateAndFixConfig_timing w proto uns lpf sync denom :
  TARGET_VALIDATECONFIG T = false ->
  timing (pg w) = (proto, uns, lpf, sync, denom) ->
  let sync' := (let sync := if bool_decide (lpf = GYRO_HARDWARE_LPF_1KHZ_SAMPLE)
                            then 1 else sync in
                if STM32F1 T then Z.max sync 3 else sync) in
  let denom1 := if bool_decide (lpf = GYRO_HARDWARE_LPF_1KHZ_SAMPLE) then 1 else denom in
  let sampling := samplingTime (gyroMpuDetectionResult_sensor w) lpf in
  timing (pg (validateAndFixConfig X T w))
  = (proto,
     (if USE_DSHOT T
         && match proto with
            | PWM_TYPE_PROSHOT1000 | PWM_TYPE_DSHOT600 | PWM_TYPE_DSHOT300
            | PWM_TYPE_DSHOT150 => true
            | _ => false
            end
      then false else uns),
     lpf, sync',
     if uns then denom1
     else if Qltb (sampling * inject_Z sync' * inject_Z denom1)
                  (motorUpdateRestriction T proto)
          then Z.max denom1
                 (constrain
                    (float_div_to_int T (motorUpdateRestriction T proto)
                       (sampling * inject_Z sync'))
                    1 (MAX_PID_PROCESS_DENOM T))
          else denom1).
Proof.
  intros Htarget Htiming sync' denom1 sampling.
  rewrite validateAndFixConfig_pg, (runTargetValidation_off _ Htarget).
  assert (H1 : keeps timing (pg w)
                 (fixMotorConfig T (fixPidProfiles T (fixGpsSerial X T
                    (fixSerialConfig X (fixMixerMode X T (pg w)))))))
    by through ltac:(unfold_steps; walk timing_base).
  revert H1. match goal with |- keeps _ _ ?s1 -> _ => generalize s1 end.
  intros s1 H1. unfold keeps in H1. rewrite Htiming in H1.
  apply (gyro_rules_timing _ (gyro_targetLooptime w) (gyroMpuDetectionResult_sensor w))
    in H1.
  cbv zeta in H1. fold sync' denom1 sampling in H1. revert H1.
  match goal with |- timing ?s2 = _ -> _ => generalize s2 end.
  intros s2 H2.
  assert (H3 : keeps timing s2
                 (fixBeeper X T (pruneFeatures T (fixDshotBitbang T (fixLinkedModes X T
                    (fixEscSensor X T (fixGpsRescue X T (fixFeedForward X T (fixRssi T
                       (fixSoftSpi T (fixRxFeatures T (fixAlignments X T s2))))))))))))
    by through ltac:(unfold_steps; walk timing_base).
  revert H3. match goal with |- keeps _ _ ?s3 -> _ => generalize s3 end.
  intros s3 H3. unfold keeps in H3. rewrite H2 in H3.
  apply fixDshot_timing in H3. revert H3. generalize (fixDshot T s3).
  intros s4 H4.
  assert (H5 : keeps timing s4 (fixVtx T (fixOsdTimers X T s4)))
    by through ltac:(unfold_steps; walk timing_base).
  unfold keeps in H5. by rewrite H5, H4.
Qed.

(** C3.  [validateAndFixConfig] is not idempotent: a second pass can change
    what the first one left.  On a DSHOT build, with
    DSHOT150 selected, unsynced PWM set, the gyro at its default 125 us
    sampling and both divisors 1, the first pass skips the loop-time repair
    (line 642 finds unsynced PWM) and then clears the unsynced flag (line
    509); the second pass therefore repairs the loop time and raises
    [pid_process_denom] from 1 to 2. *)
Theorem validateAndFixConfig_second_pass_differs w lpf n :
  USE_DSHOT T = true ->
  TARGET_VALIDATECONFIG T = false ->
  STM32F1 T = false ->
  2 <= MAX_PID_PROCESS_DENOM T ->
  gyroMpuDetectionResult_sensor w = MPU_SENSOR_OTHER n ->
  lpf ≠ GYRO_HARDWARE_LPF_1KHZ_SAMPLE ->
  timing (pg w) = (PWM_TYPE_DSHOT150, true, lpf, 1, 1) ->
  let once := validateAndFixConfig X T w in
  let twice := validateAndFixConfig X T once in
  pid_process_denom (pidConfig (pg once)) = 1
  ∧ pid_process_denom (pidConfig (pg twice)) = 2
  ∧ twice ≠ once.
Proof.
  intros Hdshot Htarget Hf1 Hmax Hsensor Hlpf Htiming once twice.
  pose proof (validateAndFixConfig_timing w _ _ _ _ _ Htarget Htiming) as H1.
  cbv zeta in H1. rewrite Hdshot, Hf1, (bool_decide_eq_false_2 _ Hlpf) in H1.
  cbn [andb] in H1. fold once in H1.
  pose proof (validateAndFixConfig_timing once _ _ _ _ _ Htarget H1) as H2.
  cbv zeta in H2. rewrite Hdshot, Hf1, (bool_decide_eq_false_2 _ Hlpf) in H2.
  cbn [andb] in H2. fold twice in H2.
  destruct (same_runtime_validateAndFixConfig w) as (_ & Hs & _).
  fold once in Hs. rewrite Hs, Hsensor in H2.
  assert (Hsampling : samplingTime (MPU_SENSOR_OTHER n) lpf = (125 # 1000000)%Q).
  { unfold samplingTime. by rewrite (bool_decide_eq_false_2 _ Hlpf). }
  rewrite Hsampling in H2.
  unfold motorUpdateRestriction in H2. rewrite Hdshot in H2.
  change (Qltb ((125 # 1000000) * inject_Z 1 * inject_Z 1) (250 # 1000000)) with true
    in H2.
  change (float_div_to_int T (250 # 1000000) ((125 # 1000000) * inject_Z 1)) with 2
    in H2.
  assert (Hc : constrain 2 1 (MAX_PID_PROCESS_DENOM T) = 2)
    by (unfold constrain; repeat case_match; lia).
  rewrite Hc in H2. change (Z.max 1 2) with 2 in H2.
  apply timing_inv in H1 as (_ & _ & _ & _ & H1).
  apply timing_inv in H2 as (_ & _ & _ & _ & H2).
  split; [done|]. split; [done|].
  intros Heq. rewrite Heq in H2. rewrite H1 in H2. discriminate H2.
Qed.

(** ** The cell-count switch *)

Lemma scan_order_length n current : length (scan_order n current) = (n - 1)%nat.
Proof. unfold scan_order. by rewrite length_fmap, length_seq. Qed.

Lemma scan_order_lookup n current j :
  (j < n - 1)%nat -> scan_order n current !! j = Some ((current + S j) mod n)%nat.
Proof.
  intros Hj. unfold scan_order. rewrite list_lookup_fmap, lookup_seq_lt by done. done.
Qed.

Lemma mod_add_lt n current k :
  (current < n)%nat -> (1 ≤ k < n)%nat ->
  ((current + k) mod n < n)%nat ∧ ((current + k) mod n)%nat ≠ current.
Proof.
  intros Hc Hk. split; [apply Nat.mod_upper_bound; lia|].
  destruct (decide (current + k < n)%nat) as [Hlt|Hge].
  - rewrite Nat.mod_small by done. lia.
  - replace (current + k)%nat with ((current + k - n) + 1 * n)%nat by lia.
    rewrite Nat.Div0.mod_add, Nat.mod_small by lia. lia.
Qed.

Lemma mod_add_full n current : (current < n)%nat -> ((current + n) mod n = current)%nat.
Proof.
  intros Hc. replace (current + n)%nat with (current + 1 * n)%nat by lia.
  by rewrite Nat.Div0.mod_add, Nat.mod_small.
Qed.


(** The loop of lines 777-787, entered at the [k]-th slot after the current
    one, computes [scan_list] over the rest of the scan order. *)
Lemma scanPidProfiles_scan_list s cellCount rest :
  ∀ k fuel matching,
    (pidProfileIndex (systemConfig s) < PID_PROFILE_COUNT T)%nat ->
    length (pidProfiles s) = PID_PROFILE_COUNT T ->
    (1 ≤ k ≤ PID_PROFILE_COUNT T)%nat ->
    drop (k - 1) (scan_order (PID_PROFILE_COUNT T) (pidProfileIndex (systemConfig s)))
    = rest ->
    (length rest ≤ fuel)%nat ->
    scanPidProfiles T fuel s cellCount
      ((pidProfileIndex (systemConfig s) + k) mod PID_PROFILE_COUNT T)%nat matching
    = Some (scan_list T (profile_tags s) cellCount rest matching).
Proof.
  set (n := PID_PROFILE_COUNT T). set (current := pidProfileIndex (systemConfig s)).
  induction rest as [|i rest IH]; intros k fuel matching Hc Hlen Hk Hdrop Hfuel.
  - assert (k = n) as ->.
    { apply (f_equal length) in Hdrop. rewrite length_drop, scan_order_length in Hdrop.
      cbn in Hdrop. lia. }
    rewrite mod_add_full by done.
    destruct fuel; cbn; fold current; by rewrite bool_decide_eq_false_2 by tauto.
  - assert (Hkn : (k < n)%nat).
    { apply (f_equal length) in Hdrop. rewrite length_drop, scan_order_length in Hdrop.
      cbn in Hdrop. lia. }
    assert (Hi : i = ((current + k) mod n)%nat).
    { apply (f_equal (λ l, l !! 0%nat)) in Hdrop. rewrite lookup_drop in Hdrop.
      rewrite scan_order_lookup in Hdrop by lia. cbn in Hdrop.
      replace (S (k - 1 + 0)) with k in Hdrop by lia. by injection Hdrop. }
    destruct (mod_add_lt n current k Hc) as [Hin Hne]; [lia|]. rewrite <- Hi in *.
    destruct fuel as [|fuel]; [cbn in Hfuel; lia|].
    cbn [scanPidProfiles scan_list]. fold current n.
    rewrite bool_decide_eq_true_2 by done.
    destruct (lookup_lt_is_Some_2 (pidProfiles s) i) as [p Hp]; [lia|].
    rewrite Hp.
    assert (Htag : profile_tags s !! i = Some (auto_profile_cell_count p))
      by (unfold profile_tags; by rewrite list_lookup_fmap, Hp).
    rewrite !Htag.
    destruct (decide (auto_profile_cell_count p = cellCount)) as [Heq|Hneq].
    + rewrite !bool_decide_eq_true_2; [done|by rewrite Heq|done].
    + rewrite (bool_decide_eq_false_2 (auto_profile_cell_count p = cellCount)) by done.
      rewrite (bool_decide_eq_false_2 (Some _ = Some cellCount)) by congruence.
      replace ((i + 1) mod n)%nat with ((current + (k + 1)) mod n)%nat.
      2:{ rewrite Hi, Nat.Div0.add_mod_idemp_l. f_equal. lia. }
      rewrite (IH (k + 1)%nat fuel); [|done|done|lia| |cbn in Hfuel; lia].
      * f_equal. f_equal.
        destruct (matching <? 0); [|done]. cbn [andb].
        repeat case_bool_decide; congruence.
      * replace (k + 1 - 1)%nat with (S (k - 1)) by lia.
        apply (f_equal (drop 1)) in Hdrop. rewrite drop_drop in Hdrop.
        replace (k - 1 + 1)%nat with (S (k - 1)) in Hdrop by lia. exact Hdrop.
Qed.

Lemma scan_list_list_find tags cellCount order :
  ∀ matching,
    scan_list T tags cellCount order matching =
    match list_find (λ i, tags !! i = Some cellCount) order with
    | Some (_, i) => Z.of_nat i
    | None =>
        if matching <? 0 then
          match list_find (λ i, tags !! i = Some (AUTO_PROFILE_CELL_COUNT_STAY T)) order with
          | Some (_, i) => Z.of_nat i
          | None => matching
          end
        else matching
    end.
Proof.
  induction order as [|i order IH]; intros matching.
  - cbn. by destruct (matching <? 0).
  - cbn [scan_list list_find]. case_bool_decide as Hexact.
    + by rewrite decide_True by done.
    + rewrite (decide_False (P := tags !! i = Some cellCount)) by done.
      rewrite IH. destruct (list_find (λ i, tags !! i = Some cellCount) order) as [[? ?]|];
        [done|]. cbn [fmap option_fmap option_map].
      destruct (matching <? 0) eqn:Hneg; cbn [andb]; [|by rewrite Hneg].
      case_bool_decide as Hstay.
      * rewrite decide_True by done.
        assert ((Z.of_nat i <? 0) = false) as -> by (apply Z.ltb_ge; lia). done.
      * rewrite (decide_False (P := tags !! i = Some _)) by done. rewrite Hneg.
        by destruct (list_find _ order) as [[? ?]|].
Qed.

Lemma changePidProfileFromCellCount_switch fuel cellCount w :
  (pidProfileIndex (systemConfig (pg w)) < PID_PROFILE_COUNT T)%nat ->
  length (pidProfiles (pg w)) = PID_PROFILE_COUNT T ->
  (currentPidProfile w < PID_PROFILE_COUNT T)%nat ->
  (PID_PROFILE_COUNT T - 1 ≤ fuel)%nat ->
  changePidProfileFromCellCount T fuel cellCount w
  = Some (switch_by_cell_count T (cellCount mod 256) w).
Proof.
  intros Hc Hlen Hcur Hfuel.
  unfold changePidProfileFromCellCount, switch_by_cell_count. cbv zeta.
  generalize (cellCount mod 256). clear cellCount. intros cellCount.
  destruct (lookup_lt_is_Some_2 (pidProfiles (pg w)) (currentPidProfile w)) as [cur Hp];
    [lia|].
  assert (Htag : profile_tags (pg w) !! currentPidProfile w
                 = Some (auto_profile_cell_count cur))
    by (unfold profile_tags; by rewrite list_lookup_fmap, Hp).
  rewrite Hp, Htag.
  destruct (decide (auto_profile_cell_count cur = cellCount
                    ∨ auto_profile_cell_count cur = AUTO_PROFILE_CELL_COUNT_STAY T))
    as [Hstay|Hgo].
  - rewrite (bool_decide_eq_true_2 (_ ∨ _)) by done.
    destruct Hstay as [H|H].
    + by rewrite (bool_decide_eq_true_2 _ H).
    + rewrite (bool_decide_eq_true_2 _ H). by rewrite orb_true_r.
  - rewrite (bool_decide_eq_false_2 (_ ∨ _)) by done.
    rewrite !bool_decide_eq_false_2 by tauto. cbn [orb].
    rewrite (scanPidProfiles_scan_list (pg w) cellCount
               (scan_order (PID_PROFILE_COUNT T) (pidProfileIndex (systemConfig (pg w))))
               1 fuel (-1) Hc Hlen);
      [| lia | done | by rewrite scan_order_length].
    rewrite scan_list_list_find. unfold scan_target. cbv zeta.
    destruct (list_find (λ i, profile_tags (pg w) !! i = Some cellCount) _) as [[? i]|].
    + assert ((Z.of_nat i >=? 0) = true) as -> by (apply Z.geb_le; lia). by rewrite Nat2Z.id.
    + cbn [Z.ltb Z.compare].
      destruct (list_find (λ i, profile_tags (pg w) !! i = Some _) _) as [[? i]|]; cbn.
      * assert ((Z.of_nat i >=? 0) = true) as -> by (apply Z.geb_le; lia). by rewrite Nat2Z.id.
      * done.
Qed.


(** The scan of lines 777-787 ends only by coming back to the active index or
    by finding a profile tagged with the cell count.  With an active index
    outside the array it cannot come back, so that, if no profile is tagged
    with the cell count, the loop runs for ever: it has not ended after any
    number of iterations. *)
Theorem cell_count_scan_needs_valid_index cellCount w :
  (PID_PROFILE_COUNT T ≤ pidProfileIndex (systemConfig (pg w)))%nat ->
  length (pidProfiles (pg w)) = PID_PROFILE_COUNT T ->
  (currentPidProfile w < PID_PROFILE_COUNT T)%nat ->
  0 <= cellCount < 256 ->
  profile_tags (pg w) !! currentPidProfile w ≠ Some cellCount ->
  profile_tags (pg w) !! currentPidProfile w ≠ Some (AUTO_PROFILE_CELL_COUNT_STAY T) ->
  (∀ j, profile_tags (pg w) !! j ≠ Some cellCount) ->
  ∀ fuel, changePidProfileFromCellCount T fuel cellCount w = None.
Proof.
  intros Hindex Hlen Hcur Hcells Hnot_count Hnot_stay Hnone fuel.
  assert (Hscan : ∀ fuel i matching, (i < PID_PROFILE_COUNT T)%nat ->
            scanPidProfiles T fuel (pg w) cellCount i matching = None).
  { clear fuel. induction fuel as [|fuel IH]; intros i matching Hi.
    - cbn. by rewrite bool_decide_eq_true_2 by lia.
    - cbn [scanPidProfiles]. rewrite bool_decide_eq_true_2 by lia.
      destruct (lookup_lt_is_Some_2 (pidProfiles (pg w)) i) as [p Hp]; [lia|].
      rewrite Hp. rewrite bool_decide_eq_false_2.
      + cbv zeta. apply IH. apply Nat.mod_upper_bound. lia.
      + intros Htag. apply (Hnone i). unfold profile_tags.
        by rewrite list_lookup_fmap, Hp, <- Htag. }
  unfold changePidProfileFromCellCount. rewrite (Z.mod_small cellCount 256) by done.
  cbv zeta.
  destruct (lookup_lt_is_Some_2 (pidProfiles (pg w)) (currentPidProfile w)) as [cur Hp];
    [lia|].
  assert (Htag : profile_tags (pg w) !! currentPidProfile w
                 = Some (auto_profile_cell_count cur))
    by (unfold profile_tags; by rewrite list_lookup_fmap, Hp).
  rewrite Hp. rewrite Htag in Hnot_count, Hnot_stay.
  rewrite !bool_decide_eq_false_2 by congruence. cbn [orb]. cbv zeta.
  rewrite Hscan; [done|]. apply Nat.mod_upper_bound. lia.
Qed.





Lemma changePidProfile_index i w :
  (i < 256)%nat -> (i < PID_PROFILE_COUNT T)%nat ->
  pidProfileIndex (systemConfig (pg (changePidProfile T i w))) = i
  ∧ currentPidProfile (changePidProfile T i w) = i.
Proof.
  intros Hi8 Hi. unfold changePidProfile, uint8_t. cbv zeta.
  rewrite (Nat.mod_small i 256) by done.
  rewrite (proj2 (Nat.ltb_lt _ _) Hi). by cbn.
Qed.

(** C4 (as amended).  With four PID profiles tagged [Stay, 4, Stay, 6] and a
    cell count of 6: when the current profile is the one at index 0, which is
    tagged Stay, [changePidProfileFromCellCount] returns at line 772 without a
    switch, and the active index is still 0; when the current profile is the
    one at index 1, tagged 4, the scan passes the Stay profile at index 2 and
    the active index afterwards is 3, the exact match. *)
Theorem cell_count_switch_determinism fuel w :
  let stay := AUTO_PROFILE_CELL_COUNT_STAY T in
  let index := pidProfileIndex (systemConfig (pg w)) in
  PID_PROFILE_COUNT T = 4%nat ->
  stay ≠ 4 -> stay ≠ 6 ->
  profile_tags (pg w) = [stay; 4; stay; 6] ->
  currentPidProfile w = index ->
  (3 ≤ fuel)%nat ->
  (index = 0%nat -> changePidProfileFromCellCount T fuel 6 w = Some w)
  ∧ (index = 1%nat ->
     ∃ w', changePidProfileFromCellCount T fuel 6 w = Some w'
           ∧ w' = changePidProfile T 3 w
           ∧ pidProfileIndex (systemConfig (pg w')) = 3%nat
           ∧ currentPidProfile w' = 3%nat).
Proof.
  intros stay index Hn Hstay4 Hstay6 Htags Hcur Hfuel.
  assert (Hlen : length (pidProfiles (pg w)) = PID_PROFILE_COUNT T).
  { rewrite Hn. apply (f_equal length) in Htags.
    unfold profile_tags in Htags. by rewrite length_fmap in Htags. }
  assert (Hswitch : (index < 4)%nat ->
            changePidProfileFromCellCount T fuel 6 w
            = Some (switch_by_cell_count T 6 w)).
  { intros Hi.
    rewrite changePidProfileFromCellCount_switch; [done| | |rewrite Hcur|]; fold index; lia. }
  unfold switch_by_cell_count, scan_target in Hswitch. cbv zeta in Hswitch.
  fold index in Hswitch. rewrite Htags, Hcur, Hn in Hswitch.
  split; intros Hi; rewrite Hi in Hswitch; rewrite Hswitch by lia; clear Hswitch.
  - cbn [lookup list_lookup]. fold stay.
    by rewrite bool_decide_eq_true_2 by (by right).
  - cbn [lookup list_lookup].
    rewrite bool_decide_eq_false_2 by (intros [?|?]; [done|by apply Hstay4]).
    assert (Hfind : list_find (λ i, [stay; 4; stay; 6] !! i = Some 6) (scan_order 4 1)
                    = Some (1%nat, 3%nat)).
    { apply list_find_Some. split; [reflexivity|]. split; [reflexivity|].
      intros [|k'] j' Hk' Hlt; [|lia].
      injection Hk' as <-. cbn. intros [= H]. by apply Hstay6. }
    rewrite Hfind. eexists. split; [reflexivity|]. split; [reflexivity|].
    apply changePidProfile_index; lia.
Qed.

(** ** Limits of every PID profile *)

(** Altering a slot with a function that keeps [proj] keeps [proj] of all
    profiles. *)
Lemma keeps_pidProfilesMutable {B : Type} (proj : pidProfile_t -> B) i f s :
  (∀ p, proj (f p) = proj p) ->
  keeps (λ s : pgStore E, proj <$> pidProfiles s) s (pidProfilesMutable i f s).
Proof.
  intros Hf. unfold keeps, pidProfilesMutable. cbn.
  apply list_eq. intros j. rewrite !list_lookup_fmap, list_lookup_alter.
  case_decide; [subst j|done].
  destruct (pidProfiles s !! i); cbn; by rewrite ?Hf.
Qed.

(** A loop that applies [f] to each slot in turn. *)
Lemma pidProfiles_for_loop (f : pidProfile_t -> pidProfile_t) s :
  length (pidProfiles s) = PID_PROFILE_COUNT T ->
  for_loop (PID_PROFILE_COUNT T) (λ i, pidProfilesMutable i f) s
  = with_pidProfiles (fmap f) s.
Proof.
  intros Hlen.
  transitivity (with_pidProfiles
                  (λ l, foldl (λ l i, alter f i l) l (seq 0 (PID_PROFILE_COUNT T))) s).
  - generalize (PID_PROFILE_COUNT T). intros n.
    induction n as [|n IH]; [by destruct s|].
    rewrite for_loop_S, IH, seq_S. unfold pidProfilesMutable, with_pidProfiles.
    cbn [pidProfiles]. by rewrite foldl_app.
  - unfold with_pidProfiles. by rewrite (foldl_alter_all f (pidProfiles s) _ Hlen).
Qed.

Lemma d_gains_zeroF item p : d_gains (zeroF item p) = d_gains p.
Proof.
  unfold d_gains, zeroF. cbn. f_equal. apply list_eq. intros j.
  rewrite !list_lookup_fmap, list_lookup_alter.
  case_decide; [subst j|done]. by destruct (pid p !! item).
Qed.

Ltac profiles_base :=
  first
    [ unfold keeps; reflexivity
    | apply keeps_pidProfilesMutable; intros ?; first [reflexivity | apply d_gains_zeroF]
    | etransitivity;
      apply keeps_pidProfilesMutable; intros ?; first [reflexivity | apply d_gains_zeroF] ].

Ltac profiles_step := unfold_steps; walk profiles_base.

(** What is left of the profiles after the loop of lines 219-253, as far as a
    projection [proj] is concerned that the later rules do not touch. *)
Lemma validateAndFixConfig_profiles {B : Type} (proj : pidProfile_t -> B) w :
  TARGET_VALIDATECONFIG T = false ->
  length (pidProfiles (pg w)) = PID_PROFILE_COUNT T ->
  (∀ s, keeps (λ s : pgStore E, proj <$> pidProfiles s) s (fixFeedForward X T s)) ->
  proj <$> pidProfiles (pg (validateAndFixConfig X T w))
  = (λ p, proj (fixPidProfile T p)) <$> pidProfiles (pg w).
Proof.
  intros Htarget Hlen Hff.
  rewrite validateAndFixConfig_pg.
  rewrite (runTargetValidation_off _ Htarget).
  match goal with |- context [fixFeedForward X T ?s2] =>
    assert (Hafter : keeps (λ s : pgStore E, proj <$> pidProfiles s)
      (fixFeedForward X T s2) (fixVtx T
      (fixOsdTimers X T (fixDshot T (fixBeeper X T (pruneFeatures T
      (fixDshotBitbang T (fixLinkedModes X T (fixEscSensor X T (fixGpsRescue X T
      (fixFeedForward X T s2)))))))))))
      by through keeps_step;
    pose proof (Hff s2) as Hstep
  end.
  match goal with |- context [fixMotorConfig T ?s1] =>
    assert (Hmid : keeps (@pidProfiles E) s1
      (fixRssi T (fixSoftSpi T (fixRxFeatures T
      (fixAlignments X T (fixPidProfileIndex T (fixActiveRateProfile T
      (fixBlackboxDevice T (fixLoopTime T (gyroMpuDetectionResult_sensor w)
      (fixSyncDenominators T (gyroConfigMutable (fixGyroFilters T)
      (fixDynamicFilter X T (gyro_targetLooptime w) (fixMotorConfig T s1)))))))))))))
      by through keeps_step
  end.
  assert (Hbefore : keeps (@pidProfiles E) (pg w)
            (fixGpsSerial X T (fixSerialConfig X (fixMixerMode X T (pg w)))))
    by through keeps_step.
  revert Hafter Hstep Hmid Hbefore.
  generalize (fixGpsSerial X T (fixSerialConfig X (fixMixerMode X T (pg w)))).
  intros s0 Hafter Hstep Hmid Hbefore. unfold keeps in Hbefore.
  rewrite <- Hbefore in Hlen. rewrite <- Hbefore. clear Hbefore.
  pose proof (pidProfiles_fixPidProfiles s0 Hlen) as Hfix.
  revert Hafter Hstep Hmid Hfix. generalize (fixPidProfiles T s0).
  intros s1 Hafter Hstep Hmid Hfix.
  revert Hafter Hstep Hmid.
  match goal with |- keeps _ (fixFeedForward X T ?s2) _ -> _ => generalize s2 end.
  intros s2.
  generalize (fixFeedForward X T s2). intros s3.
  match goal with |- keeps _ _ ?s4 -> _ => generalize s4 end.
  intros s4 Hafter Hstep Hmid. unfold keeps in *.
  rewrite Hafter, Hstep, Hmid, Hfix. by rewrite <- list_fmap_compose.
Qed.


Lemma keeps_d_gains_fixFeedForward s :
  keeps (λ s : pgStore E, d_gains <$> pidProfiles s) s (fixFeedForward X T s).
Proof. cbv beta delta [fixFeedForward]. walk profiles_base. Qed.


Lemma adjustFilterLimit_le parm : adjustFilterLimit T parm (FILTER_FREQUENCY_MAX T) <= FILTER_FREQUENCY_MAX T.
Proof. unfold adjustFilterLimit. destruct (Z.gtb_spec parm (FILTER_FREQUENCY_MAX T)); lia. Qed.




(** ** D-min against the D gain *)

Lemma fixDMin_pid axis q : pid (fixDMin axis q) = pid q.
Proof. unfold fixDMin. by repeat case_match. Qed.

Lemma fixDMin_at axis q dm g :
  d_min (fixDMin axis q) !! axis = Some dm -> pid q !! axis = Some g ->
  dm = 0 ∨ dm < D g.
Proof.
  unfold fixDMin. intros Hdm Hg. rewrite Hg in Hdm.
  destruct (d_min q !! axis) as [dm0|] eqn:Hdm0; [|by rewrite Hdm0 in Hdm].
  destruct (Z.geb_spec dm0 (D g)).
  - cbn in Hdm. rewrite list_lookup_insert_eq in Hdm by by eapply lookup_lt_Some.
    left. congruence.
  - rewrite Hdm0 in Hdm. right. injection Hdm as <-. lia.
Qed.

Lemma fixDMin_other axis b q : axis ≠ b -> d_min (fixDMin axis q) !! b = d_min q !! b.
Proof.
  intros Hne. unfold fixDMin. repeat case_match; try done.
  cbn. by rewrite list_lookup_insert_ne.
Qed.

Lemma fixPidProfile_d_min p0 axis dm d :
  (axis ≤ FD_YAW)%nat ->
  d_min (fixPidProfile T p0) !! axis = Some dm ->
  (D <$> pid (fixPidProfile T p0)) !! axis = Some d ->
  dm = 0 ∨ dm < d.
Proof.
  unfold fixPidProfile, FD_YAW. cbv zeta.
  generalize (fixProfileLimits T (fixDtermFilters T p0)). intros q Haxis.
  change (for_loop 3 fixDMin q) with (fixDMin 2 (fixDMin 1 (fixDMin 0 q))).
  rewrite !fixDMin_pid, list_lookup_fmap. intros Hdm Hd.
  destruct (pid q !! axis) as [g|] eqn:Hg; [|done]. injection Hd as <-.
  assert (axis = 0 ∨ axis = 1 ∨ axis = 2)%nat as [->|[->| ->]] by lia.
  - rewrite !fixDMin_other in Hdm by done. by eapply fixDMin_at.
  - rewrite fixDMin_other in Hdm by done.
    eapply fixDMin_at; [done|]. by rewrite fixDMin_pid.
  - eapply fixDMin_at; [done|]. by rewrite !fixDMin_pid.
Qed.

(** After [validateAndFixConfig], in every PID profile the D-min of each of
    the three axes is either 0 or strictly below the D gain of that axis.
    (Builds without a target-specific validation hook.) *)
Theorem d_min_below_d_gain w i p axis dm g :
  TARGET_VALIDATECONFIG T = false ->
  length (pidProfiles (pg w)) = PID_PROFILE_COUNT T ->
  pidProfiles (pg (validateAndFixConfig X T w)) !! i = Some p ->
  (axis ≤ FD_YAW)%nat ->
  d_min p !! axis = Some dm -> pid p !! axis = Some g ->
  dm = 0 ∨ dm < D g.
Proof.
  intros Htarget Hlen Hp Haxis Hdm Hg.
  pose proof (validateAndFixConfig_profiles d_gains w Htarget Hlen
                keeps_d_gains_fixFeedForward) as Hall.
  apply (f_equal (λ l, l !! i)) in Hall.
  rewrite !list_lookup_fmap, Hp in Hall.
  destruct (pidProfiles (pg w) !! i) as [p0|]; [|done].
  cbn [fmap option_fmap option_map] in Hall. apply (inj Some) in Hall.
  pose proof (fixPidProfile_d_min p0 axis dm (D g) Haxis) as Hfix.
  revert Hall Hfix. generalize (fixPidProfile T p0). intros p1.
  unfold d_gains. intros [= Hmin Hgain] Hfix.
  apply Hfix; [congruence|]. rewrite <- Hgain, list_lookup_fmap, Hg. done.
Qed.

(** ** Feed-forward and throttle boost need RC smoothing *)

Lemma for_loop_ext {S : Type} n (body body' : nat -> S -> S) (st : S) :
  (∀ i st, body i st = body' i st) -> for_loop n body st = for_loop n body' st.
Proof.
  intros Hext. induction n as [|n IH]; [done|]. by rewrite !for_loop_S, IH, Hext.
Qed.

Lemma feedforward_zeroF item item' p :
  feedforward item (zeroF item' p)
  = if decide (item' = item) then 0 else feedforward item p.
Proof.
  unfold feedforward, zeroF. cbn. rewrite list_lookup_alter.
  destruct (decide (item' = item)) as [->|Hne]; [|done].
  by destruct (pid p !! item).
Qed.

Lemma feedforward_set_throttle_boost item v p :
  feedforward item (set_throttle_boost v p) = feedforward item p.
Proof. reflexivity. Qed.

Lemma throttle_boost_zeroF item p : throttle_boost (zeroF item p) = throttle_boost p.
Proof. reflexivity. Qed.

(** A guarded loop that applies [f] to every profile. *)
Lemma gated_profile_loop (c : bool) (f : pidProfile_t -> pidProfile_t) s :
  length (pidProfiles s) = PID_PROFILE_COUNT T ->
  let s' := if c then for_loop (PID_PROFILE_COUNT T) (λ i, pidProfilesMutable i f) s
            else s in
  rxConfig s' = rxConfig s
  ∧ pidProfiles s' = (if c then f else id) <$> pidProfiles s.
Proof.
  intros Hlen. destruct c; cbn; [|by rewrite list_fmap_id].
  by rewrite pidProfiles_for_loop.
Qed.

(** Lines 331-356 on a store with all its profiles. *)
Lemma fixFeedForward_gates s i p :
  length (pidProfiles s) = PID_PROFILE_COUNT T ->
  pidProfiles (fixFeedForward X T s) !! i = Some p ->
  let smoothing := rcSmoothingIsEnabled X (rxConfig s) in
  let channels := rcInterpolationChannels (rxConfig s) in
  rxConfig (fixFeedForward X T s) = rxConfig s
  ∧ (feedforward PID_ROLL p ≠ 0 ∨ feedforward PID_PITCH p ≠ 0 ->
     smoothing = true ∧ channels ≠ INTERPOLATION_CHANNELS_T)
  ∧ (feedforward PID_YAW p ≠ 0 ->
     smoothing = true
     ∧ (channels = INTERPOLATION_CHANNELS_RPY ∨ channels = INTERPOLATION_CHANNELS_RPYT))
  ∧ (USE_THROTTLE_BOOST T = true -> throttle_boost p ≠ 0 ->
     smoothing = true
     ∧ (channels = INTERPOLATION_CHANNELS_RPYT ∨ channels = INTERPOLATION_CHANNELS_T
        ∨ channels = INTERPOLATION_CHANNELS_RPT)).
Proof.
  intros Hlen. unfold fixFeedForward.
  rewrite (for_loop_ext _ _ (λ i, pidProfilesMutable i (zeroF PID_PITCH ∘ zeroF PID_ROLL)));
    [|intros j st; unfold pidProfilesMutable, with_pidProfiles; cbn;
      by rewrite list_alter_alter_eq].
  cbv zeta.
  match goal with |- context [if ?c then for_loop _ (λ i, pidProfilesMutable i ?f) s else s] =>
    destruct (gated_profile_loop c f s Hlen) as [Hrx1 Hp1];
    assert (Hlen1 : length (pidProfiles (if c then for_loop (PID_PROFILE_COUNT T)
                               (λ i, pidProfilesMutable i f) s else s))
                    = PID_PROFILE_COUNT T) by (by rewrite Hp1, length_fmap);
    revert Hrx1 Hp1 Hlen1;
    generalize (if c then for_loop (PID_PROFILE_COUNT T)
                            (λ i, pidProfilesMutable i f) s else s)
  end.
  intros s1 Hrx1 Hp1 Hlen1.
  match goal with |- context [if ?c then for_loop _ (λ i, pidProfilesMutable i ?f) s1 else s1] =>
    destruct (gated_profile_loop c f s1 Hlen1) as [Hrx2 Hp2];
    assert (Hlen2 : length (pidProfiles (if c then for_loop (PID_PROFILE_COUNT T)
                               (λ i, pidProfilesMutable i f) s1 else s1))
                    = PID_PROFILE_COUNT T) by (by rewrite Hp2, length_fmap);
    revert Hrx2 Hp2 Hlen2;
    generalize (if c then for_loop (PID_PROFILE_COUNT T)
                            (λ i, pidProfilesMutable i f) s1 else s1)
  end.
  intros s2 Hrx2 Hp2 Hlen2.
  match goal with |- context [if ?c then for_loop _ (λ i, pidProfilesMutable i ?f) s2 else s2] =>
    destruct (gated_profile_loop c f s2 Hlen2) as [Hrx3 Hp3];
    revert Hrx3 Hp3;
    generalize (if c then for_loop (PID_PROFILE_COUNT T)
                            (λ i, pidProfilesMutable i f) s2 else s2)
  end.
  intros s3 Hrx3 Hp3.
  rewrite Hrx2, Hrx1 in Hrx3, Hp3. rewrite Hrx1 in Hp2.
  rewrite Hp3, Hp2, Hp1, <- !list_fmap_compose, list_lookup_fmap.
  destruct (pidProfiles s !! i) as [p0|]; [|done].
  cbn [fmap option_fmap option_map compose]. intros [= <-].
  split; [done|]. clear.
  destruct (rcSmoothingIsEnabled X (rxConfig s));
    destruct (rcInterpolationChannels (rxConfig s));
    destruct (USE_THROTTLE_BOOST T);
    repeat (case_bool_decide; try done);
    cbn [negb orb andb id compose];
    rewrite ?feedforward_set_throttle_boost, ?throttle_boost_zeroF, ?feedforward_zeroF;
    cbn;
    repeat split; intros;
    repeat match goal with H : _ ∨ _ |- _ => destruct H end;
    try done; try (by left); try (by right); try (by right; left); try (by right; right).
Qed.

(** The profiles and the receiver settings of the validated store are those
    that lines 331-356 leave, on a store that has all its profiles. *)
Lemma validateAndFixConfig_feedforward_stage w :
  TARGET_VALIDATECONFIG T = false ->
  length (pidProfiles (pg w)) = PID_PROFILE_COUNT T ->
  ∃ s, length (pidProfiles s) = PID_PROFILE_COUNT T
       ∧ pidProfiles (pg (validateAndFixConfig X T w)) = pidProfiles (fixFeedForward X T s)
       ∧ rxConfig (pg (validateAndFixConfig X T w)) = rxConfig (fixFeedForward X T s).
Proof.
  intros Htarget Hlen.
  rewrite validateAndFixConfig_pg.
  rewrite (runTargetValidation_off _ Htarget).
  match goal with |- context [fixFeedForward X T ?s2] =>
    assert (Hafter : keeps (λ s : pgStore E, (pidProfiles s, rxConfig s))
      (fixFeedForward X T s2) (fixVtx T
      (fixOsdTimers X T (fixDshot T (fixBeeper X T (pruneFeatures T
      (fixDshotBitbang T (fixLinkedModes X T (fixEscSensor X T (fixGpsRescue X T
      (fixFeedForward X T s2)))))))))))
      by through keeps_step
  end.
  match goal with |- context [fixMotorConfig T ?s1] =>
    assert (Hmid : keeps (@pidProfiles E) s1
      (fixRssi T (fixSoftSpi T (fixRxFeatures T
      (fixAlignments X T (fixPidProfileIndex T (fixActiveRateProfile T
      (fixBlackboxDevice T (fixLoopTime T (gyroMpuDetectionResult_sensor w)
      (fixSyncDenominators T (gyroConfigMutable (fixGyroFilters T)
      (fixDynamicFilter X T (gyro_targetLooptime w) (fixMotorConfig T s1)))))))))))))
      by through keeps_step
  end.
  assert (Hbefore : keeps (@pidProfiles E) (pg w)
            (fixGpsSerial X T (fixSerialConfig X (fixMixerMode X T (pg w)))))
    by through keeps_step.
  revert Hafter Hmid Hbefore.
  generalize (fixGpsSerial X T (fixSerialConfig X (fixMixerMode X T (pg w)))).
  intros s0 Hafter Hmid Hbefore. unfold keeps in Hbefore.
  rewrite <- Hbefore in Hlen. clear Hbefore.
  pose proof (pidProfiles_fixPidProfiles s0 Hlen) as Hfix.
  revert Hafter Hmid Hfix. generalize (fixPidProfiles T s0).
  intros s1 Hafter Hmid Hfix.
  revert Hafter Hmid.
  match goal with |- keeps _ (fixFeedForward X T ?s2) _ -> _ => generalize s2 end.
  intros s2.
  match goal with |- keeps _ _ ?s4 -> _ => generalize s4 end.
  intros s4 Hafter Hmid. unfold keeps in *. exists s2.
  injection Hafter as -> ->. split; [|done].
  by rewrite Hmid, Hfix, length_fmap.
Qed.

(** In a validated configuration a profile has a roll or pitch feed-forward
    gain only if RC smoothing is enabled and does not cover the throttle
    alone; a yaw feed-forward gain only if RC smoothing is enabled and covers
    yaw; and, on builds with throttle boost, a throttle boost only if RC
    smoothing is enabled and covers the throttle.  (Builds without a
    target-specific validation hook.) *)
Theorem feedforward_needs_rc_smoothing w i p :
  TARGET_VALIDATECONFIG T = false ->
  length (pidProfiles (pg w)) = PID_PROFILE_COUNT T ->
  let w' := validateAndFixConfig X T w in
  pidProfiles (pg w') !! i = Some p ->
  let smoothing := rcSmoothingIsEnabled X (rxConfig (pg w')) in
  let channels := rcInterpolationChannels (rxConfig (pg w')) in
  (feedforward PID_ROLL p ≠ 0 ∨ feedforward PID_PITCH p ≠ 0 ->
     smoothing = true ∧ channels ≠ INTERPOLATION_CHANNELS_T)
  ∧ (feedforward PID_YAW p ≠ 0 ->
     smoothing = true
     ∧ (channels = INTERPOLATION_CHANNELS_RPY ∨ channels = INTERPOLATION_CHANNELS_RPYT))
  ∧ (USE_THROTTLE_BOOST T = true -> throttle_boost p ≠ 0 ->
     smoothing = true
     ∧ (channels = INTERPOLATION_CHANNELS_RPYT ∨ channels = INTERPOLATION_CHANNELS_T
        ∨ channels = INTERPOLATION_CHANNELS_RPT)).
Proof.
  intros Htarget Hlen w'. subst w'.
  destruct (validateAndFixConfig_feedforward_stage w Htarget Hlen) as (s & Hs & -> & ->).
  intros Hp. destruct (fixFeedForward_gates s i p Hs Hp) as [-> Hgates]. exact Hgates.
Qed.

(** ** Rules of the validated store, one parameter group at a time *)

(** The validated store as the chain of rules of [validateAndFixConfig_pg],
    without the target hook. *)
Ltac enter_validation Htarget :=
  rewrite ?validateAndFixConfig_pg;
  rewrite ?(runTargetValidation_off _ Htarget).

(** The video transmitter settings of a validated store lie within the
    transmitter table: a channel, band or power index above the table's count
    has been reset to 0, and the frequency has been reset to 0 when the band
    was reset or when the channel was reset while a band was selected.
    (Builds with the transmitter table and without a target-specific
    validation hook.) *)
Theorem vtx_settings_within_table w :
  TARGET_VALIDATECONFIG T = false ->
  USE_VTX_COMMON T = true -> USE_VTX_TABLE T = true ->
  let v := vtxSettingsConfig (pg w) in
  let t := vtxTableConfig (pg w) in
  let v' := vtxSettingsConfig (pg (validateAndFixConfig X T w)) in
  vtxTableConfig (pg (validateAndFixConfig X T w)) = t
  ∧ channel v' = (if channel v >? channels t then 0 else channel v)
  ∧ band v' = (if band v >? bands t then 0 else band v)
  ∧ power v' = (if power v >? powerLevels t then 0 else power v)
  ∧ freq v' = (if (band v >? bands t) || ((channel v >? channels t) && (band v >? 0))
               then 0 else freq v).
Proof.
  intros Htarget Hcommon Htable. cbv zeta. enter_validation Htarget.
  match goal with |- context [fixVtx T ?s0] =>
    assert (Hbefore : keeps (λ s : pgStore E, (vtxSettingsConfig s, vtxTableConfig s))
                        (pg w) s0) by through keeps_step;
    revert Hbefore; generalize s0
  end.
  intros s Hbefore. unfold keeps in Hbefore. injection Hbefore as <- <-.
  unfold fixVtx. rewrite Hcommon, Htable. cbn [andb].
  destruct (Z.gtb_spec (channel (vtxSettingsConfig s)) (channels (vtxTableConfig s)));
    destruct (Z.gtb_spec (band (vtxSettingsConfig s)) 0);
    destruct (Z.gtb_spec (band (vtxSettingsConfig s)) (bands (vtxTableConfig s)));
    destruct (Z.gtb_spec (power (vtxSettingsConfig s)) (powerLevels (vtxTableConfig s)));
    cbn;
    repeat match goal with
           | |- context [?a >? ?b] => destruct (Z.gtb_spec a b); cbn in *; try lia
           end;
    done.
Qed.

(** A validated store silences the beeper only in modes that allow it: the
    beeper-off flags, and on DSHOT builds the beacon-off flags, have no bit
    outside the allowed modes; on DSHOT builds the beacon tone is one of the
    five beacon commands; and on builds with timers a beeper frequency is set
    only if the beeper pin has a timer.  (Builds with the beeper and without a
    target-specific validation hook.) *)
Theorem beeper_settings_allowed w :
  TARGET_VALIDATECONFIG T = false ->
  USE_BEEPER T = true ->
  DSHOT_CMD_BEACON1 T <= DSHOT_CMD_BEACON5 T ->
  let b := beeperConfig (pg (validateAndFixConfig X T w)) in
  let d := beeperDevConfig (pg (validateAndFixConfig X T w)) in
  Z.land (beeper_off_flags b) (Z.lnot (BEEPER_ALLOWED_MODES T)) = 0
  ∧ (USE_DSHOT T = true ->
     Z.land (dshotBeaconOffFlags b) (Z.lnot (DSHOT_BEACON_ALLOWED_MODES T)) = 0
     ∧ DSHOT_CMD_BEACON1 T <= dshotBeaconTone b <= DSHOT_CMD_BEACON5 T)
  ∧ (USE_TIMER T = true -> frequency d ≠ 0 -> timerGetByTag X (ioTag d) = true).
Proof.
  intros Htarget Hbeeper Htones. cbv zeta. enter_validation Htarget.
  match goal with |- context [fixBeeper X T ?s0] =>
    assert (Hafter : keeps (λ s : pgStore E, (beeperConfig s, beeperDevConfig s))
                       (fixBeeper X T s0)
                       (fixVtx T (fixOsdTimers X T (fixDshot T (fixBeeper X T s0)))))
      by through keeps_step;
    revert Hafter; generalize s0
  end.
  intros s.
  match goal with |- keeps _ _ ?s1 -> _ => generalize s1 end.
  intros s1 Hafter. unfold keeps in Hafter. injection Hafter as -> ->. clear s1.
  unfold fixBeeper. rewrite Hbeeper.
  destruct (USE_TIMER T), (USE_DSHOT T); cbn [andb negb];
    repeat match goal with
           | |- context [?a =? ?b] => destruct (Z.eqb_spec a b); cbn in *
           | |- context [timerGetByTag X ?a] => destruct (timerGetByTag X a) eqn:?; cbn in *
           | |- context [?a <? ?b] => destruct (Z.ltb_spec a b); cbn in *
           | |- context [?a >? ?b] => destruct (Z.gtb_spec a b); cbn in *
           end;
    repeat split; try done; try lia; intros; try done; try lia; congruence.
Qed.



(** ** Features without a driver *)

Lemma features_unlessCompiled flag mask s :
  features (unlessCompiled flag mask s) = features s ∖ not_compiled flag mask.
Proof. unfold unlessCompiled, not_compiled. destruct flag; features_simpl; set_solver. Qed.

(** Lines 399-468 clear exactly the features without a driver, and touch
    nothing else but the feature mask. *)
Lemma features_pruneFeatures s :
  features (pruneFeatures T s) = features s ∖ unsupported_features T.
Proof.
  unfold pruneFeatures, unsupported_features. cbv zeta.
  rewrite !features_unlessCompiled.
  generalize (features s). intros fs.
  repeat match goal with |- context [not_compiled ?flag ?mask] =>
           generalize (not_compiled flag mask); intros ?
         end.
  rewrite !difference_difference_l_L. f_equal. by rewrite !(assoc_L (∪)).
Qed.

Lemma not_compiled_subseteq flag mask : not_compiled flag mask ⊆ mask.
Proof. unfold not_compiled. destruct flag; set_solver. Qed.

Lemma shrinks_pruneFeatures s : shrinks_features s (pruneFeatures T s).
Proof.
  unfold shrinks_features. rewrite features_pruneFeatures.
  generalize (unsupported_features T) (features s). clear. set_solver.
Qed.

(** Lines 399-468 do not clear the GPS feature. *)
Lemma keeps_gps_pruneFeatures s : keeps_feature FEATURE_GPS s (pruneFeatures T s).
Proof.
  unfold keeps_feature. rewrite features_pruneFeatures. intros Hin.
  apply elem_of_difference. split; [done|]. clear. unfold unsupported_features.
  repeat match goal with |- context [not_compiled ?flag ?mask] =>
           let H := fresh in
           pose proof (not_compiled_subseteq flag mask) as H;
           revert H; generalize (not_compiled flag mask); intros ? ?
         end.
  set_solver.
Qed.

Ltac shrinks_step :=
  idtac;
  lazymatch goal with
  | |- shrinks_features _ (pruneFeatures _ _) => apply shrinks_pruneFeatures
  | |- _ => unfold_steps; walk shrinks_base
  end.

(** ** Motor output *)

#[local] Instance adds_only_default_preorder : PreOrder (@adds_only_default E T).
Proof.
  split.
  - intros s. unfold adds_only_default. set_solver.
  - intros s1 s2 s3. unfold adds_only_default. set_solver.
Qed.

#[local] Instance lowers_pwm_rate_preorder : PreOrder (@lowers_pwm_rate E).
Proof.
  split.
  - intros s. unfold lowers_pwm_rate. lia.
  - intros s1 s2 s3. unfold lowers_pwm_rate. lia.
Qed.

Ltac adds_only_default_base := unfold adds_only_default; features_simpl; set_solver.

Lemma adds_only_default_pruneFeatures s : adds_only_default T s (pruneFeatures T s).
Proof.
  unfold adds_only_default. rewrite features_pruneFeatures.
  generalize (unsupported_features T) (features s). clear. set_solver.
Qed.

Ltac adds_only_default_step :=
  idtac;
  lazymatch goal with
  | |- adds_only_default _ _ (pruneFeatures _ _) => apply adds_only_default_pruneFeatures
  | |- _ => unfold_steps; walk adds_only_default_base
  end.

Ltac lowers_pwm_rate_base := unfold lowers_pwm_rate; cbn; lia.

(** The rules after the motor rule of lines 255-265. *)
Lemma rules_after_motor_config (s : pgStore E) looptime sensor :
  let s' :=
    (fixVtx T (fixOsdTimers X T (fixDshot T (fixBeeper X T (pruneFeatures T
      (fixDshotBitbang T (fixLinkedModes X T (fixEscSensor X T (fixGpsRescue X T
      (fixFeedForward X T (fixRssi T (fixSoftSpi T (fixRxFeatures T (fixAlignments X T
      (fixPidProfileIndex T (fixActiveRateProfile T (fixBlackboxDevice T (fixLoopTime T
      sensor (fixSyncDenominators T (gyroConfigMutable (fixGyroFilters T)
      (fixDynamicFilter X T looptime s))))))))))))))))))))) in
  motorPwmProtocol (dev (motorConfig s')) = motorPwmProtocol (dev (motorConfig s))
  ∧ mincommand (motorConfig s') = mincommand (motorConfig s)
  ∧ adds_only_default T s s'
  ∧ lowers_pwm_rate s s'.
Proof.
  cbv zeta. split; [|split; [|split]].
  - change (keeps (λ s : pgStore E, motorPwmProtocol (dev (motorConfig s))) s
      (fixVtx T (fixOsdTimers X T (fixDshot T (fixBeeper X T (pruneFeatures T
      (fixDshotBitbang T (fixLinkedModes X T (fixEscSensor X T (fixGpsRescue X T
      (fixFeedForward X T (fixRssi T (fixSoftSpi T (fixRxFeatures T (fixAlignments X T
      (fixPidProfileIndex T (fixActiveRateProfile T (fixBlackboxDevice T (fixLoopTime T
      sensor (fixSyncDenominators T (gyroConfigMutable (fixGyroFilters T)
      (fixDynamicFilter X T looptime s)))))))))))))))))))))).
    through keeps_step.
  - change (keeps (λ s : pgStore E, mincommand (motorConfig s)) s
      (fixVtx T (fixOsdTimers X T (fixDshot T (fixBeeper X T (pruneFeatures T
      (fixDshotBitbang T (fixLinkedModes X T (fixEscSensor X T (fixGpsRescue X T
      (fixFeedForward X T (fixRssi T (fixSoftSpi T (fixRxFeatures T (fixAlignments X T
      (fixPidProfileIndex T (fixActiveRateProfile T (fixBlackboxDevice T (fixLoopTime T
      sensor (fixSyncDenominators T (gyroConfigMutable (fixGyroFilters T)
      (fixDynamicFilter X T looptime s)))))))))))))))))))))).
    through keeps_step.
  - through adds_only_default_step.
  - through ltac:(unfold_steps; walk lowers_pwm_rate_base).
Qed.

Lemma fixMotorConfig_spec s :
  let s' := fixMotorConfig T s in
  let m := motorConfig s' in
  motorPwmProtocol (dev m) = motorPwmProtocol (dev (motorConfig s))
  ∧ features s' ⊆ features s
  ∧ (motorPwmProtocol (dev m) = PWM_TYPE_BRUSHED ->
     (FEATURE_3D ∉ features s') ∧ (1000 <= mincommand m))
  ∧ (motorPwmProtocol (dev m) = PWM_TYPE_STANDARD ->
     motorPwmRate (dev m) <= BRUSHLESS_MOTORS_PWM_RATE T).
Proof.
  unfold fixMotorConfig.
  destruct (decide (motorPwmProtocol (dev (motorConfig s)) = PWM_TYPE_BRUSHED)) as [Hb|Hb].
  - rewrite (bool_decide_eq_true_2 _ Hb). cbn [mincommand motorConfig featureDisable
      featureConfigMutable]. cbv zeta.
    assert (Hs : motorPwmProtocol (dev (motorConfig s)) ≠ PWM_TYPE_STANDARD) by congruence.
    destruct (Z.ltb_spec (mincommand (motorConfig s)) 1000);
      cbn [motorConfig motorConfigMutable featureConfigMutable dev set_mincommand
           motorPwmProtocol];
      rewrite (bool_decide_eq_false_2 _ Hs); cbn [andb];
      (split; [done|]); (split; [features_simpl; clear; set_solver|]);
      (split; [|done]); intros _;
      (split; [features_simpl; clear; set_solver|cbn; lia]).
  - rewrite (bool_decide_eq_false_2 _ Hb). cbv zeta.
    destruct (decide (motorPwmProtocol (dev (motorConfig s)) = PWM_TYPE_STANDARD)) as [Hs|Hs].
    + rewrite (bool_decide_eq_true_2 _ Hs). cbn [andb].
      destruct (Z.gtb_spec (motorPwmRate (dev (motorConfig s))) (BRUSHLESS_MOTORS_PWM_RATE T));
        cbn; rewrite ?Hs; repeat split; try done; intros; lia.
    + rewrite (bool_decide_eq_false_2 _ Hs). cbn. repeat split; done.
Qed.

(** In a validated store a brushed motor protocol comes with the 3D feature
    off and a minimum command of at least 1000, and the standard PWM protocol
    with a PWM rate at or below the brushless rate.  (Builds without a
    target-specific validation hook, whose default receiver-input feature is
    not the 3D feature.) *)
Theorem motor_protocol_limits w :
  TARGET_VALIDATECONFIG T = false ->
  DEFAULT_RX_FEATURE T ≠ FEATURE_3D ->
  let s' := pg (validateAndFixConfig X T w) in
  let m := motorConfig s' in
  motorPwmProtocol (dev m) = motorPwmProtocol (dev (motorConfig (pg w)))
  ∧ (motorPwmProtocol (dev m) = PWM_TYPE_BRUSHED ->
     (FEATURE_3D ∉ features s') ∧ (1000 <= mincommand m))
  ∧ (motorPwmProtocol (dev m) = PWM_TYPE_STANDARD ->
     motorPwmRate (dev m) <= BRUSHLESS_MOTORS_PWM_RATE T).
Proof.
  intros Htarget Hdefault. cbv zeta. enter_validation Htarget.
  match goal with |- context [fixMotorConfig T ?s0] =>
    assert (Hbefore : keeps (λ s : pgStore E, motorPwmProtocol (dev (motorConfig s)))
                        (pg w) s0) by through keeps_step;
    pose proof (fixMotorConfig_spec s0) as Hmotor;
    pose proof (rules_after_motor_config (fixMotorConfig T s0) (gyro_targetLooptime w)
                  (gyroMpuDetectionResult_sensor w)) as Hafter;
    revert Hbefore Hmotor Hafter; generalize s0
  end.
  intros s0. cbv zeta. generalize (fixMotorConfig T s0). intros s1.
  match goal with |- _ -> _ -> _ ∧ _ ∧ adds_only_default _ _ ?s2 ∧ _ -> _ => generalize s2 end.
  intros s2 Hbefore (Hproto & _ & Hbrushed & Hstandard) (Hproto' & Hmin & Hfeatures & Hrate).
  unfold keeps, adds_only_default, lowers_pwm_rate in *.
  rewrite Hproto', Hmin. rewrite Hproto in Hbrushed, Hstandard |- *.
  split; [done|]. split.
  - intros Hb. destruct (Hbrushed Hb) as [H3d ?]. split; [|done].
    intros Hin. apply Hfeatures in Hin. clear -Hin H3d Hdefault. set_solver.
  - intros Hs. specialize (Hstandard Hs). lia.
Qed.

Lemma validateAndFixConfig_features w :
  TARGET_VALIDATECONFIG T = false ->
  let fs' := features (pg (validateAndFixConfig X T w)) in
  fs' ∩ unsupported_features T = ∅
  ∧ fs' ⊆ features (pg w) ∪ {[ DEFAULT_RX_FEATURE T ]}.
Proof.
  intros Htarget. cbv zeta. enter_validation Htarget. split.
  - match goal with |- context [pruneFeatures T ?s0] =>
      assert (Hafter : keeps (@features E) (pruneFeatures T s0)
                (fixVtx T (fixOsdTimers X T (fixDshot T (fixBeeper X T (pruneFeatures T s0))))))
        by through keeps_step;
      pose proof (features_pruneFeatures s0) as Hprune;
      revert Hafter Hprune; generalize s0
    end.
    intros s0. generalize (pruneFeatures T s0). intros s1.
    match goal with |- keeps _ _ ?s2 -> _ => generalize s2 end.
    intros s2 Hafter Hprune. unfold keeps in Hafter. rewrite Hafter, Hprune.
    generalize (unsupported_features T). clear. intros U. set_solver.
  - change (adds_only_default T (pg w)
      (fixVtx T (fixOsdTimers X T (fixDshot T (fixBeeper X T (pruneFeatures T
      (fixDshotBitbang T (fixLinkedModes X T (fixEscSensor X T (fixGpsRescue X T
      (fixFeedForward X T (fixRssi T (fixSoftSpi T (fixRxFeatures T (fixAlignments X T
      (fixPidProfileIndex T (fixActiveRateProfile T (fixBlackboxDevice T (fixLoopTime T
      (gyroMpuDetectionResult_sensor w) (fixSyncDenominators T (gyroConfigMutable
      (fixGyroFilters T) (fixDynamicFilter X T (gyro_targetLooptime w) (fixMotorConfig
      T (fixPidProfiles T (fixGpsSerial X T (fixSerialConfig X (fixMixerMode X T (pg
      w)))))))))))))))))))))))))))).
    through adds_only_default_step.
Qed.

(** A validated store has no feature set whose driver is not compiled in, and
    no feature that was not set before, the default receiver-input feature
    apart.  (Builds without a target-specific validation hook.) *)
Theorem unsupported_features_cleared w :
  TARGET_VALIDATECONFIG T = false ->
  let fs' := features (pg (validateAndFixConfig X T w)) in
  fs' ∩ unsupported_features T = ∅
  ∧ fs' ⊆ features (pg w) ∪ {[ DEFAULT_RX_FEATURE T ]}.
Proof. apply validateAndFixConfig_features. Qed.

(** ** Features that need a port or a fast loop *)

Lemma fixGpsSerial_spec s :
  let s' := fixGpsSerial X T s in
  gpsConfig s' = gpsConfig s
  ∧ (FEATURE_GPS ∈ features s' ->
     USE_GPS T = true
     ∧ (provider (gpsConfig s') = GPS_MSP
        ∨ findSerialPortConfig X FUNCTION_GPS (serialConfig s') ≠ None)).
Proof.
  unfold fixGpsSerial. cbv zeta.
  destruct (USE_GPS T); [|split; [done|features_simpl; clear; set_solver]].
  destruct (decide (provider (gpsConfig s) = GPS_MSP)) as [Hmsp|Hmsp].
  - rewrite (bool_decide_eq_true_2 _ Hmsp).
    destruct (findSerialPortConfig X FUNCTION_GPS (serialConfig s));
      cbn [gpsConfig serialConfigMutable];
      rewrite (bool_decide_eq_false_2 (_ ≠ _)) by tauto; cbn [andb];
      (split; [done|]); intros _; (split; [done|]); by left.
  - rewrite (bool_decide_eq_false_2 _ Hmsp).
    destruct (findSerialPortConfig X FUNCTION_GPS (serialConfig s)) as [port|] eqn:Hport;
      rewrite (bool_decide_eq_true_2 _ Hmsp); cbn [andb].
    + rewrite bool_decide_eq_false_2 by done. split; [done|]. intros _. split; [done|].
      right. by rewrite Hport.
    + rewrite bool_decide_eq_true_2 by done. split; [done|].
      features_simpl. clear. set_solver.
Qed.

Lemma fixEscSensor_spec s :
  serialConfig (fixEscSensor X T s) = serialConfig s
  ∧ (USE_ESC_SENSOR T = true -> FEATURE_ESC_SENSOR ∈ features (fixEscSensor X T s) ->
     findSerialPortConfig X FUNCTION_ESC_SENSOR (serialConfig s) ≠ None).
Proof.
  unfold fixEscSensor. destruct (USE_ESC_SENSOR T); cbn [andb]; [|done].
  case_bool_decide as Hport; [|done]. split; [done|].
  features_simpl. clear. set_solver.
Qed.

Lemma fixDynamicFilter_spec looptime s :
  USE_GYRO_DATA_ANALYSE T = true ->
  FEATURE_DYNAMIC_FILTER ∈ features (fixDynamicFilter X T looptime s) ->
  looptime <= DYNAMIC_FILTER_MAX_SUPPORTED_LOOP_TIME X.
Proof.
  intros Huse. unfold fixDynamicFilter. rewrite Huse. cbn [andb].
  destruct (Z.gtb_spec looptime (DYNAMIC_FILTER_MAX_SUPPORTED_LOOP_TIME X)); [|done].
  features_simpl. clear. set_solver.
Qed.

(** In a validated store the GPS feature is set only on a GPS build and with
    either the MSP provider or a serial port for the GPS; the ESC sensor
    feature only with a serial port for the sensor; and the dynamic filter
    only if the gyro loop time the driver reported is within the longest one
    the filter supports.  (Builds without a target-specific validation hook
    whose default receiver-input feature is a receiver-input feature.) *)
Theorem enabled_features_have_backing w :
  TARGET_VALIDATECONFIG T = false ->
  DEFAULT_RX_FEATURE T ∈ RX_FEATURES ->
  let s' := pg (validateAndFixConfig X T w) in
  (FEATURE_GPS ∈ features s' ->
   USE_GPS T = true
   ∧ (provider (gpsConfig s') = GPS_MSP
      ∨ findSerialPortConfig X FUNCTION_GPS (serialConfig s') ≠ None))
  ∧ (FEATURE_ESC_SENSOR ∈ features s' ->
     USE_ESC_SENSOR T = true
     ∧ findSerialPortConfig X FUNCTION_ESC_SENSOR (serialConfig s') ≠ None)
  ∧ (FEATURE_DYNAMIC_FILTER ∈ features s' ->
     USE_GYRO_DATA_ANALYSE T = true
     ∧ gyro_targetLooptime w <= DYNAMIC_FILTER_MAX_SUPPORTED_LOOP_TIME X).
Proof.
  intros Htarget Hdefault. cbv zeta.
  destruct (validateAndFixConfig_features w Htarget) as [Hpruned _]. cbv zeta in Hpruned.
  revert Hpruned. enter_validation Htarget. intros Hpruned.
  assert (Hgps : DEFAULT_RX_FEATURE T ≠ FEATURE_GPS)
    by (intros Heq; rewrite Heq in Hdefault; clear -Hdefault;
        unfold RX_FEATURES in Hdefault; set_solver).
  assert (Hdyn : DEFAULT_RX_FEATURE T ≠ FEATURE_DYNAMIC_FILTER)
    by (intros Heq; rewrite Heq in Hdefault; clear -Hdefault;
        unfold RX_FEATURES in Hdefault; set_solver).
  split; [|split].
  - clear Hpruned.
    match goal with |- context [fixGpsSerial X T ?s0] =>
      pose proof (fixGpsSerial_spec s0) as Hspec; cbv zeta in Hspec;
      assert (Hkeeps : keeps (λ s : pgStore E, (gpsConfig s, serialConfig s))
                (fixGpsSerial X T s0)
                (fixVtx T (fixOsdTimers X T (fixDshot T (fixBeeper X T (pruneFeatures T
      (fixDshotBitbang T (fixLinkedModes X T (fixEscSensor X T (fixGpsRescue X T
      (fixFeedForward X T (fixRssi T (fixSoftSpi T (fixRxFeatures T (fixAlignments X T
      (fixPidProfileIndex T (fixActiveRateProfile T (fixBlackboxDevice T (fixLoopTime T
      (gyroMpuDetectionResult_sensor w) (fixSyncDenominators T (gyroConfigMutable
      (fixGyroFilters T) (fixDynamicFilter X T (gyro_targetLooptime w) (fixMotorConfig
      T (fixPidProfiles T (fixGpsSerial X T s0)))))))))))))))))))))))))
        by through keeps_step;
      assert (Hadds : adds_only_default T (fixGpsSerial X T s0)
                (fixVtx T (fixOsdTimers X T (fixDshot T (fixBeeper X T (pruneFeatures T
      (fixDshotBitbang T (fixLinkedModes X T (fixEscSensor X T (fixGpsRescue X T
      (fixFeedForward X T (fixRssi T (fixSoftSpi T (fixRxFeatures T (fixAlignments X T
      (fixPidProfileIndex T (fixActiveRateProfile T (fixBlackboxDevice T (fixLoopTime T
      (gyroMpuDetectionResult_sensor w) (fixSyncDenominators T (gyroConfigMutable
      (fixGyroFilters T) (fixDynamicFilter X T (gyro_targetLooptime w) (fixMotorConfig
      T (fixPidProfiles T (fixGpsSerial X T s0)))))))))))))))))))))))))
        by through adds_only_default_step;
      revert Hspec Hkeeps Hadds; generalize (fixGpsSerial X T s0)
    end.
    intros s1. match goal with |- _ -> keeps _ _ ?s2 -> _ => generalize s2 end.
    intros s2 [_ Hspec] Hkeeps Hadds Hin.
    unfold keeps, adds_only_default in *. injection Hkeeps as -> ->.
    apply Hspec. apply Hadds in Hin. clear -Hin Hgps. set_solver.
  - intros Hin.
    assert (Huse : USE_ESC_SENSOR T = true).
    { destruct (USE_ESC_SENSOR T) eqn:Huse; [done|]. exfalso.
      assert (FEATURE_ESC_SENSOR ∈ unsupported_features T)
        by (unfold unsupported_features, not_compiled; rewrite Huse; clear; set_solver).
      clear -Hin Hpruned H. set_solver. }
    split; [done|]. clear Hpruned. revert Hin.
    match goal with |- context [fixEscSensor X T ?s0] =>
      pose proof (fixEscSensor_spec s0) as Hspec;
      assert (Hkeeps : keeps (@serialConfig E) (fixEscSensor X T s0)
                (fixVtx T (fixOsdTimers X T (fixDshot T (fixBeeper X T (pruneFeatures T
      (fixDshotBitbang T (fixLinkedModes X T (fixEscSensor X T s0)))))))))
        by through keeps_step;
      assert (Hshrinks : shrinks_features (fixEscSensor X T s0)
                (fixVtx T (fixOsdTimers X T (fixDshot T (fixBeeper X T (pruneFeatures T
      (fixDshotBitbang T (fixLinkedModes X T (fixEscSensor X T s0)))))))))
        by through shrinks_step;
      revert Hspec Hkeeps Hshrinks; generalize s0
    end.
    intros s0. generalize (fixEscSensor X T s0). intros s1.
    match goal with |- _ -> keeps _ _ ?s2 -> _ => generalize s2 end.
    intros s2 [Hserial Hspec] Hkeeps Hshrinks Hin.
    unfold keeps, shrinks_features in *. rewrite Hkeeps, Hserial.
    apply Hspec; [done|]. by apply Hshrinks.
  - intros Hin.
    assert (Huse : USE_GYRO_DATA_ANALYSE T = true).
    { destruct (USE_GYRO_DATA_ANALYSE T) eqn:Huse; [done|]. exfalso.
      assert (FEATURE_DYNAMIC_FILTER ∈ unsupported_features T)
        by (unfold unsupported_features, not_compiled; rewrite Huse; clear; set_solver).
      clear -Hin Hpruned H. set_solver. }
    split; [done|]. clear Hpruned. revert Hin.
    match goal with |- context [fixDynamicFilter X T ?l ?s0] =>
      pose proof (fixDynamicFilter_spec l s0 Huse) as Hspec;
      assert (Hadds : adds_only_default T (fixDynamicFilter X T l s0)
                (fixVtx T (fixOsdTimers X T (fixDshot T (fixBeeper X T (pruneFeatures T
      (fixDshotBitbang T (fixLinkedModes X T (fixEscSensor X T (fixGpsRescue X T
      (fixFeedForward X T (fixRssi T (fixSoftSpi T (fixRxFeatures T (fixAlignments X T
      (fixPidProfileIndex T (fixActiveRateProfile T (fixBlackboxDevice T (fixLoopTime T
      (gyroMpuDetectionResult_sensor w) (fixSyncDenominators T (gyroConfigMutable
      (fixGyroFilters T) (fixDynamicFilter X T l s0))))))))))))))))))))))
        by through adds_only_default_step;
      revert Hspec Hadds; generalize (fixDynamicFilter X T l s0)
    end.
    intros s1. match goal with |- _ -> adds_only_default _ _ ?s2 -> _ => generalize s2 end.
    intros s2 Hspec Hadds Hin. apply Hspec.
    unfold adds_only_default in Hadds. apply Hadds in Hin. clear -Hin Hdyn. set_solver.
Qed.

(** ** Signal strength *)

Lemma fixRssi_spec s :
  let r := rxConfig (fixRssi T s) in
  features (fixRssi T s) = features s
  ∧ (rssi_src_frame_errors r = true -> rssi_channel r = 0)
  ∧ (USE_ADC T = true -> FEATURE_RSSI_ADC ∈ features s ->
     rssi_channel r = 0 ∧ rssi_src_frame_errors r = false)
  ∧ ((USE_PWM T = true ∨ USE_PPM T = true) ->
     FEATURE_RX_PPM ∈ features s ∨ FEATURE_RX_PARALLEL_PWM ∈ features s ->
     rssi_src_frame_errors r = false).
Proof.
  unfold fixRssi. rewrite !featureIsEnabled_singleton.
  destruct (USE_ADC T); cbn [andb].
  - case_bool_decide as Hadc; [cbn; repeat split; done|].
    destruct (Z.eqb_spec (rssi_channel (rxConfig s)) 0) as [Hch|Hch]; cbn [negb orb].
    + destruct (USE_PWM T), (USE_PPM T); cbn [orb andb];
        repeat case_bool_decide; cbn; repeat split; try done; intros;
        repeat match goal with H : _ ∨ _ |- _ => destruct H end; done.
    + cbn. repeat split; done.
  - destruct (Z.eqb_spec (rssi_channel (rxConfig s)) 0) as [Hch|Hch]; cbn [negb orb].
    + destruct (USE_PWM T), (USE_PPM T); cbn [orb andb];
        repeat case_bool_decide; cbn; repeat split; try done; intros;
        repeat match goal with H : _ ∨ _ |- _ => destruct H end; done.
    + cbn. repeat split; done.
Qed.

(** A validated store takes the signal strength from one source only: frame
    errors are used only with no RSSI channel; on builds with an ADC the RSSI
    ADC feature leaves neither a channel nor frame errors; and on builds with
    PWM or PPM input, a PPM or parallel-PWM receiver leaves no frame errors.
    (Builds without a target-specific validation hook.) *)
Theorem rssi_source_exclusive w :
  TARGET_VALIDATECONFIG T = false ->
  let s' := pg (validateAndFixConfig X T w) in
  let r := rxConfig s' in
  (rssi_src_frame_errors r = true -> rssi_channel r = 0)
  ∧ (USE_ADC T = true -> FEATURE_RSSI_ADC ∈ features s' ->
     rssi_channel r = 0 ∧ rssi_src_frame_errors r = false)
  ∧ ((USE_PWM T = true ∨ USE_PPM T = true) ->
     FEATURE_RX_PPM ∈ features s' ∨ FEATURE_RX_PARALLEL_PWM ∈ features s' ->
     rssi_src_frame_errors r = false).
Proof.
  intros Htarget. cbv zeta. enter_validation Htarget.
  match goal with |- context [fixRssi T ?s0] =>
    pose proof (fixRssi_spec s0) as Hspec; cbv zeta in Hspec;
    assert (Hkeeps : keeps (@rxConfig E) (fixRssi T s0)
              (fixVtx T (fixOsdTimers X T (fixDshot T (fixBeeper X T (pruneFeatures T
      (fixDshotBitbang T (fixLinkedModes X T (fixEscSensor X T (fixGpsRescue X T
      (fixFeedForward X T (fixRssi T s0))))))))))))
      by through keeps_step;
    assert (Hshrinks : shrinks_features (fixRssi T s0)
              (fixVtx T (fixOsdTimers X T (fixDshot T (fixBeeper X T (pruneFeatures T
      (fixDshotBitbang T (fixLinkedModes X T (fixEscSensor X T (fixGpsRescue X T
      (fixFeedForward X T (fixRssi T s0))))))))))))
      by through shrinks_step;
    revert Hspec Hkeeps Hshrinks; generalize s0
  end.
  intros s0. generalize (fixRssi T s0). intros s1.
  match goal with |- _ -> keeps _ _ ?s2 -> _ => generalize s2 end.
  intros s2 (Hfeatures & Herrors & Hadc & Hpwm) Hkeeps Hshrinks.
  unfold keeps, shrinks_features in *. rewrite Hkeeps. rewrite Hfeatures in Hshrinks.
  split; [done|]. split.
  - intros Huse Hin. apply Hadc; [done|]. by apply Hshrinks.
  - intros Huse Hin. apply Hpwm; [done|]. destruct Hin as [Hin|Hin]; apply Hshrinks in Hin; auto.
Qed.

(** ** Mixer mode *)

Lemma fixMixerMode_spec s :
  USE_QUAD_MIXER_ONLY T = false ->
  let mode := mixerMode (mixerConfig s) in
  let mode' := mixerMode (mixerConfig (fixMixerMode X T s)) in
  (mode' = mode ∨ mode' = MIXER_CUSTOM ∨ mode' = MIXER_CUSTOM_AIRPLANE)
  ∧ (¬ is_custom_mixer mode' ->
     mode' = mode
     ∧ (mixers_motorCount X mode' = 0 ∨ mixers_motor_is_NULL X mode' = false)
     ∧ (USE_SERVOS T = true -> mixers_useServo X mode' = true ->
        servoMixers_servoRuleCount X mode' ≠ 0)).
Proof.
  intros Hquad. unfold fixMixerMode, is_custom_mixer. rewrite Hquad. cbv zeta.
  destruct (mixerMode (mixerConfig s)) as [| | |id] eqn:Hmode;
    match goal with |- context [negb ?b] =>
      let v := eval vm_compute in (negb b) in change (negb b) with v
    end;
    cbv iota;
    try (rewrite Hmode; split; [by left|]; intros Hnot; exfalso; apply Hnot; by auto).
  destruct (bool_decide (mixers_motorCount X (MIXER_FIXED id) ≠ 0)
            && mixers_motor_is_NULL X (MIXER_FIXED id)) eqn:Hmotor;
    destruct (USE_SERVOS T && (mixers_useServo X (MIXER_FIXED id)
              && bool_decide (servoMixers_servoRuleCount X (MIXER_FIXED id) = 0)))
      eqn:Hservo;
    cbn; rewrite ?Hmode;
    (split; [by auto|]); intros Hnot;
    try (exfalso; apply Hnot; by auto).
  split; [done|]. split.
  - apply andb_false_iff in Hmotor as [Hcount|Hnull]; [|by right].
    left. apply bool_decide_eq_false in Hcount.
    destruct (decide (mixers_motorCount X (MIXER_FIXED id) = 0)); [done|tauto].
  - intros Hservos Huses Hrules. rewrite Hservos, Huses in Hservo. cbn in Hservo.
    by apply bool_decide_eq_false in Hservo.
Qed.

(** Unless the build has the quad mixer only, validation leaves the mixer
    mode alone or replaces it by the custom or the custom-airplane mode, and
    a mode of the validated store that is not one of the custom modes is the
    one that was configured, has a motor table if it has motors, and, on
    builds with servos, has servo rules if it uses servos.  (Builds without a
    target-specific validation hook.) *)
Theorem mixer_mode_supported w :
  TARGET_VALIDATECONFIG T = false ->
  USE_QUAD_MIXER_ONLY T = false ->
  let mode := mixerMode (mixerConfig (pg w)) in
  let mode' := mixerMode (mixerConfig (pg (validateAndFixConfig X T w))) in
  (mode' = mode ∨ mode' = MIXER_CUSTOM ∨ mode' = MIXER_CUSTOM_AIRPLANE)
  ∧ (¬ is_custom_mixer mode' ->
     mode' = mode
     ∧ (mixers_motorCount X mode' = 0 ∨ mixers_motor_is_NULL X mode' = false)
     ∧ (USE_SERVOS T = true -> mixers_useServo X mode' = true ->
        servoMixers_servoRuleCount X mode' ≠ 0)).
Proof.
  intros Htarget Hquad. cbv zeta. enter_validation Htarget.
  pose proof (fixMixerMode_spec (pg w) Hquad) as Hspec. cbv zeta in Hspec.
  assert (Hkeeps : keeps (@mixerConfig E) (fixMixerMode X T (pg w))
            (fixVtx T (fixOsdTimers X T (fixDshot T (fixBeeper X T (pruneFeatures T
      (fixDshotBitbang T (fixLinkedModes X T (fixEscSensor X T (fixGpsRescue X T
      (fixFeedForward X T (fixRssi T (fixSoftSpi T (fixRxFeatures T (fixAlignments X T
      (fixPidProfileIndex T (fixActiveRateProfile T (fixBlackboxDevice T (fixLoopTime T
      (gyroMpuDetectionResult_sensor w) (fixSyncDenominators T (gyroConfigMutable
      (fixGyroFilters T) (fixDynamicFilter X T (gyro_targetLooptime w) (fixMotorConfig
      T (fixPidProfiles T (fixGpsSerial X T (fixSerialConfig X (fixMixerMode X T (pg
      w))))))))))))))))))))))))))))
    by through keeps_step.
  revert Hspec Hkeeps. generalize (fixMixerMode X T (pg w)). intros s1.
  match goal with |- _ -> keeps _ _ ?s2 -> _ => generalize s2 end.
  intros s2 Hspec Hkeeps. unfold keeps in Hkeeps. by rewrite Hkeeps.
Qed.

(** ** OSD timers *)

(** The loop of lines 521-527, run over the first [n] timers: each of them is
    then valid or the default of its slot, and the timers that were valid or
    lie beyond [n] are as they were. *)
Lemma fixOsdTimers_loop n s :
  let valid t := OSD_TIMER_SRC X t < OSD_TIMER_SRC_COUNT T
                 ∧ OSD_TIMER_PRECISION X t < OSD_TIMER_PREC_COUNT T in
  let s' := for_loop n
    (λ i s,
       match timers (osdConfig s) !! i with
       | Some t =>
           if (OSD_TIMER_SRC X t >=? OSD_TIMER_SRC_COUNT T)
              || (OSD_TIMER_PRECISION X t >=? OSD_TIMER_PREC_COUNT T)
           then osdConfigMutable
                  (λ c, set_timers (<[i := osdTimerDefault X i]> (timers c)) c) s
           else s
       | None => s
       end) s in
  (∀ i t, timers (osdConfig s') !! i = Some t -> (i < n)%nat ->
          valid t ∨ t = osdTimerDefault X i)
  ∧ (∀ i t, timers (osdConfig s) !! i = Some t -> (n ≤ i)%nat ∨ valid t ->
            timers (osdConfig s') !! i = Some t).
Proof.
  cbv zeta. induction n as [|n IH].
  - split; [intros; lia|]. by intros.
  - rewrite for_loop_S. revert IH.
    match goal with |- context [for_loop n ?body s] => generalize (for_loop n body s) end.
    intros s1 [IHnew IHold].
    destruct (timers (osdConfig s1) !! n) as [tn|] eqn:Hn.
    + destruct ((OSD_TIMER_SRC X tn >=? OSD_TIMER_SRC_COUNT T)
                || (OSD_TIMER_PRECISION X tn >=? OSD_TIMER_PREC_COUNT T)) eqn:Hbad.
      * cbn [osdConfig osdConfigMutable timers set_timers]. split.
        -- intros i t Ht Hi. destruct (decide (i = n)) as [->|Hne].
           ++ rewrite list_lookup_insert_eq in Ht by (by eapply lookup_lt_Some).
              right. congruence.
           ++ rewrite list_lookup_insert_ne in Ht by done. apply IHnew; [done|lia].
        -- intros i t Ht Hi. destruct (decide (i = n)) as [->|Hne].
           ++ exfalso. assert (Hsame : timers (osdConfig s1) !! n = Some t).
              { apply IHold; [done|]. left. lia. }
              rewrite Hn in Hsame. injection Hsame as ->.
              destruct Hi as [Hi|[Hsrc Hprec]]; [lia|].
              apply orb_true_iff in Hbad as [Hbad|Hbad]; apply Z.geb_le in Hbad; lia.
           ++ rewrite list_lookup_insert_ne by done. apply IHold; [done|].
              destruct Hi as [Hi|Hi]; [left; lia|by right].
      * split.
        -- intros i t Ht Hi. destruct (decide (i = n)) as [->|Hne].
           ++ left. rewrite Hn in Ht. injection Ht as <-.
              apply orb_false_iff in Hbad as [Hsrc Hprec].
              rewrite Z.geb_leb, Z.leb_gt in Hsrc, Hprec. lia.
           ++ apply IHnew; [done|lia].
        -- intros i t Ht Hi. destruct (decide (i = n)) as [->|Hne].
           ++ apply IHold; [done|]. left. lia.
           ++ apply IHold; [done|]. destruct Hi as [Hi|Hi]; [left; lia|by right].
    + split.
      * intros i t Ht Hi. destruct (decide (i = n)) as [->|Hne]; [congruence|].
        apply IHnew; [done|lia].
      * intros i t Ht Hi. destruct (decide (i = n)) as [->|Hne].
        -- apply IHold; [done|]. left. lia.
        -- apply IHold; [done|]. destruct Hi as [Hi|Hi]; [left; lia|by right].
Qed.

(** On a build with the OSD, each of the OSD timers of a validated store has a
    source and a precision that exist, or is the default of its slot; and a
    timer that had both is the one that was configured.  (Builds without a
    target-specific validation hook.) *)
Theorem osd_timers_valid w i :
  TARGET_VALIDATECONFIG T = false ->
  USE_OSD T = true ->
  let valid t := OSD_TIMER_SRC X t < OSD_TIMER_SRC_COUNT T
                 ∧ OSD_TIMER_PRECISION X t < OSD_TIMER_PREC_COUNT T in
  let timers' := timers (osdConfig (pg (validateAndFixConfig X T w))) in
  (∀ t, timers' !! i = Some t -> (i < OSD_TIMER_COUNT T)%nat ->
        valid t ∨ t = osdTimerDefault X i)
  ∧ (∀ t, timers (osdConfig (pg w)) !! i = Some t -> valid t -> timers' !! i = Some t).
Proof.
  intros Htarget Hosd. cbv zeta. enter_validation Htarget.
  match goal with |- context [fixOsdTimers X T ?s0] =>
    assert (Hbefore : keeps (@osdConfig E) (pg w) s0) by through keeps_step;
    assert (Hafter : keeps (@osdConfig E) (fixOsdTimers X T s0)
                       (fixVtx T (fixOsdTimers X T s0))) by through keeps_step;
    revert Hbefore Hafter; generalize s0
  end.
  intros s0 Hbefore. unfold fixOsdTimers. rewrite Hosd.
  pose proof (fixOsdTimers_loop (OSD_TIMER_COUNT T) s0) as Hloop. cbv zeta in Hloop.
  revert Hloop.
  match goal with |- context [for_loop ?n ?body s0] => generalize (for_loop n body s0) end.
  intros s1 [Hnew Hold].
  match goal with |- keeps _ _ ?s2 -> _ => generalize s2 end.
  intros s2 Hafter. unfold keeps in *. rewrite Hafter. rewrite Hbefore in Hold.
  split.
  - intros t Ht Hi. by apply Hnew.
  - intros t Ht Hvalid. apply Hold; [done|by right].
Qed.

(** ** The gyro rules *)

(** The gyro settings after [validateAndFixGyroConfig] are those that lines
    563-582 leave, the sync divisor apart. *)
Lemma validateAndFixGyroConfig_filters w :
  keeps (λ g, (gyro_lowpass_hz g, gyro_lowpass2_hz g, gyro_soft_notch_hz_1 g,
               gyro_soft_notch_cutoff_1 g, gyro_soft_notch_hz_2 g,
               gyro_soft_notch_cutoff_2 g, dyn_lpf_gyro_min_hz g, dyn_lpf_gyro_max_hz g))
    (fixGyroFilters T (gyroConfig (pg w)))
    (gyroConfig (pg (validateAndFixGyroConfig X T w))).
Proof.
  rewrite validateAndFixGyroConfig_pg.
  match goal with |- context [gyroConfigMutable (fixGyroFilters T) ?s0] =>
    assert (Hbefore : keeps (@gyroConfig E) (pg w) s0) by through keeps_step;
    assert (Hafter : keeps (λ s : pgStore E,
                (gyro_lowpass_hz (gyroConfig s), gyro_lowpass2_hz (gyroConfig s),
                 gyro_soft_notch_hz_1 (gyroConfig s), gyro_soft_notch_cutoff_1 (gyroConfig s),
                 gyro_soft_notch_hz_2 (gyroConfig s), gyro_soft_notch_cutoff_2 (gyroConfig s),
                 dyn_lpf_gyro_min_hz (gyroConfig s), dyn_lpf_gyro_max_hz (gyroConfig s)))
              (gyroConfigMutable (fixGyroFilters T) s0)
              (fixPidProfileIndex T (fixActiveRateProfile T (fixBlackboxDevice T (fixLoopTime T
      (gyroMpuDetectionResult_sensor w) (fixSyncDenominators T (gyroConfigMutable
      (fixGyroFilters T) s0)))))))
      by through keeps_step;
    revert Hbefore Hafter; generalize s0
  end.
  intros s0 Hbefore.
  match goal with |- keeps _ _ ?s2 -> _ => generalize s2 end.
  intros s2 Hafter. unfold keeps in *. rewrite Hafter. cbn. by rewrite Hbefore.
Qed.

Lemma fixGyroFilters_spec g0 :
  let g := fixGyroFilters T g0 in
  gyro_lowpass_hz g <= FILTER_FREQUENCY_MAX T
  ∧ gyro_lowpass2_hz g <= FILTER_FREQUENCY_MAX T
  ∧ (0 < gyro_soft_notch_hz_1 g -> gyro_soft_notch_cutoff_1 g < gyro_soft_notch_hz_1 g)
  ∧ (0 < gyro_soft_notch_hz_2 g -> gyro_soft_notch_cutoff_2 g < gyro_soft_notch_hz_2 g)
  ∧ (USE_DYN_LPF T = true ->
     dyn_lpf_gyro_min_hz g = 0 ∨ dyn_lpf_gyro_min_hz g <= dyn_lpf_gyro_max_hz g).
Proof.
  unfold fixGyroFilters. destruct g0 as [sync lpf lp lp2 h1 c1 h2 c2 dmin dmax].
  cbn -[adjustFilterLimit].
  pose proof (adjustFilterLimit_le lp) as Hlp.
  pose proof (adjustFilterLimit_le lp2) as Hlp2.
  revert Hlp Hlp2.
  generalize (adjustFilterLimit T lp (FILTER_FREQUENCY_MAX T)).
  generalize (adjustFilterLimit T lp2 (FILTER_FREQUENCY_MAX T)).
  generalize (adjustFilterLimit T h1 (FILTER_FREQUENCY_MAX T)).
  generalize (adjustFilterLimit T h2 (FILTER_FREQUENCY_MAX T)).
  generalize (adjustFilterLimit T c1 0).
  generalize (adjustFilterLimit T c2 0).
  intros c2' c1' h2' h1' lp2' lp' Hlp Hlp2.
  destruct (Z.geb_spec c1' h1'); cbn; destruct (Z.geb_spec c2' h2'); cbn;
    (destruct (USE_DYN_LPF T); cbn [andb];
     [destruct (Z.gtb_spec dmin dmax)|]);
    cbn; repeat split; try lia; try discriminate;
    try (intros _; first [by left | right; lia]).
Qed.

(** After [validateAndFixGyroConfig] the two gyro lowpass cutoffs are at or
    below the filter maximum, each of the two gyro notch filters is either off
    or has its cutoff strictly below its centre frequency, and, on builds with
    the dynamic lowpass, the lower end of the dynamic gyro lowpass range is 0
    or not above its upper end. *)
Theorem gyro_filters_consistent w :
  let g := gyroConfig (pg (validateAndFixGyroConfig X T w)) in
  gyro_lowpass_hz g <= FILTER_FREQUENCY_MAX T
  ∧ gyro_lowpass2_hz g <= FILTER_FREQUENCY_MAX T
  ∧ (0 < gyro_soft_notch_hz_1 g -> gyro_soft_notch_cutoff_1 g < gyro_soft_notch_hz_1 g)
  ∧ (0 < gyro_soft_notch_hz_2 g -> gyro_soft_notch_cutoff_2 g < gyro_soft_notch_hz_2 g)
  ∧ (USE_DYN_LPF T = true ->
     dyn_lpf_gyro_min_hz g = 0 ∨ dyn_lpf_gyro_min_hz g <= dyn_lpf_gyro_max_hz g).
Proof.
  cbv zeta. pose proof (validateAndFixGyroConfig_filters w) as Hkeeps.
  pose proof (fixGyroFilters_spec (gyroConfig (pg w))) as Hspec. cbv zeta in Hspec.
  revert Hkeeps Hspec. generalize (fixGyroFilters T (gyroConfig (pg w))). intros g1.
  generalize (gyroConfig (pg (validateAndFixGyroConfig X T w))). intros g2.
  unfold keeps. by intros [= -> -> -> -> -> -> -> ->].
Qed.

(** ** Unsynced PWM *)

Lemma fixLoopTime_motor sensor s :
  let m := dev (motorConfig s) in
  let m' := dev (motorConfig (fixLoopTime T sensor s)) in
  let cap :=
    match motorPwmProtocol m with
    | PWM_TYPE_ONESHOT125 => Some 2000
    | PWM_TYPE_ONESHOT42 => Some 10000
    | PWM_TYPE_MULTISHOT | PWM_TYPE_BRUSHED => Some 32000
    | _ => None
    end in
  motorPwmRate m'
  = match (if useUnsyncedPwm m then cap else None) with
    | Some c => Z.min (motorPwmRate m) c
    | None => motorPwmRate m
    end
  ∧ motorPwmProtocol m' = motorPwmProtocol m
  ∧ useUnsyncedPwm m' = useUnsyncedPwm m.
Proof.
  unfold fixLoopTime. cbv zeta.
  destruct (useUnsyncedPwm (dev (motorConfig s))) eqn:Hunsynced.
  - destruct (motorPwmProtocol (dev (motorConfig s))) eqn:Hproto;
      match goal with |- context [?a && bool_decide ?P] =>
        let v := eval vm_compute in (a && bool_decide P) in
        change (a && bool_decide P) with v
      end;
      cbv iota; cbn [motorConfig motorConfigMutable dev with_dev motorPwmRate
                     set_motorPwmRate motorPwmProtocol useUnsyncedPwm];
      rewrite ?Hproto, ?Hunsynced; try done;
      (split; [|done]); f_equal; unfold motorUpdateRestriction; by vm_compute.
  - destruct (Qltb _ _); cbn; by rewrite ?Hunsynced.
Qed.

(** With unsynced PWM, [validateAndFixGyroConfig] caps the motor PWM rate at
    what the protocol can take: 2000 Hz for ONESHOT125, 10000 Hz for
    ONESHOT42, 32000 Hz for MULTISHOT and for brushed motors.  It leaves the
    rate alone for the standard and the DSHOT protocols and with synced
    PWM. *)
Theorem unsynced_pwm_rate_capped w :
  let m := dev (motorConfig (pg w)) in
  let m' := dev (motorConfig (pg (validateAndFixGyroConfig X T w))) in
  let cap :=
    match motorPwmProtocol m with
    | PWM_TYPE_ONESHOT125 => Some 2000
    | PWM_TYPE_ONESHOT42 => Some 10000
    | PWM_TYPE_MULTISHOT | PWM_TYPE_BRUSHED => Some 32000
    | _ => None
    end in
  motorPwmRate m'
  = match (if useUnsyncedPwm m then cap else None) with
    | Some c => Z.min (motorPwmRate m) c
    | None => motorPwmRate m
    end
  ∧ motorPwmProtocol m' = motorPwmProtocol m
  ∧ useUnsyncedPwm m' = useUnsyncedPwm m.
Proof.
  cbv zeta. rewrite validateAndFixGyroConfig_pg.
  match goal with |- context [fixLoopTime T ?sensor ?s0] =>
    assert (Hbefore : keeps (@motorConfig E) (pg w) s0) by through keeps_step;
    assert (Hafter : keeps (@motorConfig E) (fixLoopTime T sensor s0)
              (fixPidProfileIndex T (fixActiveRateProfile T (fixBlackboxDevice T
                 (fixLoopTime T sensor s0))))) by through keeps_step;
    pose proof (fixLoopTime_motor sensor s0) as Hspec; cbv zeta in Hspec;
    revert Hbefore Hafter Hspec; generalize (fixLoopTime T sensor s0); generalize s0
  end.
  intros s0 s1.
  match goal with |- _ -> keeps _ _ ?s2 -> _ => generalize s2 end.
  intros s2 Hbefore Hafter. unfold keeps in *. by rewrite Hafter, Hbefore.
Qed.

(** ** Blackbox device *)

(** On a blackbox build, [validateAndFixGyroConfig] leaves no blackbox device
    selected whose storage driver is missing: device 1 (flash) without the
    flash file system and device 2 (SD card) without the SD card driver are
    replaced by "none"; any other selection is left as it is.  (For "none"
    being neither 1 nor 2.) *)
Theorem blackbox_device_supported w :
  USE_BLACKBOX T = true ->
  BLACKBOX_DEVICE_NONE T ≠ 1 -> BLACKBOX_DEVICE_NONE T ≠ 2 ->
  let d := device (blackboxConfig (pg w)) in
  let d' := device (blackboxConfig (pg (validateAndFixGyroConfig X T w))) in
  d' = (if (negb (USE_FLASHFS T) && (d =? 1)) || (negb (USE_SDCARD T) && (d =? 2))
        then BLACKBOX_DEVICE_NONE T else d)
  ∧ (USE_FLASHFS T = false -> d' ≠ 1)
  ∧ (USE_SDCARD T = false -> d' ≠ 2).
Proof.
  intros Hblackbox Hnone1 Hnone2. cbv zeta. rewrite validateAndFixGyroConfig_pg.
  match goal with |- context [fixBlackboxDevice T ?s0] =>
    assert (Hbefore : keeps (@blackboxConfig E) (pg w) s0) by through keeps_step;
    assert (Hafter : keeps (@blackboxConfig E) (fixBlackboxDevice T s0)
              (fixPidProfileIndex T (fixActiveRateProfile T (fixBlackboxDevice T s0))))
      by through keeps_step;
    revert Hbefore Hafter; generalize s0
  end.
  intros s0 Hbefore.
  match goal with |- keeps _ _ ?s2 -> _ => generalize s2 end.
  intros s2 Hafter. unfold keeps in *. rewrite Hafter, <- Hbefore.
  unfold fixBlackboxDevice. rewrite Hblackbox.
  destruct (USE_FLASHFS T), (USE_SDCARD T); cbn [negb andb orb];
    destruct (Z.eqb_spec (device (blackboxConfig s0)) 1) as [H1|H1]; cbn;
    repeat match goal with
           | |- context [?a =? ?b] => destruct (Z.eqb_spec a b); cbn
           end;
    repeat split; try done; try lia; intros; try done; lia.
Qed.

(** ** GPS rescue *)

Lemma fixGpsRescue_spec s :
  features (fixGpsRescue X T s) = features s
  ∧ (USE_GPS_RESCUE T = true ->
     failsafe_procedure (failsafeConfig (fixGpsRescue X T s)) = FAILSAFE_PROCEDURE_GPS_RESCUE ->
     USE_GPS T = true ∧ FEATURE_GPS ∈ features s ∧ FEATURE_3D ∉ features s).
Proof.
  unfold fixGpsRescue. rewrite !featureIsEnabled_singleton.
  destruct (USE_GPS_RESCUE T); cbn [andb negb orb].
  - destruct (decide (FEATURE_3D ∈ features s)) as [H3d|H3d];
      [rewrite (bool_decide_eq_true_2 _ H3d)|rewrite (bool_decide_eq_false_2 _ H3d)];
      (destruct (decide (FEATURE_GPS ∈ features s)) as [Hgps|Hgps];
       [rewrite (bool_decide_eq_true_2 _ Hgps)|rewrite (bool_decide_eq_false_2 _ Hgps)]);
      destruct (USE_GPS T); cbn [andb negb orb]; cbv zeta;
      try (split; [done|]; by intros _ _);
      (destruct (decide (failsafe_procedure (failsafeConfig s)
                         = FAILSAFE_PROCEDURE_GPS_RESCUE)) as [Hp|Hp];
       [rewrite (bool_decide_eq_true_2 _ Hp)|rewrite (bool_decide_eq_false_2 _ Hp)]);
      match goal with |- context [isModeActivationConditionPresent X ?b ?l] =>
        destruct (isModeActivationConditionPresent X b l)
      end;
      cbn; (split; [done|]); intros _ ?; congruence.
  - rewrite !orb_true_r. cbv zeta.
    destruct (isModeActivationConditionPresent X _ _); cbn; (split; [done|]); done.
Qed.

(** In a validated store of a GPS rescue build, the failsafe procedure is GPS
    rescue only on a GPS build, with the GPS feature set and the 3D feature
    clear.  (Builds without a target-specific validation hook.) *)
Theorem gps_rescue_needs_gps w :
  TARGET_VALIDATECONFIG T = false ->
  USE_GPS_RESCUE T = true ->
  let s' := pg (validateAndFixConfig X T w) in
  failsafe_procedure (failsafeConfig s') = FAILSAFE_PROCEDURE_GPS_RESCUE ->
  USE_GPS T = true ∧ FEATURE_GPS ∈ features s' ∧ FEATURE_3D ∉ features s'.
Proof.
  intros Htarget Hrescue. cbv zeta. enter_validation Htarget.
  match goal with |- context [fixGpsRescue X T ?s0] =>
    pose proof (fixGpsRescue_spec s0) as Hspec;
    assert (Hkeeps : keeps (@failsafeConfig E) (fixGpsRescue X T s0)
              (fixVtx T (fixOsdTimers X T (fixDshot T (fixBeeper X T (pruneFeatures T
      (fixDshotBitbang T (fixLinkedModes X T (fixEscSensor X T (fixGpsRescue X T
      s0))))))))))
      by through keeps_step;
    assert (Hgps : keeps_feature FEATURE_GPS (fixGpsRescue X T s0)
              (fixVtx T (fixOsdTimers X T (fixDshot T (fixBeeper X T (pruneFeatures T
      (fixDshotBitbang T (fixLinkedModes X T (fixEscSensor X T (fixGpsRescue X T
      s0))))))))))
      by through ltac:(idtac; lazymatch goal with
                    | |- keeps_feature _ _ (pruneFeatures _ _) => apply keeps_gps_pruneFeatures
                    | |- _ => unfold_steps; walk keeps_feature_base
                    end);
    assert (Hshrinks : shrinks_features (fixGpsRescue X T s0)
              (fixVtx T (fixOsdTimers X T (fixDshot T (fixBeeper X T (pruneFeatures T
      (fixDshotBitbang T (fixLinkedModes X T (fixEscSensor X T (fixGpsRescue X T
      s0))))))))))
      by through shrinks_step;
    revert Hspec Hkeeps Hgps Hshrinks; generalize s0
  end.
  intros s0. generalize (fixGpsRescue X T s0). intros s1.
  match goal with |- _ -> keeps _ _ ?s2 -> _ => generalize s2 end.
  intros s2 [Hfeatures Hspec] Hkeeps Hgps Hshrinks Hprocedure.
  unfold keeps, keeps_feature, shrinks_features in *.
  rewrite Hkeeps in Hprocedure. destruct (Hspec Hrescue Hprocedure) as (Huse & Hin & H3d).
  rewrite <- Hfeatures in Hin, H3d. split; [done|]. split; [by apply Hgps|].
  intros Hin'. apply H3d. by apply Hshrinks.
Qed.

(** ** Validation and the run-time state *)

(** The store after [validateAndFixConfig] in terms of the world after the
    call of [validateAndFixGyroConfig] inside it. *)
Lemma validateAndFixConfig_after_gyro w :
  ∃ wg, same_runtime w wg
        ∧ currentPidProfile wg = pidProfileIndex (systemConfig (pg wg))
        ∧ currentControlRateProfile wg = activeRateProfile (systemConfig (pg wg))
        ∧ ((0 < PID_PROFILE_COUNT T)%nat ->
           (pidProfileIndex (systemConfig (pg wg)) < PID_PROFILE_COUNT T)%nat)
        ∧ ((0 < CONTROL_RATE_PROFILE_COUNT T)%nat ->
           (activeRateProfile (systemConfig (pg wg)) < CONTROL_RATE_PROFILE_COUNT T)%nat)
        ∧ currentPidProfile (validateAndFixConfig X T w) = currentPidProfile wg
        ∧ currentControlRateProfile (validateAndFixConfig X T w)
          = currentControlRateProfile wg
        ∧ (TARGET_VALIDATECONFIG T = false ->
           systemConfig (pg (validateAndFixConfig X T w)) = systemConfig (pg wg)).
Proof.
  unfold validateAndFixConfig. cbv zeta.
  match goal with |- context [validateAndFixGyroConfig X T ?w5] =>
    assert (Hbefore : same_runtime w w5)
      by (repeat lazymatch goal with
                 | |- same_runtime ?w (with_pg ?f ?w1) =>
                     apply (same_runtime_trans w w1); [|apply same_runtime_with_pg]
                 end; apply same_runtime_refl);
    pose proof (same_runtime_validateAndFixGyroConfig w5) as Hgyro;
    destruct (validateAndFixGyroConfig_pointers w5) as [Hrate Hpid];
    pose proof (validateAndFixGyroConfig_pg w5) as Hpg;
    revert Hbefore Hgyro Hrate Hpid Hpg; generalize w5
  end.
  intros w5.
  match goal with |- context [fixBlackboxDevice T ?s] => generalize s end.
  intros s. generalize (validateAndFixGyroConfig X T w5). intros wg.
  intros Hbefore Hgyro Hrate Hpid Hpg. exists wg.
  split; [by eapply same_runtime_trans|]. split; [done|]. split; [done|].
  split; [|split; [|split; [done|split; [done|]]]].
  - intros Hcount. rewrite Hpg. unfold fixPidProfileIndex.
    case_bool_decide; cbn; lia.
  - intros Hcount. rewrite Hpg. unfold fixPidProfileIndex, fixActiveRateProfile.
    repeat case_bool_decide; cbn in *; lia.
  - intros Htarget.
    cbn [pg with_pg]. rewrite (runTargetValidation_off _ Htarget).
    change (keeps (@systemConfig E) (pg wg)
              (fixVtx T (fixOsdTimers X T (fixDshot T (fixBeeper X T (pruneFeatures T
      (fixDshotBitbang T (fixLinkedModes X T (fixEscSensor X T (fixGpsRescue X T
      (fixFeedForward X T (fixRssi T (fixSoftSpi T (fixRxFeatures T (fixAlignments X T
      (pg wg)))))))))))))))).
    through keeps_step.
Qed.


(** ** Writing and resetting *)

Lemma writeUnmodifiedConfigToEEPROM_spec w :
  let v := validateAndFixConfig X T w in
  let w' := writeUnmodifiedConfigToEEPROM X T w in
  pg w' = pg v
  ∧ currentPidProfile w' = currentPidProfile v
  ∧ currentControlRateProfile w' = currentControlRateProfile v
  ∧ configIsDirty w' = false
  ∧ eeprom w' = writeConfigToEEPROM X (pg v) (eeprom w)
  ∧ trace w' = trace w ++ [Ev_suspendRxPwmPpmSignal; Ev_writeConfigToEEPROM;
                           Ev_resumeRxPwmPpmSignal].
Proof.
  cbv zeta. unfold writeUnmodifiedConfigToEEPROM. cbv zeta.
  destruct (same_runtime_validateAndFixConfig w) as (_ & _ & _ & _ & _ & _ & He & Ht).
  revert He Ht. generalize (validateAndFixConfig X T w). intros v He Ht.
  cbn. rewrite He, Ht. repeat split. by rewrite <- !(assoc_L (++)).
Qed.

(** [writeEEPROM] writes the image from the store that validation leaves,
    which is also the store it returns with; the store is then marked as
    configured and the dirty flag is clear.  (The mark: builds without a
    target-specific validation hook.) *)
Theorem writeEEPROM_stores_validated_config w :
  let w' := writeEEPROM X T w in
  eeprom w' = writeConfigToEEPROM X (pg w') (eeprom w)
  ∧ isConfigDirty w' = false
  ∧ (TARGET_VALIDATECONFIG T = false -> isSystemConfigured w' = true).
Proof.
  cbv zeta. unfold writeEEPROM, isConfigDirty, isSystemConfigured.
  match goal with |- context [writeUnmodifiedConfigToEEPROM X T ?w1] =>
    destruct (writeUnmodifiedConfigToEEPROM_spec w1) as (Hpg & _ & _ & Hdirty & He & _);
    assert (Hstate : TARGET_VALIDATECONFIG T = false ->
              configurationState (systemConfig (pg (validateAndFixConfig X T w1)))
              = CONFIGURATION_STATE_CONFIGURED);
    [|revert Hpg Hdirty He Hstate; generalize (validateAndFixConfig X T w1);
      generalize (writeUnmodifiedConfigToEEPROM X T w1)]
  end.
  - intros Htarget. enter_validation Htarget.
    cbn [pg with_pg].
    transitivity (configurationState (systemConfig
      (systemConfigMutable (set_configurationState CONFIGURATION_STATE_CONFIGURED) (pg w))));
      [|done].
    change (keeps (λ s : pgStore E, configurationState (systemConfig s))
              (systemConfigMutable (set_configurationState CONFIGURATION_STATE_CONFIGURED)
                 (pg w))
              (fixVtx T (fixOsdTimers X T (fixDshot T (fixBeeper X T (pruneFeatures T
      (fixDshotBitbang T (fixLinkedModes X T (fixEscSensor X T (fixGpsRescue X T
      (fixFeedForward X T (fixRssi T (fixSoftSpi T (fixRxFeatures T (fixAlignments X T
      (fixPidProfileIndex T (fixActiveRateProfile T (fixBlackboxDevice T (fixLoopTime T
      (gyroMpuDetectionResult_sensor w) (fixSyncDenominators T (gyroConfigMutable
      (fixGyroFilters T) (fixDynamicFilter X T (gyro_targetLooptime w) (fixMotorConfig
      T (fixPidProfiles T (fixGpsSerial X T (fixSerialConfig X (fixMixerMode X T
      (systemConfigMutable (set_configurationState CONFIGURATION_STATE_CONFIGURED) (pg
      w))))))))))))))))))))))))))))).
    through keeps_step.
  - intros w' v Hpg Hdirty He Hstate. rewrite Hpg, Hdirty, He. cbn.
    split; [done|]. split; [done|]. intros Htarget. by rewrite (Hstate Htarget), bool_decide_eq_true_2.
Qed.

Lemma resetEEPROM_cases useCustomDefaults w :
  let ok := fst (resetEEPROM X T useCustomDefaults w) in
  let w' := snd (resetEEPROM X T useCustomDefaults w) in
  let attempt := resetConfigToCustomDefaults X (pg w) in
  (ok = false ↔ USE_CUSTOM_DEFAULTS T = true ∧ useCustomDefaults = true ∧ fst attempt = false)
  ∧ (ok = false ->
     pg w' = snd attempt
     ∧ eeprom w' = eeprom w ∧ trace w' = trace w
     ∧ configIsDirty w' = configIsDirty w
     ∧ currentPidProfile w' = currentPidProfile w
     ∧ currentControlRateProfile w' = currentControlRateProfile w)
  ∧ (ok = true ->
     eeprom w' = writeConfigToEEPROM X (pg w') (eeprom w)
     ∧ configIsDirty w' = false
     ∧ trace w' = trace w ++ [Ev_suspendRxPwmPpmSignal; Ev_writeConfigToEEPROM;
                              Ev_resumeRxPwmPpmSignal]).
Proof.
  cbv zeta. unfold resetEEPROM.
  assert (Hwrite : ∀ w1, eeprom w1 = eeprom w -> trace w1 = trace w ->
    let w' := writeUnmodifiedConfigToEEPROM X T w1 in
    eeprom w' = writeConfigToEEPROM X (pg w') (eeprom w)
    ∧ configIsDirty w' = false
    ∧ trace w' = trace w ++ [Ev_suspendRxPwmPpmSignal; Ev_writeConfigToEEPROM;
                             Ev_resumeRxPwmPpmSignal]).
  { intros w1 He1 Ht1. cbv zeta.
    destruct (writeUnmodifiedConfigToEEPROM_spec w1) as (Hpg & _ & _ & Hdirty & He & Ht).
    revert Hpg Hdirty He Ht. generalize (validateAndFixConfig X T w1).
    generalize (writeUnmodifiedConfigToEEPROM X T w1). intros w' v Hpg Hdirty He Ht.
    rewrite Hpg, Hdirty, He, Ht, He1, Ht1. repeat split. }
  destruct (USE_CUSTOM_DEFAULTS T), useCustomDefaults; cbn [andb].
  - destruct (resetConfigToCustomDefaults X (pg w)) as [[|] s] eqn:Hattempt;
      cbn [negb fst snd].
    + pose proof (Hwrite (with_pg (λ _, s) w) eq_refl eq_refl) as Hw. cbv zeta in Hw.
      revert Hw. generalize (writeUnmodifiedConfigToEEPROM X T (with_pg (λ _, s) w)).
      intros w' Hw. split; [split; [discriminate|intros (_ & _ & ?); discriminate]|].
      split; [discriminate|]. intros _. exact Hw.
    + split; [split; [by intros _|by intros _]|]. split; [|discriminate].
      intros _. repeat split.
  - assert (Hreset : eeprom (resetConfig X T w) = eeprom w
                     ∧ trace (resetConfig X T w) = trace w)
      by (unfold resetConfig; destruct (USE_TARGET_CONFIG T); by split).
    destruct Hreset as [He Ht].
    pose proof (Hwrite (resetConfig X T w) He Ht) as Hw. cbv zeta in Hw.
    revert Hw. generalize (writeUnmodifiedConfigToEEPROM X T (resetConfig X T w)).
    intros w' Hw. cbn [fst snd].
    split; [split; [discriminate|intros (_ & ? & _); discriminate]|].
    split; [discriminate|]. intros _. exact Hw.
  - assert (Hreset : eeprom (resetConfig X T w) = eeprom w
                     ∧ trace (resetConfig X T w) = trace w)
      by (unfold resetConfig; destruct (USE_TARGET_CONFIG T); by split).
    destruct Hreset as [He Ht].
    pose proof (Hwrite (resetConfig X T w) He Ht) as Hw. cbv zeta in Hw.
    revert Hw. generalize (writeUnmodifiedConfigToEEPROM X T (resetConfig X T w)).
    intros w' Hw. cbn [fst snd].
    split; [split; [discriminate|intros (? & _ & _); discriminate]|].
    split; [discriminate|]. intros _. exact Hw.
  - assert (Hreset : eeprom (resetConfig X T w) = eeprom w
                     ∧ trace (resetConfig X T w) = trace w)
      by (unfold resetConfig; destruct (USE_TARGET_CONFIG T); by split).
    destruct Hreset as [He Ht].
    pose proof (Hwrite (resetConfig X T w) He Ht) as Hw. cbv zeta in Hw.
    revert Hw. generalize (writeUnmodifiedConfigToEEPROM X T (resetConfig X T w)).
    intros w' Hw. cbn [fst snd].
    split; [split; [discriminate|intros (? & _ & _); discriminate]|].
    split; [discriminate|]. intros _. exact Hw.
Qed.

(** [resetEEPROM] fails only when custom defaults were asked for, on a build
    that has them, and could not be applied.  It then returns with the store
    as the failed attempt left it and with nothing else touched: no
    validation, no write, the dirty flag and the profile pointers as they
    were.  In every other case it returns [true] with the image written from
    the store it returns with and the dirty flag clear. *)
Theorem resetEEPROM_outcome useCustomDefaults w :
  let ok := fst (resetEEPROM X T useCustomDefaults w) in
  let w' := snd (resetEEPROM X T useCustomDefaults w) in
  let attempt := resetConfigToCustomDefaults X (pg w) in
  (ok = false ↔ USE_CUSTOM_DEFAULTS T = true ∧ useCustomDefaults = true ∧ fst attempt = false)
  ∧ (ok = false ->
     pg w' = snd attempt
     ∧ eeprom w' = eeprom w ∧ trace w' = trace w
     ∧ configIsDirty w' = configIsDirty w
     ∧ currentPidProfile w' = currentPidProfile w
     ∧ currentControlRateProfile w' = currentControlRateProfile w)
  ∧ (ok = true ->
     eeprom w' = writeConfigToEEPROM X (pg w') (eeprom w)
     ∧ configIsDirty w' = false
     ∧ trace w' = trace w ++ [Ev_suspendRxPwmPpmSignal; Ev_writeConfigToEEPROM;
                              Ev_resumeRxPwmPpmSignal]).
Proof. apply resetEEPROM_cases. Qed.

(** ** Reading and activating *)

Lemma activateConfig_spec w :
  let w' := activateConfig T w in
  pg w' = pg w
  ∧ currentPidProfile w' = pidProfileIndex (systemConfig (pg w))
  ∧ currentControlRateProfile w' = activeRateProfile (systemConfig (pg w))
  ∧ eeprom w' = eeprom w
  ∧ configIsDirty w' = configIsDirty w
  ∧ ∃ before after,
      trace w' = trace w ++ before
                 ++ [Ev_pidInit (pidProfileIndex (systemConfig (pg w)))] ++ after.
Proof.
  cbv zeta. unfold activateConfig, emit, loadPidProfile, loadControlRateProfile.
  destruct (USE_ACC T), (USE_LED_STRIP_STATUS_MODE T); cbn;
    repeat (split; [done|]);
    rewrite <- !(assoc_L (++)); cbn;
    eexists [_; _; _], _; reflexivity.
Qed.

Lemma readEEPROM_spec w :
  let loaded := loadEEPROM X (eeprom w) (pg w) in
  let v := validateAndFixConfig X T
             (emit (Ev_loadEEPROM (fst loaded))
                (with_pg (λ _, snd loaded) (suspendRxPwmPpmSignal w))) in
  let w' := snd (readEEPROM X T w) in
  fst (readEEPROM X T w) = fst loaded
  ∧ pg w' = pg v
  ∧ currentPidProfile w' = pidProfileIndex (systemConfig (pg v))
  ∧ currentControlRateProfile w' = activeRateProfile (systemConfig (pg v))
  ∧ eeprom w' = eeprom w
  ∧ configIsDirty w' = configIsDirty w
  ∧ ∃ before after,
      trace w' = trace w ++ before
                 ++ [Ev_pidInit (pidProfileIndex (systemConfig (pg v)))] ++ after.
Proof.
  cbv zeta. unfold readEEPROM.
  change (eeprom (suspendRxPwmPpmSignal w)) with (eeprom w).
  change (pg (suspendRxPwmPpmSignal w)) with (pg w).
  destruct (loadEEPROM X (eeprom w) (pg w)) as [success s]. cbv zeta. cbn [fst snd].
  match goal with |- context [validateAndFixConfig X T ?w2] =>
    destruct (same_runtime_validateAndFixConfig w2) as (_ & _ & Hd & _ & _ & _ & He & Ht);
    revert Hd He Ht; generalize (validateAndFixConfig X T w2)
  end.
  intros v Hd He Ht.
  destruct (activateConfig_spec v) as (Hpg & Hpid & Hrate & He' & Hd' & before & after & Ht').
  revert Hpg Hpid Hrate He' Hd' Ht'. generalize (activateConfig T v).
  intros w4 Hpg Hpid Hrate He' Hd' Ht'. cbn.
  rewrite Hpg, Hpid, Hrate, He', Hd', Ht', He, Hd, Ht. cbn.
  repeat (split; [done|]).
  exists ([Ev_suspendRxPwmPpmSignal; Ev_loadEEPROM success] ++ before),
         (after ++ [Ev_resumeRxPwmPpmSignal]).
  by rewrite <- !(assoc_L (++)).
Qed.

(** [readEEPROM] hands the PID controller a profile that exists: when it
    returns, the two active-profile pointers are those of the two indices of
    the validated store, both within their arrays, and the PID controller has
    been initialised with that PID profile.  The stored image and the dirty
    flag are as before the call.  (Builds without a target-specific
    validation hook; the two counts are positive constants.) *)
Theorem readEEPROM_activates_checked_profiles w :
  TARGET_VALIDATECONFIG T = false ->
  (0 < PID_PROFILE_COUNT T)%nat ->
  (0 < CONTROL_RATE_PROFILE_COUNT T)%nat ->
  let w' := snd (readEEPROM X T w) in
  currentPidProfile w' = getCurrentPidProfileIndex w'
  ∧ (currentPidProfile w' < PID_PROFILE_COUNT T)%nat
  ∧ currentControlRateProfile w' = getCurrentControlRateProfileIndex w'
  ∧ (currentControlRateProfile w' < CONTROL_RATE_PROFILE_COUNT T)%nat
  ∧ Ev_pidInit (currentPidProfile w') ∈ trace w'
  ∧ eeprom w' = eeprom w
  ∧ isConfigDirty w' = isConfigDirty w.
Proof.
  intros Htarget Hpids Hrates. cbv zeta.
  unfold getCurrentPidProfileIndex, getCurrentControlRateProfileIndex, isConfigDirty.
  destruct (readEEPROM_spec w)
    as (_ & Hpg & Hpid & Hrate & He & Hd & before & after & Ht). cbv zeta in *.
  revert Hpg Hpid Hrate Ht.
  match goal with |- context [validateAndFixConfig X T ?w2] =>
    destruct (validateAndFixConfig_after_gyro w2)
      as (wg & _ & _ & _ & Hpid_lt & Hrate_lt & _ & _ & Hsys);
    specialize (Hsys Htarget); specialize (Hpid_lt Hpids); specialize (Hrate_lt Hrates);
    revert Hsys; generalize (validateAndFixConfig X T w2)
  end.
  intros v Hsys Hpg Hpid Hrate Ht. rewrite <- Hsys in Hpid_lt, Hrate_lt.
  revert Hpg Hpid Hrate Ht He Hd. generalize (snd (readEEPROM X T w)).
  intros w' Hpg Hpid Hrate Ht He Hd.
  rewrite Hpg, Hpid, Hrate, Ht, He, Hd. repeat (split; [done|]).
  split; [|done]. rewrite !elem_of_app. right. right. left. by apply list_elem_of_singleton.
Qed.

(** ** The dirty flag *)

Lemma configIsDirty_changePidProfile i w :
  configIsDirty (changePidProfile T i w) = configIsDirty w.
Proof. unfold changePidProfile. by destruct (_ <? _)%nat. Qed.

(** What each operation of the module does to the dirty flag: setting it
    raises it; the four writing operations, a reset that succeeds and the
    repair of an invalid stored image clear it; everything else, a failed
    reset included, leaves it as it is. *)
Theorem dirty_flag_after op w w' :
  run X T op w w' ->
  isConfigDirty w'
  = match op with
    | Op_setConfigDirty => true
    | Op_writeUnmodifiedConfigToEEPROM | Op_writeEEPROM
    | Op_writeEEPROMWithFeatures _ | Op_saveConfigAndNotify => false
    | Op_resetEEPROM useCustomDefaults =>
        if fst (resetEEPROM X T useCustomDefaults w) then false else isConfigDirty w
    | Op_ensureEEPROMStructureIsValid =>
        if isEEPROMStructureValid X (eeprom w) then isConfigDirty w else false
    | _ => isConfigDirty w
    end.
Proof.
  unfold isConfigDirty.
  assert (Hwrite : ∀ w1, configIsDirty (writeUnmodifiedConfigToEEPROM X T w1) = false).
  { intros w1. destruct (writeUnmodifiedConfigToEEPROM_spec w1) as (_ & _ & _ & H & _).
    exact H. }
  assert (Hreset : ∀ b w1, configIsDirty (snd (resetEEPROM X T b w1))
            = if fst (resetEEPROM X T b w1) then false else configIsDirty w1).
  { intros b w1. destruct (resetEEPROM_cases b w1) as (_ & Hfail & Hok). cbv zeta in *.
    revert Hfail Hok. generalize (resetEEPROM X T b w1). intros [[|] w2] Hfail Hok.
    - destruct (Hok eq_refl) as (_ & H & _). exact H.
    - destruct (Hfail eq_refl) as (_ & _ & _ & H & _). exact H. }
  destruct 1 as [w|w|w|w|w|fs w|b w|w|w|w|cellCount fuel w w' Hswitch|i w|w].
  - unfold resetConfig. by destruct (USE_TARGET_CONFIG T).
  - destruct (same_runtime_validateAndFixGyroConfig w) as (_ & _ & H & _). exact H.
  - destruct (readEEPROM_spec w) as (_ & _ & _ & _ & _ & H & _). exact H.
  - apply Hwrite.
  - unfold writeEEPROM. apply Hwrite.
  - unfold writeEEPROMWithFeatures, writeEEPROM. apply Hwrite.
  - apply Hreset.
  - unfold ensureEEPROMStructureIsValid.
    destruct (isEEPROMStructureValid X (eeprom w)); [reflexivity|].
    rewrite Hreset.
    destruct (resetEEPROM_cases false w) as (Hiff & _). cbv zeta in Hiff.
    revert Hiff. generalize (resetEEPROM X T false w). intros [[|] w2] Hiff; [reflexivity|].
    destruct (proj1 Hiff eq_refl) as (_ & ? & _). discriminate.
  - unfold saveConfigAndNotify. cbv zeta.
    pose proof (Hwrite (with_pg (systemConfigMutable
      (set_configurationState CONFIGURATION_STATE_CONFIGURED)) w)) as Hw.
    fold (writeEEPROM X T w) in Hw. revert Hw. generalize (writeEEPROM X T w). intros w1 Hw.
    destruct (readEEPROM_spec w1) as (_ & _ & _ & _ & _ & Hread & _). cbv zeta in Hread.
    revert Hread. generalize (snd (readEEPROM X T w1)). intros w2 Hread.
    cbn. by rewrite Hread.
  - reflexivity.
  - revert Hswitch. unfold changePidProfileFromCellCount.
    repeat case_match; intros; simplify_eq; try reflexivity.
    apply configIsDirty_changePidProfile.
  - apply configIsDirty_changePidProfile.
  - reflexivity.
Qed.

(** ** Writing with a feature mask *)

(** [writeEEPROMWithFeatures] discards the features that were set: of the
    stored features, each is in the mask given or is the default
    receiver-input feature, and none is without its driver.  (Builds without
    a target-specific validation hook.) *)
Theorem writeEEPROMWithFeatures_replaces_features mask w :
  TARGET_VALIDATECONFIG T = false ->
  let fs' := features (pg (writeEEPROMWithFeatures X T mask w)) in
  fs' ⊆ mask ∪ {[ DEFAULT_RX_FEATURE T ]}
  ∧ fs' ∩ unsupported_features T = ∅.
Proof.
  intros Htarget. cbv zeta. unfold writeEEPROMWithFeatures, writeEEPROM.
  match goal with |- context [writeUnmodifiedConfigToEEPROM X T ?w1] =>
    destruct (writeUnmodifiedConfigToEEPROM_spec w1) as (Hpg & _);
    destruct (validateAndFixConfig_features w1 Htarget) as [Hpruned Hadds];
    assert (Hmask : features (pg w1) = ∅ ∪ mask) by reflexivity;
    cbv zeta in *;
    revert Hpg Hpruned Hadds Hmask;
    generalize (validateAndFixConfig X T w1); generalize (pg w1);
    generalize (writeUnmodifiedConfigToEEPROM X T w1)
  end.
  intros w' s1 v Hpg Hpruned Hadds Hmask. rewrite Hpg, Hmask in *.
  split; [|done]. clear -Hadds. set_solver.
Qed.

(** ** The active-profile pointers *)

Lemma pointers_synced_validateAndFixConfig w :
  TARGET_VALIDATECONFIG T = false -> pointers_synced (validateAndFixConfig X T w).
Proof.
  intros Htarget. unfold pointers_synced.
  destruct (validateAndFixConfig_after_gyro w)
    as (wg & _ & Hpid & Hrate & _ & _ & Hpid' & Hrate' & Hsys).
  by rewrite Hpid', Hrate', (Hsys Htarget).
Qed.

Lemma validateAndFixGyroConfig_pointers_synced w :
  pointers_synced (validateAndFixGyroConfig X T w).
Proof.
  destruct (validateAndFixGyroConfig_pointers w) as [Hrate Hpid]. by split.
Qed.

Lemma pointers_synced_writeUnmodifiedConfigToEEPROM w :
  TARGET_VALIDATECONFIG T = false ->
  pointers_synced (writeUnmodifiedConfigToEEPROM X T w).
Proof.
  intros Htarget. pose proof (pointers_synced_validateAndFixConfig w Htarget) as Hv.
  destruct (writeUnmodifiedConfigToEEPROM_spec w) as (Hpg & Hpid & Hrate & _).
  cbv zeta in *. unfold pointers_synced in *. by rewrite Hpg, Hpid, Hrate.
Qed.

Lemma pointers_synced_readEEPROM w : pointers_synced (snd (readEEPROM X T w)).
Proof.
  destruct (readEEPROM_spec w) as (_ & Hpg & Hpid & Hrate & _). cbv zeta in *.
  unfold pointers_synced. by rewrite Hpg, Hpid, Hrate.
Qed.

Lemma pointers_synced_changePidProfile i w :
  pointers_synced w -> pointers_synced (changePidProfile T i w).
Proof.
  unfold pointers_synced, changePidProfile, loadPidProfile. intros [Hpid Hrate].
  by destruct (_ <? _)%nat.
Qed.

(** The active-profile pointers follow the indices in the store through every
    operation of the module but two: [resetConfig], which replaces the store
    and reloads nothing, and a [resetEEPROM] that fails after replacing the
    store.  (Builds without a target-specific validation hook.) *)
Theorem pointers_stay_synced op w w' :
  TARGET_VALIDATECONFIG T = false ->
  run X T op w w' ->
  op ≠ Op_resetConfig ->
  (∀ useCustomDefaults, op = Op_resetEEPROM useCustomDefaults ->
     fst (resetEEPROM X T useCustomDefaults w) = true) ->
  pointers_synced w -> pointers_synced w'.
Proof.
  intros Htarget Hrun Hop Hreset Hsynced.
  assert (Hsucceeds : ∀ b w1, fst (resetEEPROM X T b w1) = true ->
            pointers_synced (snd (resetEEPROM X T b w1))).
  { intros b w1. unfold resetEEPROM.
    destruct (USE_CUSTOM_DEFAULTS T && b).
    - destruct (resetConfigToCustomDefaults X (pg w1)) as [[|] s]; cbn [negb fst snd];
        [intros _|discriminate].
      by apply pointers_synced_writeUnmodifiedConfigToEEPROM.
    - intros _. cbn [snd]. by apply pointers_synced_writeUnmodifiedConfigToEEPROM. }
  destruct Hrun as [w|w|w|w|w|fs w|b w|w|w|w|cellCount fuel w w' Hswitch|i w|w].
  - done.
  - apply validateAndFixGyroConfig_pointers_synced.
  - apply pointers_synced_readEEPROM.
  - by apply pointers_synced_writeUnmodifiedConfigToEEPROM.
  - unfold writeEEPROM. by apply pointers_synced_writeUnmodifiedConfigToEEPROM.
  - unfold writeEEPROMWithFeatures, writeEEPROM.
    by apply pointers_synced_writeUnmodifiedConfigToEEPROM.
  - apply Hsucceeds. by apply Hreset.
  - unfold ensureEEPROMStructureIsValid.
    destruct (isEEPROMStructureValid X (eeprom w)); [exact Hsynced|].
    apply Hsucceeds. destruct (resetEEPROM_cases false w) as (Hiff & _). cbv zeta in Hiff.
    revert Hiff. generalize (fst (resetEEPROM X T false w)). intros [|] Hiff; [reflexivity|].
    destruct (proj1 Hiff eq_refl) as (_ & ? & _). discriminate.
  - unfold saveConfigAndNotify. cbv zeta.
    pose proof (pointers_synced_readEEPROM (writeEEPROM X T w)) as Hread.
    revert Hread. generalize (snd (readEEPROM X T (writeEEPROM X T w))). by intros w2.
  - exact Hsynced.
  - revert Hswitch. unfold changePidProfileFromCellCount.
    repeat case_match; intros; simplify_eq; try exact Hsynced.
    by apply pointers_synced_changePidProfile.
  - by apply pointers_synced_changePidProfile.
  - exact Hsynced.
Qed.

End Properties.

(** * Instances

    The theorems applied to the sample builds, and the inputs on which
    statements of the specification fail. *)

Import Sample.

(** C7 at a store whose PID profile index (7) is beyond the three profiles. *)
Lemma validateAndFixGyroConfig_profile_bounds_witness :
  let w := boot (systemConfigMutable (set_pidProfileIndex 7%nat) (store 3 ∅)) in
  let w' := validateAndFixGyroConfig X0 T0 w in
  pidProfileIndex (systemConfig (pg w')) = 0%nat ∧ currentPidProfile w' = 0%nat.
Proof.
  intros w w'.
  destruct (validateAndFixGyroConfig_profile_bounds E0 X0 T0 w) as (_&_&_&Hp&_&Hc).
  - cbn. lia.
  - cbn. lia.
  - subst w'. rewrite Hc, Hp. split; reflexivity.
Defined.

(** C9 at index 7 (outside the three profiles), at index 2, and at index 255,
    where the beep count wraps to 0. *)
Lemma changePidProfile_spec_witness :
  trace (changePidProfile T0 7 w0) = [Ev_beeperConfirmationBeeps 8]
  ∧ trace (changePidProfile T0 2 w0)
    = [Ev_pidInit 2; Ev_initEscEndpoints; Ev_beeperConfirmationBeeps 3]
  ∧ trace (changePidProfile T0 255 w0) = [Ev_beeperConfirmationBeeps 0].
Proof.
  destruct (changePidProfile_spec E0 T0 7 w0) as (H7 & _).
  destruct (changePidProfile_spec E0 T0 2 w0) as (_ & H2 & _).
  destruct (changePidProfile_spec E0 T0 255 w0) as (H255 & _).
  split; [|split].
  - apply H7. vm_compute. lia.
  - apply H2. vm_compute. lia.
  - apply H255. vm_compute. lia.
Defined.

(** C6, amended, on a build whose target hook changes nothing, at a store
    whose second profile has a notch cutoff (150) above the notch centre
    (100): the notch comes out disabled, with its cutoff as it was. *)
Lemma dterm_notch_consistent_witness :
  let bad := set_dterm_notch_cutoff 150 (set_dterm_notch_hz 100 (profile 0)) in
  let w := boot (pidProfilesMutable 1 (λ _, bad) (store 3 {[ FEATURE_RX_SERIAL ]})) in
  ∃ p, pidProfiles (pg (validateAndFixConfig X0 hooked w)) !! 1%nat = Some p
       ∧ dterm_notch_hz p = 0 ∧ dterm_notch_cutoff p = 150.
Proof.
  intros bad w.
  destruct (dterm_notch_consistent E0 X0 hooked w 1 bad) as (p & Hp & Hcut & Hhz & _).
  - intros _ s. reflexivity.
  - reflexivity.
  - reflexivity.
  - exists p. split; [exact Hp|]. split; [exact Hhz|exact Hcut].
Defined.

(** C6 as stated fails on a build whose target hook, which runs last (line
    548), writes the notch settings: here the hook leaves the first profile
    with an enabled notch (centre 100) whose cutoff (150) is not below the
    centre. *)
Lemma dterm_notch_left_by_target_hook :
  ¬ (∀ i p, pidProfiles (pg (validateAndFixConfig X_notch hooked w0)) !! i = Some p ->
            0 < dterm_notch_hz p -> dterm_notch_cutoff p < dterm_notch_hz p).
Proof.
  intros Hclaim.
  assert (Hnotch : notch_pair
                     <$> pidProfiles (pg (validateAndFixConfig X_notch hooked w0)) !! 0%nat
                   = Some (100, 150)) by (by vm_compute).
  destruct (pidProfiles (pg (validateAndFixConfig X_notch hooked w0)) !! 0%nat)
    as [p|] eqn:Hp; [|discriminate Hnotch].
  specialize (Hclaim 0%nat p Hp).
  injection Hnotch as Hhz Hcut. rewrite Hhz, Hcut in Hclaim. lia.
Qed.

(** C10 along a profile change followed by a save. *)
Lemma reboot_required_is_sticky_witness :
  let w := saveConfigAndNotify X0 T0 (changePidProfile T0 1 (setRebootRequired w0)) in
  getRebootRequired w = true ∧ ARMING_DISABLED_REBOOT_REQUIRED ∈ armingDisableFlags w.
Proof.
  intros w.
  apply (reboot_required_is_sticky E0 X0 T0
           [Op_changePidProfile 1; Op_saveConfigAndNotify] w0).
  eapply runs_cons; [apply run_changePidProfile|].
  eapply runs_cons; [apply run_saveConfigAndNotify|].
  apply runs_nil.
Defined.

(** C2, amended, on a build whose target hook changes nothing, at a store
    with no receiver-input feature: the default (parallel PWM) is enabled on
    return. *)
Lemma rx_feature_exclusive_witness :
  FEATURE_RX_PARALLEL_PWM
  ∈ features (pg (validateAndFixConfig X0 hooked (boot (store 3 {[ FEATURE_GPS ]})))).
Proof.
  apply (rx_feature_exclusive E0 X0 hooked (boot (store 3 {[ FEATURE_GPS ]}))).
  - intros _ s. reflexivity.
  - by vm_compute.
  - by vm_compute.
  - reflexivity.
  - intros (Hsoft & _). discriminate Hsoft.
Defined.

(** C2 as stated fails on a soft-SPI build whose default receiver input is
    parallel PWM: with only the soft-SPI feature set on entry, the default is
    enabled by line 276 and cleared again by line 303, so that no
    receiver-input feature is enabled on return. *)
Lemma rx_default_not_enabled_with_softspi :
  let T := build 3 true FEATURE_RX_PARALLEL_PWM in
  let w := boot (store 3 {[ FEATURE_SOFTSPI ]}) in
  let fs := features (pg w) in
  let fs' := features (pg (validateAndFixConfig X0 T w)) in
  ¬ (at_most_one_rx fs'
     ∧ (fs ∩ RX_FEATURES = ∅ -> DEFAULT_RX_FEATURE T ∈ fs')).
Proof.
  intros T w fs fs' [_ Hdefault].
  assert (Hnone : fs ∩ RX_FEATURES = ∅) by by vm_compute.
  specialize (Hdefault Hnone).
  assert (Hnot : DEFAULT_RX_FEATURE T ∉ fs')
    by (apply (bool_decide_eq_false_1 (DEFAULT_RX_FEATURE T ∈ fs')); by vm_compute).
  exact (Hnot Hdefault).
Qed.



(** C3 at a store with DSHOT150 and unsynced PWM: the first pass leaves the
    PID divisor at 1, the second raises it to 2. *)
Lemma validateAndFixConfig_second_pass_differs_witness :
  let w := boot (motorConfigMutable (λ _, motor PWM_TYPE_DSHOT150 true 480)
                   (store 3 {[ FEATURE_RX_SERIAL ]})) in
  let once := validateAndFixConfig X0 T0 w in
  let twice := validateAndFixConfig X0 T0 once in
  pid_process_denom (pidConfig (pg once)) = 1
  ∧ pid_process_denom (pidConfig (pg twice)) = 2
  ∧ twice ≠ once.
Proof.
  intros w.
  apply (validateAndFixConfig_second_pass_differs E0 X0 T0 w (GYRO_HARDWARE_LPF_OTHER 0) 0);
    try reflexivity.
  - cbn. lia.
  - discriminate.
Defined.

(** C4, amended, on a build with four profiles tagged stay (0), 4, stay, 6:
    from index 0 nothing changes, from index 1 the switch goes to index 3. *)
Lemma cell_count_switch_determinism_witness :
  let T := build 4 false FEATURE_RX_PARALLEL_PWM in
  let w := boot (tagged [0; 4; 0; 6] (store 4 ∅)) in
  let w1 := boot (systemConfigMutable (set_pidProfileIndex 1%nat)
                    (tagged [0; 4; 0; 6] (store 4 ∅))) in
  changePidProfileFromCellCount T 3 6 w = Some w
  ∧ ∃ w', changePidProfileFromCellCount T 3 6 w1 = Some w'
          ∧ pidProfileIndex (systemConfig (pg w')) = 3%nat.
Proof.
  intros T w w1. split.
  - apply (cell_count_switch_determinism E0 T 3 w); try reflexivity;
      try discriminate; lia.
  - destruct (cell_count_switch_determinism E0 T 3 w1) as (_ & H);
      try reflexivity; try discriminate; try lia.
    destruct (H eq_refl) as (w' & Hrun & _ & Hindex & _).
    exists w'. split; [exact Hrun|exact Hindex].
Defined.

(** C4 as stated fails: with the profiles tagged stay, 4, stay, 6 and the
    current profile at index 0, the call returns the state as it is, and the
    active index is never 3. *)
Lemma cell_count_switch_from_stay_profile :
  let T := build 4 false FEATURE_RX_PARALLEL_PWM in
  let w := boot (tagged [0; 4; 0; 6] (store 4 ∅)) in
  pidProfileIndex (systemConfig (pg w)) = 0%nat
  ∧ auto_profile_cell_count <$> pidProfiles (pg w) !! currentPidProfile w
    = Some (AUTO_PROFILE_CELL_COUNT_STAY T)
  ∧ (∀ fuel, changePidProfileFromCellCount T fuel 6 w = Some w)
  ∧ ¬ (∃ fuel w', changePidProfileFromCellCount T fuel 6 w = Some w'
                  ∧ pidProfileIndex (systemConfig (pg w')) = 3%nat).
Proof.
  intros T w.
  assert (Hrun : ∀ fuel, changePidProfileFromCellCount T fuel 6 w = Some w)
    by (intros fuel; reflexivity).
  split; [reflexivity|]. split; [reflexivity|]. split; [exact Hrun|].
  intros (fuel & w' & Hw' & Hindex). rewrite Hrun in Hw'.
  injection Hw' as <-. discriminate Hindex.
Qed.


(** ** The properties of the code at sample inputs *)


(** An active index of 7 with three profiles, none of them tagged 6: the loop
    has not ended after 1000 iterations. *)
Lemma cell_count_scan_needs_valid_index_witness :
  let w := with_currentPidProfile (λ _, 1%nat)
             (boot (systemConfigMutable (set_pidProfileIndex 7%nat)
                      (tagged [4; 4; 4] (store 3 ∅)))) in
  changePidProfileFromCellCount T0 1000 6 w = None.
Proof.
  intros w.
  apply (cell_count_scan_needs_valid_index E0 T0 6 w).
  - cbn. lia.
  - reflexivity.
  - cbn. lia.
  - lia.
  - discriminate.
  - discriminate.
  - intros [|[|[|j]]]; discriminate.
Defined.


(** A profile with a roll D-min of 40 against a D gain of 30. *)
Lemma d_min_below_d_gain_witness :
  let bad := set_d_min [40; 22; 0] (profile 0) in
  let w := boot (pidProfilesMutable 1 (λ _, bad) (store 3 {[ FEATURE_RX_SERIAL ]})) in
  ∃ p dm g, pidProfiles (pg (validateAndFixConfig X0 T0 w)) !! 1%nat = Some p
            ∧ d_min p !! 0%nat = Some dm ∧ pid p !! 0%nat = Some g
            ∧ (dm = 0 ∨ dm < D g).
Proof.
  intros bad w. eexists _, _, _. split; [by vm_compute|].
  split; [reflexivity|]. split; [reflexivity|].
  refine (d_min_below_d_gain E0 X0 T0 w 1 _ 0 _ _ eq_refl eq_refl _ _ _ _).
  - by vm_compute.
  - unfold FD_YAW. lia.
  - reflexivity.
  - reflexivity.
Defined.

(** The sample store has feed-forward gains on every axis, with RC smoothing
    on roll, pitch, yaw and throttle. *)
Lemma feedforward_needs_rc_smoothing_witness :
  let w' := validateAndFixConfig X0 T0 w0 in
  rcSmoothingIsEnabled X0 (rxConfig (pg w')) = true
  ∧ rcInterpolationChannels (rxConfig (pg w')) ≠ INTERPOLATION_CHANNELS_T.
Proof.
  intros w'.
  pose proof (feedforward_needs_rc_smoothing E0 X0 T0 w0 0) as H. cbv zeta in H.
  edestruct H as (Hroll & _); [reflexivity|reflexivity|by vm_compute|].
  apply Hroll. left. by vm_compute.
Defined.

(** Channel 9 of a table with 8 channels, on band 2. *)
Lemma vtx_settings_within_table_witness :
  let w := boot (vtxSettingsConfigMutable
                   (λ _, {| band := 2; channel := 9; power := 1; freq := 5800 |})
                   (store 3 {[ FEATURE_RX_SERIAL ]})) in
  let v' := vtxSettingsConfig (pg (validateAndFixConfig X0 T0 w)) in
  channel v' = 0 ∧ band v' = 2 ∧ freq v' = 0.
Proof.
  intros w v'.
  destruct (vtx_settings_within_table E0 X0 T0 w eq_refl eq_refl eq_refl)
    as (_ & Hchannel & Hband & _ & Hfreq).
  split; [|split].
  - etransitivity; [exact Hchannel|by vm_compute].
  - etransitivity; [exact Hband|by vm_compute].
  - etransitivity; [exact Hfreq|by vm_compute].
Defined.

(** Beeper-off flags with a bit beyond the allowed modes, and beacon tone 9. *)
Lemma beeper_settings_allowed_witness :
  let w := boot (beeperConfigMutable
                   (λ _, {| beeper_off_flags := 33554432; dshotBeaconOffFlags := 0;
                            dshotBeaconTone := 9 |})
                   (store 3 {[ FEATURE_RX_SERIAL ]})) in
  let b := beeperConfig (pg (validateAndFixConfig X0 T0 w)) in
  Z.land (beeper_off_flags b) (Z.lnot (BEEPER_ALLOWED_MODES T0)) = 0
  ∧ DSHOT_CMD_BEACON1 T0 <= dshotBeaconTone b <= DSHOT_CMD_BEACON5 T0.
Proof.
  intros w b.
  destruct (beeper_settings_allowed E0 X0 T0 w eq_refl eq_refl) as (Hflags & Hdshot & _).
  - cbn. lia.
  - split; [exact Hflags|]. by destruct (Hdshot eq_refl).
Defined.


(** A brushed motor with the 3D feature set and a minimum command of 900. *)
Lemma motor_protocol_limits_witness :
  let w := boot (motorConfigMutable (λ _, motor PWM_TYPE_BRUSHED false 480)
                   (store 3 {[ FEATURE_3D; FEATURE_RX_SERIAL ]})) in
  let s' := pg (validateAndFixConfig X0 T0 w) in
  (FEATURE_3D ∉ features s') ∧ (1000 <= mincommand (motorConfig s')).
Proof.
  intros w s'.
  destruct (motor_protocol_limits E0 X0 T0 w eq_refl) as (_ & Hbrushed & _).
  - discriminate.
  - apply Hbrushed. by vm_compute.
Defined.

(** The OSD feature on a build without the OSD. *)
Lemma unsupported_features_cleared_witness :
  let w := boot (store 3 {[ FEATURE_OSD; FEATURE_RX_SERIAL ]}) in
  FEATURE_OSD ∉ features (pg (validateAndFixConfig X0 lean w)).
Proof.
  intros w Hin.
  destruct (unsupported_features_cleared E0 X0 lean w eq_refl) as [Hcleared _].
  assert (Hosd : FEATURE_OSD ∈ unsupported_features lean)
    by (apply (bool_decide_eq_true_1 (FEATURE_OSD ∈ unsupported_features lean));
        by vm_compute).
  revert Hin Hcleared Hosd. generalize (unsupported_features lean).
  generalize (features (pg (validateAndFixConfig X0 lean w))). clear. set_solver.
Defined.

(** The GPS feature with a serial port for the GPS. *)
Lemma enabled_features_have_backing_witness :
  let w := boot (store 3 {[ FEATURE_GPS; FEATURE_RX_SERIAL ]}) in
  let s' := pg (validateAndFixConfig X1 T0 w) in
  USE_GPS T0 = true
  ∧ (provider (gpsConfig s') = GPS_MSP
     ∨ findSerialPortConfig X1 FUNCTION_GPS (serialConfig s') ≠ None).
Proof.
  intros w s'.
  destruct (enabled_features_have_backing E0 X1 T0 w eq_refl) as (Hgps & _).
  - apply (bool_decide_eq_true_1 (DEFAULT_RX_FEATURE T0 ∈ RX_FEATURES)). by vm_compute.
  - apply Hgps.
    apply (bool_decide_eq_true_1
             (FEATURE_GPS ∈ features (pg (validateAndFixConfig X1 T0 w)))).
    by vm_compute.
Defined.

(** The RSSI ADC feature with RSSI channel 3 configured. *)
Lemma rssi_source_exclusive_witness :
  let w := boot (rxConfigMutable (set_rssi_channel 3)
                   (store 3 {[ FEATURE_RSSI_ADC; FEATURE_RX_SERIAL ]})) in
  let r := rxConfig (pg (validateAndFixConfig X0 T0 w)) in
  rssi_channel r = 0 ∧ rssi_src_frame_errors r = false.
Proof.
  intros w r.
  destruct (rssi_source_exclusive E0 X0 T0 w eq_refl) as (_ & Hadc & _).
  apply Hadc; [reflexivity|].
  apply (bool_decide_eq_true_1
           (FEATURE_RSSI_ADC ∈ features (pg (validateAndFixConfig X0 T0 w)))).
  by vm_compute.
Defined.

(** Fixed mixer mode 3, which has a motor table and uses no servos. *)
Lemma mixer_mode_supported_witness :
  mixerMode (mixerConfig (pg (validateAndFixConfig X0 T0 w0))) = MIXER_FIXED 3.
Proof.
  destruct (mixer_mode_supported E0 X0 T0 w0 eq_refl eq_refl) as [_ Hfixed].
  destruct Hfixed as [Hsame _]; [|exact Hsame].
  intros [H|[H|H]]; vm_compute in H; discriminate H.
Defined.

(** A first OSD timer with source 15, of 3 sources. *)
Lemma osd_timers_valid_witness :
  let w := boot (osdConfigMutable (set_timers [15; 1]) (store 3 {[ FEATURE_RX_SERIAL ]})) in
  ∃ t, timers (osdConfig (pg (validateAndFixConfig X0 T0 w))) !! 0%nat = Some t
       ∧ (OSD_TIMER_SRC X0 t < OSD_TIMER_SRC_COUNT T0
          ∧ OSD_TIMER_PRECISION X0 t < OSD_TIMER_PREC_COUNT T0
          ∨ t = osdTimerDefault X0 0).
Proof.
  intros w. eexists. split; [by vm_compute|].
  destruct (osd_timers_valid E0 X0 T0 w 0 eq_refl eq_refl) as [Hvalid _].
  apply Hvalid; [by vm_compute|cbn; lia].
Defined.

(** A first gyro notch centred at 200 Hz with its cutoff at 100 Hz. *)
Lemma gyro_filters_consistent_witness :
  let w := boot (gyroConfigMutable
                   (λ g, set_gyro_soft_notch_cutoff_1 100 (set_gyro_soft_notch_hz_1 200 g))
                   (store 3 ∅)) in
  let g := gyroConfig (pg (validateAndFixGyroConfig X0 T0 w)) in
  gyro_soft_notch_cutoff_1 g < gyro_soft_notch_hz_1 g.
Proof.
  intros w g.
  destruct (gyro_filters_consistent E0 X0 T0 w) as (_ & _ & Hnotch & _).
  apply Hnotch. by vm_compute.
Defined.

(** The flash device on a build without the flash file system. *)
Lemma blackbox_device_supported_witness :
  let w := boot (blackboxConfigMutable (set_device 1) (store 3 ∅)) in
  device (blackboxConfig (pg (validateAndFixGyroConfig X0 lean w))) ≠ 1.
Proof.
  intros w.
  destruct (blackbox_device_supported E0 X0 lean w eq_refl) as (_ & Hflash & _).
  - discriminate.
  - discriminate.
  - by apply Hflash.
Defined.

(** GPS rescue as the failsafe procedure, with the GPS feature and a serial
    port for the GPS. *)
Lemma gps_rescue_needs_gps_witness :
  let w := boot (failsafeConfigMutable (set_failsafe_procedure FAILSAFE_PROCEDURE_GPS_RESCUE)
                   (store 3 {[ FEATURE_GPS; FEATURE_RX_SERIAL ]})) in
  let s' := pg (validateAndFixConfig X1 T0 w) in
  USE_GPS T0 = true ∧ FEATURE_GPS ∈ features s' ∧ FEATURE_3D ∉ features s'.
Proof.
  intros w s'.
  apply (gps_rescue_needs_gps E0 X1 T0 w eq_refl eq_refl). by vm_compute.
Defined.


(** A write from the sample state. *)
Lemma writeEEPROM_stores_validated_config_witness :
  isSystemConfigured (writeEEPROM X0 T0 w0) = true.
Proof.
  destruct (writeEEPROM_stores_validated_config E0 X0 T0 w0) as (_ & _ & Hconfigured).
  by apply Hconfigured.
Defined.

(** A reset to custom defaults that cannot be applied. *)
Lemma resetEEPROM_outcome_witness :
  fst (resetEEPROM X0 lean true (setConfigDirty w0)) = false
  ∧ trace (snd (resetEEPROM X0 lean true (setConfigDirty w0))) = []
  ∧ configIsDirty (snd (resetEEPROM X0 lean true (setConfigDirty w0))) = true.
Proof.
  destruct (resetEEPROM_outcome E0 X0 lean true (setConfigDirty w0)) as (Hiff & Hfail & _).
  assert (Hfalse : fst (resetEEPROM X0 lean true (setConfigDirty w0)) = false)
    by (apply Hiff; repeat split; reflexivity).
  destruct (Hfail Hfalse) as (_ & _ & Htrace & Hdirty & _).
  split; [exact Hfalse|]. split; [exact Htrace|exact Hdirty].
Defined.

(** A read into a store whose PID profile index (7) is beyond the three
    profiles. *)
Lemma readEEPROM_activates_checked_profiles_witness :
  let w := boot (systemConfigMutable (set_pidProfileIndex 7%nat)
                   (store 3 {[ FEATURE_RX_SERIAL ]})) in
  let w' := snd (readEEPROM X0 T0 w) in
  (currentPidProfile w' < 3)%nat ∧ Ev_pidInit (currentPidProfile w') ∈ trace w'.
Proof.
  intros w w'.
  destruct (readEEPROM_activates_checked_profiles E0 X0 T0 w eq_refl)
    as (_ & Hlt & _ & _ & Hinit & _).
  - cbn. lia.
  - cbn. lia.
  - split; [exact Hlt|exact Hinit].
Defined.

(** A write after the dirty flag was raised. *)
Lemma dirty_flag_after_witness :
  isConfigDirty (writeEEPROM X0 T0 (setConfigDirty w0)) = false.
Proof.
  apply (dirty_flag_after E0 X0 T0 Op_writeEEPROM (setConfigDirty w0)).
  apply run_writeEEPROM.
Defined.

(** A write with the OSD feature alone, from a store with the serial
    receiver. *)
Lemma writeEEPROMWithFeatures_replaces_features_witness :
  FEATURE_RX_SERIAL ∉ features (pg (writeEEPROMWithFeatures X0 T0 {[ FEATURE_OSD ]} w0)).
Proof.
  intros Hin.
  destruct (writeEEPROMWithFeatures_replaces_features E0 X0 T0 {[ FEATURE_OSD ]} w0 eq_refl)
    as [Hsub _].
  pose proof (proj1 (elem_of_subseteq _ _) Hsub _ Hin) as Hin'.
  change (DEFAULT_RX_FEATURE T0) with FEATURE_RX_PARALLEL_PWM in Hin'.
  clear -Hin'. set_solver.
Defined.

(** A change to profile 2 from the sample state. *)
Lemma pointers_stay_synced_witness :
  pointers_synced (changePidProfile T0 2 w0).
Proof.
  apply (pointers_stay_synced E0 X0 T0 (Op_changePidProfile 2) w0).
  - reflexivity.
  - apply run_changePidProfile.
  - discriminate.
  - intros b Hop. discriminate Hop.
  - split; reflexivity.
Defined.
